(** * Evaluation layer of the LTP surrogate-model pipeline

    A shallow embedding of [src/ltp_system/plotter/Figure_6a.py] and of the
    checkpoint / reporting helpers of [main_ltp_system.py], together with
    the properties their specification states about them.

    Numerical conventions.  Tensors and arrays hold IEEE floating-point
    numbers in the program; here they are idealised as real numbers, so
    rounding, overflow and the IEEE special values are outside the model.
    A quotient whose denominator is zero, [inf] or [nan] in the program,
    carries no meaning here: the statements below either ask for
    non-zero denominators or equate the same quotient on both sides.
    A two-dimensional array is a list of rows (one row per sample), as
    numpy and torch store it.  A computation that raises in Python returns
    [None] (or [Raise e] where the exception itself matters). *)

From Stdlib Require Import String DecimalString QArith Reals Lra Lia ZArith Bool List.
Import ListNotations.

(* ================================================================== *)
(** ** Exceptions and paths *)
(* ================================================================== *)

Module Python.

(** The exceptions that matter to the checkpoint logic; anything else a
    collaborator raises is [OtherError]. *)
Inductive exn : Type :=
| FileNotFoundError (detail : string)
| ValueError (message : string)
| OtherError (kind message : string).

Inductive result (A : Type) : Type :=
| Ok (a : A)
| Raise (e : exn).
Arguments Ok {A} a.
Arguments Raise {A} e.

Definition and_then {A B : Type} (c : result A) (k : A -> result B) : result B :=
  match c with
  | Ok a => k a
  | Raise e => Raise e
  end.

Notation "'do' a '<-' c ';' k" := (and_then c (fun a => k))
  (at level 10, a pattern, c at level 200, k at level 200).

(** [try: body  except FileNotFoundError: handler] *)
Definition except_FileNotFoundError {A : Type} (body handler : result A) : result A :=
  match body with
  | Raise (FileNotFoundError _) => handler
  | other => other
  end.

(** [os.path.join] of relative components. *)
Definition path_join (parts : list string) : string := String.concat "/" parts.

(** [str(n)] for a non-negative integer, as an f-string prints it. *)
Definition str (n : nat) : string := NilZero.string_of_uint (Nat.to_uint n).

End Python.

(* ================================================================== *)
(** ** Arrays over the reals *)
(* ================================================================== *)

Module Tensor.
Local Open Scope R_scope.

Definition vec := list R.
Definition matrix := list vec.

(** [np.sum] / [torch.sum] of a one-dimensional array. *)
Fixpoint Rsum (xs : vec) : R :=
  match xs with
  | [] => 0
  | x :: rest => x + Rsum rest
  end.

(** [np.average(xs)] with uniform weights. *)
Definition average (xs : vec) : R := Rsum xs / INR (length xs).

(** [M.shape[1]] *)
Definition ncols (M : matrix) : nat := length (hd [] M).

(** [M[:, j]] *)
Definition column (j : nat) (M : matrix) : vec := map (fun row => nth j row 0) M.

(** [np.average(M, axis=0)]: one average per column. *)
Definition average_axis0 (M : matrix) : vec :=
  map (fun j => average (column j M)) (seq 0 (ncols M)).

(** Elementwise binary operation on arrays of the same shape. *)
Definition map2 {A B C : Type} (f : A -> B -> C) (xs : list A) (ys : list B) : list C :=
  map (fun p => f (fst p) (snd p)) (combine xs ys).

Definition elementwise (f : R -> R -> R) (A B : matrix) : matrix :=
  map2 (map2 f) A B.

(** All entries of an array, row after row ([M.flatten()]). *)
Definition flatten (M : matrix) : vec := concat M.

(** [M] has [n] rows, each of [d] entries. *)
Definition rectangular (n d : nat) (M : matrix) : Prop :=
  length M = n /\ Forall (fun row => length row = d) M.

Definition zeros (d : nat) : vec := repeat 0 d.

End Tensor.

(* ================================================================== *)
(** ** scikit-learn's regression metrics

    [sklearn.metrics.mean_absolute_percentage_error] and
    [mean_squared_error], as called with their defaults
    ([sample_weight=None], [multioutput='uniform_average']). *)
(* ================================================================== *)

Module Sklearn.
Import Tensor.
Local Open Scope R_scope.

(** [np.finfo(np.float64).eps] *)
Definition epsilon : R := / 2 ^ 52.

(** Input validation ([_check_reg_targets], [check_consistent_length]):
    at least one sample and one output, and both arrays of one shape. *)
Definition check_reg_targets (y_true y_pred : matrix) : bool :=
  ((1 <=? length y_true) && (1 <=? ncols y_true) &&
   (length y_true =? length y_pred) && (ncols y_true =? ncols y_pred))%nat.

(** [mape = np.abs(y_pred - y_true) / np.maximum(np.abs(y_true), epsilon)]
    [output_errors = np.average(mape, axis=0)]
    [return np.average(output_errors)] *)
Definition mean_absolute_percentage_error (y_true y_pred : matrix) : option R :=
  if check_reg_targets y_true y_pred then
    let mape := elementwise (fun t p => Rabs (p - t) / Rmax (Rabs t) epsilon) y_true y_pred in
    let output_errors := average_axis0 mape in
    Some (average output_errors)
  else None.

(** [output_errors = np.average((y_true - y_pred) ** 2, axis=0)]
    [return np.average(output_errors)] *)
Definition mean_squared_error (y_true y_pred : matrix) : option R :=
  if check_reg_targets y_true y_pred then
    let output_errors := average_axis0 (elementwise (fun t p => (t - p) ^ 2) y_true y_pred) in
    Some (average output_errors)
  else None.

End Sklearn.

(* ================================================================== *)
(** ** Collaborators of the evaluation layer

    [src.ltp_system.data_prep], [src.ltp_system.pinn_nn] and
    [src.ltp_system.projection] are imported by the two source files but
    are not part of them; what the evaluation layer needs of them is
    modelled from the specification. *)
(* ================================================================== *)

Module DataPrep.
Import Tensor.
Local Open Scope R_scope.

(** Modelled from the spec: a fitted per-feature scaler, "exposing
    per-feature forward transform (raw -> normalized) and inverse
    transform (normalized -> raw)"; the scaler class itself is missing. *)
Record Scaler : Type := {
  transform : R -> R;
  inverse_transform : R -> R
}.

(** Modelled from the spec: the attributes of [DataPreprocessor] that
    [load_data] reads, "per-feature scaler parameters (for input and
    output) plus lists of feature indices requiring a skew (log1p)
    transform before scaling"; the class itself is missing. *)
Record DataPreprocessor : Type := {
  skewed_features_in : list nat;
  skewed_features_out : list nat;
  scalers_input : list Scaler;
  scalers_output : list Scaler
}.

(** What [LoadDataset(filename)] holds once the file is read. *)
Record LoadDataset : Type := {
  x : matrix;
  y : matrix
}.

Definition log1p (v : R) : R := ln (1 + v).
Definition expm1 (v : R) : R := exp v - 1.

(** [j in idx] for a list of column indices. *)
Definition mem (j : nat) (idx : list nat) : bool := existsb (Nat.eqb j) idx.

(** Modelled from the spec: de-normalisation of one output vector,
    "invert scaling, invert skew transform" (steps 1 and 4 of the
    projection engine); the function that does it is missing. *)
Definition denormalize_output (prep : DataPreprocessor) (v : vec) : vec :=
  map (fun '(j, (s, vj)) =>
         let u := inverse_transform s vj in
         if mem j (skewed_features_out prep) then expm1 u else u)
      (combine (seq 0 (length v)) (combine (scalers_output prep) v)).

(** Modelled from the spec: "re-apply skew transform and scaling to
    return to normalized space". *)
Definition normalize_output (prep : DataPreprocessor) (v : vec) : vec :=
  map (fun '(j, (s, vj)) =>
         transform s (if mem j (skewed_features_out prep) then log1p vj else vj))
      (combine (seq 0 (length v)) (combine (scalers_output prep) v)).

End DataPrep.

Module PinnNN.
Import Tensor.
Local Open Scope R_scope.

(** Modelled from the spec: a trained model is "a deterministic inference
    call predict(inputs) -> outputs (normalized-space in, normalized-space
    out)"; the class [NeuralNetwork] is missing. *)
Definition NeuralNetwork : Type := matrix -> matrix.

(** Modelled from the spec: the models' outputs on one batch, one array
    per model ("a list of trained model objects, each exposing a
    deterministic inference call"). *)
Definition stack (networks : list NeuralNetwork) (inputs : matrix) : list matrix :=
  map (fun net => net inputs) networks.

(** Modelled from the spec: a statistic taken across the models, "per
    sample per output dimension"; the shape is that of the first model's
    output. *)
Definition across_models (stat : vec -> R) (preds : list matrix) : matrix :=
  match preds with
  | [] => []
  | first :: _ =>
      map (fun i =>
             map (fun j => stat (map (fun P => nth j (nth i P []) 0) preds))
                 (seq 0 (length (nth i first []))))
          (seq 0 (length first))
  end.

(** Modelled from the spec: "standard deviation across the n models",
    taken around the mean of the [n] values and over all [n] of them. *)
Definition std (xs : vec) : R :=
  sqrt (average (map (fun v => (v - average xs) ^ 2) xs)).

(** Modelled from the spec: "divided by sqrt(n) (standard error of the
    mean)". *)
Definition sem (xs : vec) : R := std xs / sqrt (INR (length xs)).

(** Modelled from the spec: [get_average_predictions] is missing; "mean
    prediction: elementwise average of the n models' outputs per sample
    per output dimension", under the contract [n >= 1]. *)
Definition get_average_predictions (networks : list NeuralNetwork) (inputs : matrix)
  : option matrix :=
  match networks with
  | [] => None
  | _ => Some (across_models average (stack networks inputs))
  end.

(** Modelled from the spec: [get_predictive_uncertainty] is missing;
    "elementwise standard deviation across the n models divided by
    sqrt(n) (standard error of the mean), per sample per output
    dimension", under the contract [n >= 1]. *)
Definition get_predictive_uncertainty (networks : list NeuralNetwork) (inputs : matrix)
  : option matrix :=
  match networks with
  | [] => None
  | _ => Some (across_models sem (stack networks inputs))
  end.

End PinnNN.

Module Training.
Import Tensor Python.

(** The keys of a model's configuration that the checkpoint logic
    reads; [settings] stands for the rest of the dictionary. *)
Record ModelConfig (Settings : Type) : Type := {
  RETRAIN_MODEL : bool;
  batch_size : Z;
  settings : Settings
}.
Arguments RETRAIN_MODEL {Settings} _.
Arguments batch_size {Settings} _.
Arguments settings {Settings} _.

Record Config (Settings : Type) : Type := {
  nn_model : ModelConfig Settings;
  pinn_model : ModelConfig Settings;
  plotting : Settings
}.
Arguments nn_model {Settings} _.
Arguments pinn_model {Settings} _.
Arguments plotting {Settings} _.

(** What [load_checkpoints] returns. *)
Record Checkpoint (Losses : Type) : Type := {
  loaded_models : list PinnNN.NeuralNetwork;
  loaded_losses : Losses;
  loaded_hidden_sizes : list Z;
  loaded_activation_fns : list string;
  loaded_training_time : R
}.
Arguments loaded_models {Losses} _.
Arguments loaded_losses {Losses} _.
Arguments loaded_hidden_sizes {Losses} _.
Arguments loaded_activation_fns {Losses} _.
Arguments loaded_training_time {Losses} _.

(** The functions of [src.ltp_system.utils], [data_prep], [pinn_nn] and
    of torch and [os] that the checkpoint logic calls.  Their code is not
    part of the two source files: each is a parameter, free to return or
    to raise. *)
Record Collaborators (Settings Losses Dataset Loader Preprocessed : Type) : Type := {
  cuda_is_available : bool;
  makedirs : string -> result unit;
  DataLoader : Dataset -> Z -> result Loader;
  get_trained_bootstraped_models :
    ModelConfig Settings -> Settings -> Preprocessed -> string -> string ->
    Loader -> Dataset -> option string ->
    result (list PinnNN.NeuralNetwork * Losses * R);
  load_checkpoints : ModelConfig Settings -> string -> result (Checkpoint Losses);
  select_random_rows : string -> nat -> result string;
  load_dataset : Config Settings -> string -> result DataPrep.LoadDataset;
  setup_dataset_with_preproprocessing_info :
    matrix -> matrix -> Preprocessed -> result (Dataset * Dataset * Dataset);
  train_data : Preprocessed -> Dataset;
  val_data : Preprocessed -> Dataset;
  losses_incomplete : Losses -> bool
}.
Arguments cuda_is_available {Settings Losses Dataset Loader Preprocessed} _.
Arguments makedirs {Settings Losses Dataset Loader Preprocessed} _ _.
Arguments DataLoader {Settings Losses Dataset Loader Preprocessed} _ _ _.
Arguments get_trained_bootstraped_models {Settings Losses Dataset Loader Preprocessed} _.
Arguments load_checkpoints {Settings Losses Dataset Loader Preprocessed} _ _ _.
Arguments select_random_rows {Settings Losses Dataset Loader Preprocessed} _ _ _.
Arguments load_dataset {Settings Losses Dataset Loader Preprocessed} _ _ _.
Arguments setup_dataset_with_preproprocessing_info
  {Settings Losses Dataset Loader Preprocessed} _ _ _ _.
Arguments train_data {Settings Losses Dataset Loader Preprocessed} _ _.
Arguments val_data {Settings Losses Dataset Loader Preprocessed} _ _.
Arguments losses_incomplete {Settings Losses Dataset Loader Preprocessed} _ _.

(** [torch.device("cuda" if torch.cuda.is_available() else "cpu")] *)
Definition torch_device {Settings Losses Dataset Loader Preprocessed : Type}
    (env : Collaborators Settings Losses Dataset Loader Preprocessed) : string :=
  if cuda_is_available env then "cuda"%string else "cpu"%string.

(** The message of the error raised for a missing checkpoint. *)
Definition checkpoint_not_found : string :=
  "Checkpoint not found. Set RETRAIN_MODEL to True or provide a valid checkpoint.".

End Training.

Module Projection.
Import Tensor DataPrep.
Local Open Scope R_scope.

(** Modelled from the spec: a constraint is "a function mapping a
    de-normalized output vector (and possibly input vector) to a scalar
    or small-vector residual" and "that function's Jacobian with respect
    to the output vector"; [constraint_p_i_ne] itself is missing. *)
Record Constraint : Type := {
  residual : vec -> vec -> vec;
  jacobian : vec -> vec -> matrix
}.

Definition dot (u v : vec) : R := Rsum (map2 Rmult u v).
Definition mat_vec (A : matrix) (v : vec) : vec := map (fun row => dot row v) A.
Definition transpose (n_cols : nat) (A : matrix) : matrix :=
  map (fun j => column j A) (seq 0 n_cols).
Definition mat_mul (A B : matrix) : matrix :=
  map (fun row => map (fun j => dot row (column j B)) (seq 0 (ncols B))) A.

(** Inverse of a diagonal matrix (the identity and the diagonal
    inverse-variance weights are of this kind, and so is a 1 x 1 matrix). *)
Definition diagonal_inverse (A : matrix) : matrix :=
  map (fun '(i, row) =>
         map (fun '(j, a) => if Nat.eqb i j then / a else 0)
             (combine (seq 0 (length row)) row))
      (combine (seq 0 (length A)) A).

(** A square matrix that is zero off its diagonal and non-zero on it. *)
Definition regular_diagonal (A : matrix) : bool :=
  forallb (fun '(i, row) =>
             Nat.eqb (length row) (length A) &&
             forallb (fun '(j, a) =>
                        if Req_dec_T a 0 then negb (Nat.eqb i j) else Nat.eqb i j)
                     (combine (seq 0 (length row)) row))
          (combine (seq 0 (length A)) A).

(** A sample backend, for diagonal matrices: it inverts the regular
    ones and refuses every other matrix, the singular ones among them. *)
Definition checked_diagonal_inverse (A : matrix) : option matrix :=
  if regular_diagonal A then Some (diagonal_inverse A) else None.

Section Engine.

(** Modelled from the spec: the linear-algebra backend's matrix
    inverse; "if J W^-1 J^T is singular or near-singular (rank-deficient
    constraint set), fail with a numerical-instability error rather than
    returning a corrected value computed from an ill-conditioned
    inverse".  The backend answers [None] for a matrix it does not
    invert; where its conditioning threshold lies is its own. *)
Variable inverse : matrix -> option matrix.

(** Modelled from the spec: step 3 of the projection engine, the closed
    form [dy = - W^-1 J^T (J W^-1 J^T)^-1 r]; there is no correction
    when one of the two inverses is refused. *)
Definition correction (W J : matrix) (r : vec) : option vec :=
  match inverse W with
  | None => None
  | Some Winv =>
      let Jt := transpose (ncols J) J in
      match inverse (mat_mul (mat_mul J Winv) Jt) with
      | None => None
      | Some G =>
          let gain := mat_mul (mat_mul Winv Jt) G in
          Some (map Ropp (mat_vec gain r))
      end
  end.

(** Modelled from the spec: steps 1 to 4 of the projection engine for one
    sample, in physical units. *)
Definition project_physical (c : Constraint) (W : matrix) (x_phys y_phys : vec)
  : option vec :=
  let r := residual c x_phys y_phys in
  let J := jacobian c x_phys y_phys in
  match correction W J r with
  | None => None
  | Some dy => Some (map2 Rplus y_phys dy)
  end.

(** Modelled from the spec: "applied independently per sample"; the
    results of the samples, unless one of them failed. *)
Fixpoint collect {A : Type} (results : list (option A)) : option (list A) :=
  match results with
  | [] => Some []
  | None :: _ => None
  | Some a :: rest =>
      match collect rest with
      | None => None
      | Some others => Some (a :: others)
      end
  end.

(** Modelled from the spec: [get_average_predictions_projected] is
    missing; per sample, de-normalise the prediction, correct it, and
    return to normalised space; "fail fast and loud (raise) on numerical
    instability - never silently return an uncorrected or NaN-filled
    value", so one failing sample fails the batch.  The inputs are
    handed to the constraint as they are received. *)
Definition get_average_predictions_projected
    (predictions inputs : matrix) (prep : DataPreprocessor)
    (c : Constraint) (W : matrix) : option (list vec) :=
  collect
    (map2 (fun p xin =>
             match project_physical c W xin (denormalize_output prep p) with
             | None => None
             | Some y_phys => Some (normalize_output prep y_phys)
             end)
          predictions inputs).

End Engine.

End Projection.

(* ================================================================== *)
(** ** Dictionaries and data frames *)
(* ================================================================== *)

Module PyDict.

(** A Python dictionary with string keys: the items in insertion order,
    no key twice. *)
Definition dict (V : Type) : Type := list (string * V).

(** [d[k] = v]: a new key goes last, a known key keeps its place. *)
Fixpoint set {V : Type} (k : string) (v : V) (d : dict V) : dict V :=
  match d with
  | [] => [(k, v)]
  | (k', v') :: rest =>
      if String.eqb k k' then (k, v) :: rest else (k', v') :: set k v rest
  end.

(** A dictionary display [{k1: v1, k2: v2, ...}], and [{**a, **b, ...}]
    once the items of the unpacked dictionaries are put in a row. *)
Definition of_items {V : Type} (items : list (string * V)) : dict V :=
  fold_left (fun d kv => set (fst kv) (snd kv) d) items [].

(** [d.get(k)] *)
Fixpoint get {V : Type} (k : string) (d : dict V) : option V :=
  match d with
  | [] => None
  | (k', v) :: rest => if String.eqb k k' then Some v else get k rest
  end.

(** [list(d.keys())] *)
Definition keys {V : Type} (d : dict V) : list string := map fst d.

(** [d.values()] *)
Definition values {V : Type} (d : dict V) : list V := map snd d.

End PyDict.

Module Pandas.
Import Tensor PyDict.

(** The values a cell of the tables holds. *)
Inductive cell : Type :=
| Int (z : Z)
| Float (r : R)
| IntList (l : list Z)
| Label (s : string)
| NaN.

(** A data frame, row by row; [index] labels the rows. *)
Record DataFrame : Type := {
  columns : list string;
  index : list cell;
  rows : list (list cell)
}.

(** [pd.DataFrame(data)] for a dictionary of sequences: one column per
    key, in the dictionary's order; sequences of different lengths raise
    [ValueError]. *)
Definition from_columns (data : dict (list cell)) : option DataFrame :=
  let n := length (hd [] (values data)) in
  if forallb (fun col => length col =? n)%nat (values data) then
    Some {| columns := keys data;
            index := map (fun i => Int (Z.of_nat i)) (seq 0 n);
            rows := map (fun i => map (fun col => nth i col NaN) (values data)) (seq 0 n) |}
  else None.

(** [pd.DataFrame(data, index=labels)] for a dictionary of dictionaries:
    one column per outer key, one row per label, [NaN] where an inner
    dictionary has no such label. *)
Definition from_nested (data : dict (dict R)) (labels : list string) : DataFrame :=
  {| columns := keys data;
     index := map Label labels;
     rows := map (fun label =>
                    map (fun inner => match get label inner with
                                      | Some v => Float v
                                      | None => NaN
                                      end)
                        (values data))
                 labels |}.

(** The order [sort_values] sorts numbers by. *)
Definition cell_le (a b : cell) : bool :=
  match a, b with
  | Int x, Int y => (x <=? y)%Z
  | Float x, Float y => if Rle_dec x y then true else false
  | Int x, Float y => if Rle_dec (IZR x) y then true else false
  | Float x, Int y => if Rle_dec x (IZR y) then true else false
  | _, _ => true
  end.

(** The position of a column, by name. *)
Fixpoint position (name : string) (names : list string) : option nat :=
  match names with
  | [] => None
  | n :: rest =>
      if String.eqb name n then Some O
      else match position name rest with
           | Some k => Some (S k)
           | None => None
           end
  end.

Fixpoint insert_row (j : nat) (r : cell * list cell) (sorted : list (cell * list cell))
  : list (cell * list cell) :=
  match sorted with
  | [] => [r]
  | r' :: rest =>
      if cell_le (nth j (snd r) NaN) (nth j (snd r') NaN) then r :: sorted
      else r' :: insert_row j r rest
  end.

(** [df.sort_values(by=name, ascending=True)]: the rows, each with its
    index label, in ascending order of the named column; an unknown
    column raises [KeyError].  Rows with equal keys keep their order
    here; pandas leaves it to the sorting algorithm. *)
Definition sort_values (by_ : string) (df : DataFrame) : option DataFrame :=
  match position by_ (columns df) with
  | None => None
  | Some j =>
      let sorted := fold_right (insert_row j) [] (combine (index df) (rows df)) in
      Some {| columns := columns df;
              index := map fst sorted;
              rows := map snd sorted |}
  end.

(** What [to_csv] writes: a header line and one line per row. *)
Record CsvFile : Type := {
  header : list string;
  lines : list (list cell)
}.

(** [df.to_csv(path, index=...)]: with [index=True] every line starts
    with the row's label, under an empty header field. *)
Definition to_csv (with_index : bool) (df : DataFrame) : CsvFile :=
  if with_index then
    {| header := ""%string :: columns df;
       lines := map2 cons (index df) (rows df) |}
  else
    {| header := columns df; lines := rows df |}.

End Pandas.

(* ================================================================== *)
(** ** [src/ltp_system/plotter/Figure_6a.py]: data loading and metrics *)
(* ================================================================== *)

Module Figure_6a.
Import Tensor DataPrep.
Local Open Scope R_scope.

(** Sequencing of computations that may raise. *)
Definition bind {A B : Type} (c : option A) (k : A -> option B) : option B :=
  match c with
  | Some a => k a
  | None => None
  end.

Notation "'let*' a ':=' c 'in' k" := (bind c (fun a => k))
  (at level 10, a pattern, c at level 200, k at level 200).

Fixpoint mapM {A B : Type} (f : A -> option B) (l : list A) : option (list B) :=
  match l with
  | [] => Some []
  | a :: rest =>
      let* b := f a in
      let* bs := mapM f rest in
      Some (b :: bs)
  end.

(** [enumerate(l)] *)
Definition enumerate {A : Type} (l : list A) : list (nat * A) :=
  combine (seq 0 (length l)) l.

(** [row[j] = v]; the index is in range wherever this is used. *)
Fixpoint set_nth {A : Type} (j : nat) (v : A) (row : list A) : list A :=
  match row, j with
  | [], _ => []
  | _ :: rest, O => v :: rest
  | a :: rest, S j' => a :: set_nth j' v rest
  end.

(** [M[:, idx]]: the listed columns, in the order listed. *)
Definition take_columns (idx : list nat) (M : matrix) : matrix :=
  map (fun row => map (fun j => nth j row 0) idx) M.

(** [row[idx] = values]: one assignment per listed index, in order. *)
Definition assign_entries (idx : list nat) (values row : vec) : vec :=
  fold_left (fun r '(j, v) => set_nth j v r) (combine idx values) row.

(** [M[:, idx] = V] *)
Definition assign_columns (idx : list nat) (V M : matrix) : matrix :=
  map2 (assign_entries idx) V M.

(** [M[:, idx] = torch.log1p(torch.tensor(M[:, idx]))]; an index past
    the last column raises [IndexError]. *)
Definition log1p_columns (idx : list nat) (M : matrix) : option matrix :=
  if forallb (fun j => j <? ncols M)%nat idx then
    Some (assign_columns idx (map (map log1p) (take_columns idx M)) M)
  else None.

(** [M[:, i:i+1]]: an [n] x 1 block, or [n] x 0 past the last column. *)
Definition column_slice (i : nat) (M : matrix) : matrix :=
  map (fun row => firstn 1 (skipn i row)) M.

(** [scaler.transform(X)] for a scaler fitted on one feature: it refuses
    an array without samples or whose width is not one. *)
Definition scaler_transform (s : Scaler) (X : matrix) : option matrix :=
  if ((1 <=? length X) && (ncols X =? 1))%nat then Some (map (map (transform s)) X)
  else None.

(** [torch.cat(blocks, dim=1)]: rows are joined side by side; the list
    must not be empty and the blocks must have as many rows. *)
Fixpoint cat_dim1 (blocks : list matrix) : option matrix :=
  match blocks with
  | [] => None
  | [B] => Some B
  | B :: rest =>
      let* R' := cat_dim1 rest in
      if (length B =? length R')%nat then Some (map2 (@app R) B R') else None
  end.

(** [torch.cat([torch.from_numpy(scaler.transform(M[:, i:i+1]))
               for i, scaler in enumerate(scalers)], dim=1)] *)
Definition normalize (scalers : list Scaler) (M : matrix) : option matrix :=
  let* blocks := mapM (fun '(i, s) => scaler_transform s (column_slice i M))
                      (enumerate scalers) in
  cat_dim1 blocks.

Section LoadData.

(** Reading the dataset file: [LoadDataset(test_filename)]. *)
Variable read_dataset : string -> LoadDataset.

Definition load_data (test_filename : string) (preprocessed_data : DataPreprocessor)
  : option (matrix * matrix) :=
  let test_dataset := read_dataset test_filename in
  let test_targets := y test_dataset in
  let test_inputs := x test_dataset in
  let* test_inputs :=
    (if (0 <? length (skewed_features_in preprocessed_data))%nat
     then log1p_columns (skewed_features_in preprocessed_data) test_inputs
     else Some test_inputs) in
  let* test_targets :=
    (if (0 <? length (skewed_features_out preprocessed_data))%nat
     then log1p_columns (skewed_features_out preprocessed_data) test_targets
     else Some test_targets) in
  let* normalized_inputs := normalize (scalers_input preprocessed_data) test_inputs in
  let* normalized_targets := normalize (scalers_output preprocessed_data) test_targets in
  Some (normalized_inputs, normalized_targets).

End LoadData.

(** [target_row != 0] *)
Definition non_zero_mask (target_row : vec) : list bool :=
  map (fun t => if Req_dec_T t 0 then false else true) target_row.

(** [row[mask]]: the entries at which the mask is set. *)
Definition masked_select (row : vec) (mask : list bool) : vec :=
  map fst (filter snd (combine row mask)).

(** The body of the loop over samples in [get_mape_uncertainty]. *)
Definition sample_term (target_row uncertainty_row : vec) : R :=
  let mask := non_zero_mask target_row in
  Rsum (map (fun q => q ^ 2)
            (map2 Rdiv (masked_select uncertainty_row mask)
                       (masked_select target_row mask))).

Definition get_mape_uncertainty (normalized_targets normalized_model_pred_uncertainty : matrix)
  : R :=
  let n := length normalized_targets in
  let mape_uncertainty :=
    fold_left (fun acc i =>
                 let target_row := nth i normalized_targets [] in
                 let uncertainty_row := nth i normalized_model_pred_uncertainty [] in
                 acc + sample_term target_row uncertainty_row)
              (seq 0 n) 0 in
  sqrt mape_uncertainty / INR n.

Definition evaluate_model (nn_models : list PinnNN.NeuralNetwork)
    (normalized_inputs normalized_targets : matrix)
  : option (R * R * matrix * R) :=
  let* normalized_model_predictions :=
    PinnNN.get_average_predictions nn_models normalized_inputs in
  let* normalized_model_pred_uncertainty :=
    PinnNN.get_predictive_uncertainty nn_models normalized_inputs in
  let* mape :=
    Sklearn.mean_absolute_percentage_error normalized_targets normalized_model_predictions in
  let mape_uncertainty :=
    get_mape_uncertainty normalized_targets normalized_model_pred_uncertainty in
  let* mse := Sklearn.mean_squared_error normalized_targets normalized_model_predictions in
  let rmse := sqrt mse in
  Some (mape, mape_uncertainty, normalized_model_predictions, rmse).

(** [np.stack(rows)]: at least one row, and all of one length. *)
Definition np_stack (rows : list vec) : option matrix :=
  match rows with
  | [] => None
  | first :: rest =>
      if forallb (fun row => length row =? length first)%nat rest then Some rows else None
  end.

Section EvaluateProjection.

Variable inverse : matrix -> option matrix.

Definition evaluate_projection (normalized_model_predictions normalized_targets
    normalized_inputs : matrix) (data_preprocessed : DataPreprocessor)
    (constraint_p_i_ne : Projection.Constraint) (w_matrix : matrix)
  : option (R * R) :=
  let* normalized_proj_predictions :=
    Projection.get_average_predictions_projected inverse
      normalized_model_predictions normalized_inputs data_preprocessed
      constraint_p_i_ne w_matrix in
  let* normalized_proj_predictions := np_stack normalized_proj_predictions in
  let* mape :=
    Sklearn.mean_absolute_percentage_error normalized_targets normalized_proj_predictions in
  let* mse := Sklearn.mean_squared_error normalized_targets normalized_proj_predictions in
  let rmse := sqrt mse in
  Some (mape, rmse).

End EvaluateProjection.


(* ------------------------------------------------------------------ *)
(** *** Parameter counts and the random architecture sweep *)
(* ------------------------------------------------------------------ *)

(** [sum(...)] over integers. *)
Fixpoint Zsum (l : list Z) : Z :=
  match l with
  | [] => 0
  | a :: rest => a + Zsum rest
  end%Z.

Definition compute_parameters (layer_config : list Z) : Z :=
  let layer_config := ([3] ++ layer_config ++ [17])%Z in
  let hidden_layers := firstn (length layer_config - 1 - 1) (skipn 1 layer_config) in
  let n_weights :=
    Zsum (map (fun i => nth i layer_config 0 * nth (i + 1) layer_config 0)%Z
              (seq 0 (length layer_config - 1))) in
  let n_biases := Zsum hidden_layers in
  (n_weights + n_biases)%Z.

(** The keys of [options] that [get_random_architectures] reads; the
    number of steps and the numbers of hidden layers are counts. *)
Record Options : Type := {
  min_neurons_per_layer : Z;
  max_neurons_per_layer : Z;
  n_steps : nat;
  max_hidden_layers : nat;
  min_hidden_layers : nat
}.

(** The state of Python's [random] module.  [randint a b] draws an
    integer of the closed range from [a] to [b]. *)
Class RandomSource (G : Type) : Type := {
  randint : Z -> Z -> G -> Z * G;
  randint_in_range :
    forall a b g, (a <= b)%Z -> (a <= fst (randint a b g) <= b)%Z
}.

(** How a call of [get_random_architectures] can end. *)
Inductive outcome (A : Type) : Type :=
| Returns (a : A)
| Raises
| OutOfFuel.
Arguments Returns {A} a.
Arguments Raises {A}.
Arguments OutOfFuel {A}.

(** [np.linspace(start, stop, num)]: [num] evenly spaced samples, the
    last one set to [stop]. *)
Definition linspace (start stop : Q) (num : nat) : list Q :=
  match num with
  | O => []
  | 1%nat => [start]
  | S div =>
      let step := ((stop - start) / inject_Z (Z.of_nat div))%Q in
      map (fun i => (start + inject_Z (Z.of_nat i) * step)%Q) (seq 0 div) ++ [stop]
  end.

(** [bins[i] <= total_params < bins[i + 1]] *)
Definition in_bin (bins : list Q) (total_params : Z) (i : nat) : bool :=
  Qle_bool (nth i bins 0%Q) (inject_Z total_params) &&
  negb (Qle_bool (nth (i + 1) bins 0%Q) (inject_Z total_params)).

(** The [for] loop over the bins: the first bin that holds
    [total_params] and is not filled yet, if there is one. *)
Definition first_free_bin (bins : list Q) (bin_filled : list bool) (total_params : Z)
  : option nat :=
  find (fun i => in_bin bins total_params i && negb (nth i bin_filled false))
       (seq 0 (length bins - 1)).

Section RandomArchitectures.

Context {G : Type} `{RandomSource G}.

(** [random.randint(a, b)] raises [ValueError] on an empty range. *)
Definition random_randint (a b : Z) (g : G) : option (Z * G) :=
  if (a <=? b)%Z then Some (randint a b g) else None.

(** [[random.randint(min_neurons, max_neurons) for _ in range(num_layers)]] *)
Fixpoint draw_layers (num_layers : nat) (min_neurons max_neurons : Z) (g : G)
  : option (list Z * G) :=
  match num_layers with
  | O => Some ([], g)
  | S k =>
      let* (size, g1) := random_randint min_neurons max_neurons g in
      let* (sizes, g2) := draw_layers k min_neurons max_neurons g1 in
      Some (size :: sizes, g2)
  end.

Definition generate_random_architecture (min_layers max_layers : nat)
    (min_neurons max_neurons : Z) (g : G) : option (list Z * G) :=
  let* (num_layers, g1) := random_randint (Z.of_nat min_layers) (Z.of_nat max_layers) g in
  draw_layers (Z.to_nat num_layers) min_neurons max_neurons g1.

(** The [while] loop; [fuel] bounds the number of architectures drawn. *)
Fixpoint fill_bins (fuel : nat) (options : Options) (bins : list Q)
    (architectures_list : list (list Z)) (bin_filled : list bool) (g : G)
  : outcome (list (list Z) * G) :=
  if (length architectures_list <? n_steps options)%nat then
    match fuel with
    | O => OutOfFuel
    | S fuel' =>
        match generate_random_architecture
                (min_hidden_layers options) (max_hidden_layers options)
                (min_neurons_per_layer options) (max_neurons_per_layer options) g with
        | None => Raises
        | Some (architecture, g') =>
            let total_params := compute_parameters architecture in
            match first_free_bin bins bin_filled total_params with
            | Some i =>
                fill_bins fuel' options bins (architectures_list ++ [architecture])
                          (set_nth i true bin_filled) g'
            | None => fill_bins fuel' options bins architectures_list bin_filled g'
            end
        end
    end
  else Returns (architectures_list, g).

(** [np.linspace(min_parameters, max_parameters, n_architectures + 1)] *)
Definition bin_edges (options : Options) : list Q :=
  let min_parameters :=
    compute_parameters (repeat (min_neurons_per_layer options) (min_hidden_layers options)) in
  let max_parameters :=
    compute_parameters (repeat (max_neurons_per_layer options) (max_hidden_layers options)) in
  linspace (inject_Z min_parameters) (inject_Z max_parameters) (n_steps options + 1).

Definition get_random_architectures (fuel : nat) (options : Options) (g : G)
  : outcome (list (list Z) * G) :=
  let n_architectures := n_steps options in
  let bins := bin_edges options in
  let bin_filled := repeat false n_architectures in
  fill_bins fuel options bins [] bin_filled g.

End RandomArchitectures.

(* ------------------------------------------------------------------ *)
(** *** Training or loading the network of one architecture *)
(* ------------------------------------------------------------------ *)

(** The two shapes of what [get_trained_nn] returns: after training,
    [(nn_models, nn_losses_dict, device, training_time)]; from a
    checkpoint, [(nn_models, hidden_sizes, activation_fns, training_time)]. *)
Inductive trained_nn (Losses : Type) : Type :=
| Retrained (nn_models : list PinnNN.NeuralNetwork) (nn_losses_dict : Losses)
            (device : string) (training_time : R)
| Loaded (nn_models : list PinnNN.NeuralNetwork) (hidden_sizes : list Z)
         (activation_fns : list string) (training_time : R).
Arguments Retrained {Losses} _ _ _ _.
Arguments Loaded {Losses} _ _ _ _.

Section GetTrainedNN.

Import Python Training.

Context {Settings Losses Dataset Loader Preprocessed : Type}.
Variable env : Collaborators Settings Losses Dataset Loader Preprocessed.

Definition checkpoint_dir (idx_arc : nat) : string :=
  path_join ["output"; "ltp_system"; "checkpoints"; "different_architectures";
             ("architecture_" ++ str idx_arc)]%string.

Definition get_trained_nn (config : Config Settings) (preprocessed_data : Preprocessed)
    (idx_arc : nat) : result (trained_nn Losses) :=
  let device := torch_device env in
  let checkpoint_dir := checkpoint_dir idx_arc in
  do _ <- makedirs env checkpoint_dir;
  let train_data := train_data env preprocessed_data in
  do val_loader <- DataLoader env (val_data env preprocessed_data)
                              (batch_size (nn_model config));
  if RETRAIN_MODEL (nn_model config) then
    do (nn_models, nn_losses_dict, training_time) <-
       get_trained_bootstraped_models env (nn_model config) (plotting config)
         preprocessed_data checkpoint_dir device val_loader train_data None;
    Ok (Retrained nn_models nn_losses_dict device training_time)
  else
    except_FileNotFoundError
      (do checkpoint <- load_checkpoints env (nn_model config) checkpoint_dir;
       Ok (Loaded (loaded_models checkpoint) (loaded_hidden_sizes checkpoint)
                  (loaded_activation_fns checkpoint) (loaded_training_time checkpoint)))
      (Raise (ValueError checkpoint_not_found)).

End GetTrainedNN.


(* ------------------------------------------------------------------ *)
(** *** The results table of the architecture sweep *)
(* ------------------------------------------------------------------ *)

(** One entry of [results]:
    [(params, mape_nn, mape_uncertainty_nn, mape_proj, rmse_nn, rmse_proj,
      training_time)]. *)
Definition result_row : Type := (Z * R * R * R * R * R * R)%type.

Import Pandas.

(** [zip( *results)] unpacked into seven names: the seven columns of
    [results]; with no result there is nothing to unpack, and the
    assignment raises [ValueError]. *)
Definition unzip_results (results : list result_row)
  : option (list Z * list R * list R * list R * list R * list R * list R) :=
  match results with
  | [] => None
  | _ =>
      Some (map (fun '(a, _, _, _, _, _, _) => a) results,
            map (fun '(_, b, _, _, _, _, _) => b) results,
            map (fun '(_, _, c, _, _, _, _) => c) results,
            map (fun '(_, _, _, d, _, _, _) => d) results,
            map (fun '(_, _, _, _, e, _, _) => e) results,
            map (fun '(_, _, _, _, _, f, _) => f) results,
            map (fun '(_, _, _, _, _, _, t) => t) results)
  end.

Section Sweep.

(** The body of the loop over the architectures (train or load the
    ensemble, evaluate it, evaluate its projection, count parameters),
    for architecture number [idx] with the given hidden sizes. *)
Variable evaluate_architecture : nat -> list Z -> option result_row.

(** [pd.read_csv(path)] *)
Variable read_csv : string -> option DataFrame.

Definition results_file_path : string :=
  "output/ltp_system/checkpoints/different_architectures/results.csv".

(** [run_experiment_6a] from the list of architectures on: the data
    frame returned, and the file written to [results.csv] when
    [options['RETRAIN_MODEL']] is set. *)
Definition run_experiment_6a (RETRAIN_MODEL : bool)
    (random_architectures_list : list (list Z))
  : option (DataFrame * option CsvFile) :=
  if RETRAIN_MODEL then
    let* results :=
      mapM (fun '(idx, hidden_sizes) => evaluate_architecture idx hidden_sizes)
           (enumerate random_architectures_list) in
    let* (params, mapes_nn, mape_uncertainties_nn, mapes_proj, rmses_nn, rmses_proj, times) :=
      unzip_results results in
    let data := PyDict.of_items
      [("architectures", map IntList random_architectures_list);
       ("num_params", map Int params);
       ("mapes_nn", map Float mapes_nn);
       ("uncertanties_mape_nn", map Float mape_uncertainties_nn);
       ("mapes_proj", map Float mapes_proj);
       ("rmses_nn", map Float rmses_nn);
       ("rmses_proj", map Float rmses_proj);
       ("model_training_time", map Float times)]%string in
    let* df := from_columns data in
    let* df := sort_values "num_params" df in
    Some (df, Some (to_csv false df))
  else
    let* df := read_csv results_file_path in
    Some (df, None).

End Sweep.


End Figure_6a.

(* ================================================================== *)
(** ** [main_ltp_system.py]: checkpoints and the compliance table *)
(* ================================================================== *)

Module Main.
Import Tensor Python Training PyDict Pandas.

Section Checkpoints.

Context {Settings Losses Dataset Loader Preprocessed : Type}.
Variable env : Collaborators Settings Losses Dataset Loader Preprocessed.

Definition get_trained_nn (config : Config Settings) (data_preprocessing_info : Preprocessed)
    (training_file : string) (dataset_size : nat)
  : result (list PinnNN.NeuralNetwork * Losses * string) :=
  let device := torch_device env in
  let checkpoint_dir := path_join ["output"; "ltp_system"; "checkpoints"; "nn"]%string in
  do _ <- makedirs env checkpoint_dir;
  do temp_file <- select_random_rows env training_file dataset_size;
  do temp_dataset <- load_dataset env config temp_file;
  do (train_data, _, val_data) <-
     setup_dataset_with_preproprocessing_info env
       (DataPrep.x temp_dataset) (DataPrep.y temp_dataset) data_preprocessing_info;
  do val_loader <- DataLoader env val_data (batch_size (nn_model config));
  if RETRAIN_MODEL (nn_model config) then
    do (nn_models, nn_losses_dict, _) <-
       get_trained_bootstraped_models env (nn_model config) (plotting config)
         data_preprocessing_info checkpoint_dir device val_loader train_data
         (Some "default"%string);
    Ok (nn_models, nn_losses_dict, device)
  else
    do (nn_models, nn_losses_dict) <-
       except_FileNotFoundError
         (do checkpoint <- load_checkpoints env (nn_model config) checkpoint_dir;
          if losses_incomplete env (loaded_losses checkpoint) then
            do (nn_models, nn_losses_dict, _) <-
               get_trained_bootstraped_models env (nn_model config) (plotting config)
                 data_preprocessing_info checkpoint_dir device val_loader train_data
                 (Some "default"%string);
            Ok (nn_models, nn_losses_dict)
          else Ok (loaded_models checkpoint, loaded_losses checkpoint))
         (Raise (ValueError checkpoint_not_found));
    Ok (nn_models, nn_losses_dict, device).

Definition get_trained_pinn (config : Config Settings)
    (data_preprocessing_info : Preprocessed) (training_file : string) (dataset_size : nat)
  : result (list PinnNN.NeuralNetwork * Losses * string) :=
  let device := torch_device env in
  let checkpoint_dir := path_join ["output"; "ltp_system"; "checkpoints"; "pinn"]%string in
  do _ <- makedirs env checkpoint_dir;
  do temp_file <- select_random_rows env training_file dataset_size;
  do temp_dataset <- load_dataset env config temp_file;
  do (train_data, _, val_data) <-
     setup_dataset_with_preproprocessing_info env
       (DataPrep.x temp_dataset) (DataPrep.y temp_dataset) data_preprocessing_info;
  do val_loader <- DataLoader env val_data (batch_size (pinn_model config));
  if RETRAIN_MODEL (pinn_model config) then
    do (pinn_models, pinn_losses_dict, _) <-
       get_trained_bootstraped_models env (pinn_model config) (plotting config)
         data_preprocessing_info checkpoint_dir device val_loader train_data
         (Some "default"%string);
    Ok (pinn_models, pinn_losses_dict, device)
  else
    do (pinn_models, pinn_losses_dict) <-
       except_FileNotFoundError
         (do checkpoint <- load_checkpoints env (pinn_model config) checkpoint_dir;
          if losses_incomplete env (loaded_losses checkpoint) then
            do (pinn_models, pinn_losses_dict, _) <-
               get_trained_bootstraped_models env (pinn_model config) (plotting config)
                 data_preprocessing_info checkpoint_dir device val_loader train_data
                 (Some "default"%string);
            Ok (pinn_models, pinn_losses_dict)
          else Ok (loaded_models checkpoint, loaded_losses checkpoint))
         (Raise (ValueError checkpoint_not_found));
    Ok (pinn_models, pinn_losses_dict, device).

End Checkpoints.

(** [torch.eye(n)] *)
Definition eye (n : nat) : matrix :=
  map (fun i => map (fun j => if Nat.eqb i j then 1%R else 0%R) (seq 0 n)) (seq 0 n).

Section LawsDict.

Context {Preprocessed : Type}.

(** The two functions of [src.ltp_system.projection] that compute the
    compliance errors; each returns a dictionary from model names to
    dictionaries from law names to errors. *)
Variable compute_mape_physical_laws :
  string -> Preprocessed -> list PinnNN.NeuralNetwork -> matrix -> string -> dict (dict R).
Variable compute_mape_physical_laws_loki :
  string -> Preprocessed -> matrix -> dict (dict R).

(** What [get_laws_dict] returns and what it writes to
    [physical_compliance_errors.csv]; [nn_laws_dict['nn_model']] raises
    [KeyError] when the key is missing. *)
Definition get_laws_dict (file_name : string) (preprocessed_data : Preprocessed)
    (nn_models pinn_models : list PinnNN.NeuralNetwork)
  : option (dict (dict R) * CsvFile) :=
  let nn_laws_dict :=
    compute_mape_physical_laws file_name preprocessed_data nn_models (eye 17)
                               "nn_model"%string in
  let pinn_laws_dict :=
    compute_mape_physical_laws file_name preprocessed_data pinn_models (eye 17)
                               "pinn_model"%string in
  let loki_laws_dict :=
    compute_mape_physical_laws_loki file_name preprocessed_data (eye 17) in
  let laws_dict := of_items (nn_laws_dict ++ pinn_laws_dict ++ loki_laws_dict) in
  match get "nn_model" nn_laws_dict with
  | None => None
  | Some nn_errors =>
      let keys := keys nn_errors in
      let df := from_nested laws_dict keys in
      Some (laws_dict, to_csv true df)
  end.

End LawsDict.

End Main.

(* ================================================================== *)
(** ** [src/ltp_system/plotter/Figure_6a.py]: what the figures show *)
(* ================================================================== *)

Module Figure_6a_Plots.
Import Figure_6a Pandas.

(** What [plot_histogram_with_params] hands to matplotlib: the positions
    of the two dashed lines ([min_parameters], [max_parameters]) and the
    values of the histogram ([params_list]).  Drawing and saving the
    figure are effects outside the model. *)
Definition plot_histogram_with_params (architectures : list (list Z)) (options : Options)
  : Z * Z * list Z :=
  let min_parameters :=
    compute_parameters (repeat (min_neurons_per_layer options) (min_hidden_layers options)) in
  let max_parameters :=
    compute_parameters (repeat (max_neurons_per_layer options) (max_hidden_layers options)) in
  let params_list := map compute_parameters architectures in
  (min_parameters, max_parameters, params_list).

(** [df[name]] for a frame whose column names are distinct: the column's
    values, or [KeyError]. *)
Definition getitem (name : string) (df : DataFrame) : option (list cell) :=
  match position name (columns df) with
  | None => None
  | Some j => Some (map (fun row => nth j row NaN) (rows df))
  end.

(** A line of a figure: [plt.plot(x, y, label=...)]. *)
Record Line : Type := {
  line_x : list cell;
  line_y : list cell;
  line_label : string
}.

(** What [Figure_6a] plots from the results frame: the two lines of the
    MAPE figure, then the two lines of the RMSE figure; a column the
    frame lacks raises [KeyError].  Axis labels, colours and the saving
    of the figures are outside the model. *)
Definition Figure_6a (df : DataFrame) : option (list Line * list Line) :=
  let* x1 := getitem "num_params" df in
  let* y1 := getitem "mapes_nn" df in
  let* x2 := getitem "num_params" df in
  let* y2 := getitem "mapes_proj" df in
  let* x3 := getitem "num_params" df in
  let* y3 := getitem "rmses_nn" df in
  let* x4 := getitem "num_params" df in
  let* y4 := getitem "rmses_proj" df in
  Some ([ {| line_x := x1; line_y := y1; line_label := "MAPE NN" |};
          {| line_x := x2; line_y := y2; line_label := "MAPE Projection" |} ],
        [ {| line_x := x3; line_y := y3; line_label := "RMSE NN" |};
          {| line_x := x4; line_y := y4; line_label := "RMSE Projection" |} ]).

End Figure_6a_Plots.

(* ================================================================== *)
(** ** [src/ltp_system/plotter/Figure_6a.py]: the configuration of a run *)
(* ================================================================== *)

Module Figure_6a_Config.
Import Figure_6a.
Local Open Scope string_scope.

Local Unset Elimination Schemes.

(** The values of a configuration read from YAML, and of [options]. *)
Inductive value : Type :=
| PyNone
| PyBool (b : bool)
| PyInt (z : Z)
| PyFloat (r : R)
| PyStr (s : string)
| PyList (l : list value)
| Dict (items : PyDict.dict value).

Local Set Elimination Schemes.

(** [v[k]] for a string [k]: [KeyError] on a dictionary without the
    key, [TypeError] on a value that is no dictionary. *)
Definition getitem (k : string) (v : value) : option value :=
  match v with
  | Dict items => PyDict.get k items
  | _ => None
  end.

(** [v[a][b]] *)
Definition getitem2 (a b : string) (v : value) : option value :=
  let* inner := getitem a v in getitem b inner.

(** [generate_config_]: the expressions of the dictionary display are
    evaluated in the order they are written in. *)
Definition generate_config_ (config hidden_sizes activation_fns options : value)
  : option value :=
  let* dataset_generation := getitem "dataset_generation" config in
  let* RETRAIN_MODEL := getitem "RETRAIN_MODEL" options in
  let* num_epochs := getitem "num_epochs" options in
  let* learning_rate := getitem2 "nn_model" "learning_rate" config in
  let* batch_size := getitem2 "nn_model" "batch_size" config in
  let* training_threshold := getitem2 "nn_model" "training_threshold" config in
  let* n_bootstrap_models := getitem "n_bootstrap_models" options in
  let* lambda_physics := getitem2 "nn_model" "lambda_physics" config in
  let* output_dir := getitem2 "plotting" "output_dir" config in
  let* PRINT_LOSS_VALUES := getitem "PRINT_LOSS_VALUES" options in
  let* palette := getitem2 "plotting" "palette" config in
  let* barplot_palette := getitem2 "plotting" "output_dir" config in
  Some (Dict (PyDict.of_items
    [("dataset_generation", dataset_generation);
     ("data_prep", Dict (PyDict.of_items
        [("fraction_train", PyFloat (8 / 10));
         ("fraction_val", PyFloat (1 / 10));
         ("fraction_test", PyFloat (1 / 10));
         ("skew_threshold_down", PyInt 0);
         ("skew_threshold_up", PyInt 3)]));
     ("nn_model", Dict (PyDict.of_items
        [("RETRAIN_MODEL", RETRAIN_MODEL);
         ("hidden_sizes", hidden_sizes);
         ("activation_fns", activation_fns);
         ("num_epochs", num_epochs);
         ("learning_rate", learning_rate);
         ("batch_size", batch_size);
         ("training_threshold", training_threshold);
         ("n_bootstrap_models", n_bootstrap_models);
         ("lambda_physics", lambda_physics)]));
     ("plotting", Dict (PyDict.of_items
        [("output_dir", output_dir);
         ("PLOT_LOSS_CURVES", PyBool false);
         ("PRINT_LOSS_VALUES", PRINT_LOSS_VALUES);
         ("palette", palette);
         ("barplot_palette", barplot_palette)]))])).

End Figure_6a_Config.

(* ================================================================== *)
(** ** [src/ltp_system/plotter/Figure_6a.py]: the body of the sweep's loop *)
(* ================================================================== *)

Module Figure_6a_Loop.
Import Tensor DataPrep Figure_6a.

Section Body.

(** [generate_config_] and [get_trained_nn] for architecture number
    [idx]: the models of the ensemble and the training time, or an
    exception. *)
Variable trained_ensemble : nat -> list Z -> option (list PinnNN.NeuralNetwork * R).

(** What [run_experiment_6a] has computed before the loop, the
    constraint and the backend of the projection, and
    [options['w_matrix']]. *)
Variable inverse : matrix -> option matrix.
Variable constraint_p_i_ne : Projection.Constraint.
Variables normalized_inputs normalized_targets : matrix.
Variable preprocessed_data : DataPreprocessor.
Variable w_matrix : matrix.

(** One round of the loop over the architectures: the entry appended to
    [results]. *)
Definition evaluate_architecture (idx : nat) (hidden_sizes : list Z)
  : option result_row :=
  let* (nn_models, training_time) := trained_ensemble idx hidden_sizes in
  let* (mape_nn, mape_uncertainty_nn, normalized_model_predictions, rmse_nn) :=
    evaluate_model nn_models normalized_inputs normalized_targets in
  let* (mape_proj, rmse_proj) :=
    evaluate_projection inverse normalized_model_predictions normalized_targets
      normalized_inputs preprocessed_data constraint_p_i_ne w_matrix in
  let params := compute_parameters hidden_sizes in
  Some (params, mape_nn, mape_uncertainty_nn, mape_proj, rmse_nn, rmse_proj,
        training_time).

End Body.

End Figure_6a_Loop.

(* ================================================================== *)
(** ** The metrics as the specification words them *)
(* ================================================================== *)

Module Spec.
Import Tensor.
Local Open Scope R_scope.

(** The (target, value) pairs of two arrays of one shape, entry by entry. *)
Definition entries (targets values : matrix) : list (R * R) :=
  combine (flatten targets) (flatten values).

Definition target_non_zero (tv : R * R) : bool :=
  if Req_dec_T (fst tv) 0 then false else true.

(** "mean of |pred - target| / |target| over samples and dimensions where
    target <> 0". *)
Definition mape_over_non_zero_targets (targets predictions : matrix) : R :=
  average (map (fun '(t, p) => Rabs (p - t) / Rabs t)
               (filter target_non_zero (entries targets predictions))).

(** The mean of [|pred - target| / max(|target|, eps)] over every entry. *)
Definition mape_over_all_entries (targets predictions : matrix) : R :=
  average (map (fun '(t, p) => Rabs (p - t) / Rmax (Rabs t) Sklearn.epsilon)
               (entries targets predictions)).

(** "sqrt(mean((pred - target)^2)) over all samples and dimensions". *)
Definition rmse_over_all_entries (targets predictions : matrix) : R :=
  sqrt (average (map (fun '(t, p) => (p - t) ^ 2) (entries targets predictions))).

(** "sqrt(sum((sigma_i/t_i)^2 for non-zero t_i)) / n", [n] the number of
    samples. *)
Definition mape_uncertainty (targets uncertainties : matrix) : R :=
  sqrt (Rsum (map (fun '(t, s) => (s / t) ^ 2)
                  (filter target_non_zero (entries targets uncertainties))))
  / INR (length targets).

End Spec.

(* ================================================================== *)
(** ** Facts about sums, columns and averages *)
(* ================================================================== *)

Module TensorFacts.
Import Tensor.
Local Open Scope R_scope.

Lemma Rsum_app (xs ys : vec) : Rsum (xs ++ ys) = Rsum xs + Rsum ys.
Proof.
  induction xs as [|x xs IH]; simpl.
  - ring.
  - rewrite IH. ring.
Qed.

Lemma Rsum_map_plus {A : Type} (f g : A -> R) (l : list A) :
  Rsum (map (fun a => f a + g a) l) = Rsum (map f l) + Rsum (map g l).
Proof.
  induction l as [|a l IH]; simpl.
  - ring.
  - rewrite IH. ring.
Qed.

Lemma Rsum_map_scale {A : Type} (f : A -> R) (c : R) (l : list A) :
  Rsum (map (fun a => f a * c) l) = Rsum (map f l) * c.
Proof.
  induction l as [|a l IH]; simpl.
  - ring.
  - rewrite IH. ring.
Qed.

Lemma Rsum_map_ext {A : Type} (f g : A -> R) (l : list A) :
  (forall a, In a l -> f a = g a) -> Rsum (map f l) = Rsum (map g l).
Proof.
  intros H. f_equal. apply map_ext_in. exact H.
Qed.

Lemma Rsum_zeros (d : nat) : Rsum (zeros d) = 0.
Proof.
  induction d as [|d IH]; simpl.
  - reflexivity.
  - unfold zeros in IH. rewrite IH. ring.
Qed.

(** Reading a row by index, entry after entry, gives the row back. *)
Lemma map_nth_seq (row : vec) :
  map (fun j => nth j row 0) (seq 0 (length row)) = row.
Proof.
  induction row as [|x row IH]; simpl.
  - reflexivity.
  - f_equal. rewrite <- seq_shift, map_map. exact IH.
Qed.

Lemma Rsum_nth_seq (row : vec) (d : nat) :
  length row = d -> Rsum (map (fun j => nth j row 0) (seq 0 d)) = Rsum row.
Proof.
  intros <-. now rewrite map_nth_seq.
Qed.

(** Summing column by column or row by row visits the same entries. *)
Lemma Rsum_columns (d : nat) (M : matrix) :
  Forall (fun row => length row = d) M ->
  Rsum (map (fun j => Rsum (column j M)) (seq 0 d)) = Rsum (flatten M).
Proof.
  induction 1 as [|row M Hrow _ IH]; simpl.
  - clear. induction (seq 0 d) as [|j l IH]; simpl; [reflexivity | rewrite IH; ring].
  - rewrite Rsum_app, <- IH, <- (Rsum_nth_seq row d Hrow).
    apply (Rsum_map_plus (fun j => nth j row 0) (fun j => Rsum (column j M))).
Qed.

Lemma length_column (j : nat) (M : matrix) : length (column j M) = length M.
Proof. apply length_map. Qed.

Lemma length_flatten (n d : nat) (M : matrix) :
  rectangular n d M -> length (flatten M) = (n * d)%nat.
Proof.
  intros [<- Hrows]. unfold flatten.
  induction Hrows as [|row M Hrow _ IH]; simpl.
  - reflexivity.
  - rewrite length_app, IH, Hrow. reflexivity.
Qed.

Lemma ncols_rectangular (n d : nat) (M : matrix) :
  (1 <= n)%nat -> rectangular n d M -> ncols M = d.
Proof.
  intros Hn [Hlen Hrows]. destruct Hrows as [|row M Hrow _]; simpl in *.
  - lia.
  - exact Hrow.
Qed.

(** The average of the per-column averages of a full [n] x [d] array is
    the average of all its [n * d] entries. *)
Lemma average_axis0_flatten (n d : nat) (M : matrix) :
  (1 <= n)%nat -> (1 <= d)%nat -> rectangular n d M ->
  average (average_axis0 M) = average (flatten M).
Proof.
  intros Hn Hd HM.
  unfold average, average_axis0.
  rewrite (ncols_rectangular n d M Hn HM), length_map, length_seq.
  rewrite (length_flatten n d M HM), mult_INR.
  destruct HM as [Hlen Hrows].
  rewrite (Rsum_map_ext _ (fun j => Rsum (column j M) * / INR n)).
  2:{ intros j _. unfold average. now rewrite length_column, Hlen. }
  rewrite Rsum_map_scale, (Rsum_columns d M Hrows).
  assert (INR n <> 0) by (apply not_0_INR; lia).
  assert (INR d <> 0) by (apply not_0_INR; lia).
  field. split; assumption.
Qed.

Lemma map2_length {A B C : Type} (f : A -> B -> C) (xs : list A) (ys : list B) :
  length xs = length ys -> length (map2 f xs ys) = length xs.
Proof.
  intros H. unfold map2. rewrite length_map, length_combine. lia.
Qed.

Lemma elementwise_rectangular (f : R -> R -> R) (n d : nat) (A B : matrix) :
  rectangular n d A -> rectangular n d B -> rectangular n d (elementwise f A B).
Proof.
  intros [HlA HA] [HlB HB]. split.
  - unfold elementwise. rewrite map2_length; [exact HlA | exact (eq_trans HlA (eq_sym HlB))].
  - clear HlA HlB. revert B HB.
    induction HA as [|ra A Hra _ IH]; intros B HB; [constructor|].
    destruct HB as [|rb B Hrb HB]; [constructor|].
    unfold elementwise, map2 in *. simpl. constructor.
    + rewrite length_map, length_combine. lia.
    + apply IH, HB.
Qed.

Lemma check_reg_targets_rectangular (n d : nat) (A B : matrix) :
  (1 <= n)%nat -> (1 <= d)%nat -> rectangular n d A -> rectangular n d B ->
  Sklearn.check_reg_targets A B = true.
Proof.
  intros Hn Hd HA HB. unfold Sklearn.check_reg_targets.
  rewrite (ncols_rectangular n d A Hn HA), (ncols_rectangular n d B Hn HB).
  destruct HA as [-> _], HB as [-> _].
  rewrite !andb_true_iff, !Nat.leb_le, !Nat.eqb_eq. lia.
Qed.

End TensorFacts.

(* ================================================================== *)
(** ** Lists read and updated by index *)
(* ================================================================== *)

Module ListUpdate.
Import Figure_6a.

Lemma length_set_nth {A : Type} (i : nat) (v : A) (l : list A) :
  length (set_nth i v l) = length l.
Proof.
  revert i. induction l as [|a l IH]; intros [|i]; simpl; auto.
Qed.

Lemma nth_set_nth_same {A : Type} (i : nat) (v d : A) (l : list A) :
  (i < length l)%nat -> nth i (set_nth i v l) d = v.
Proof.
  revert i. induction l as [|a l IH]; intros [|i] Hi; simpl in *; try lia.
  - reflexivity.
  - apply IH. lia.
Qed.

Lemma nth_set_nth_other {A : Type} (i j : nat) (v d : A) (l : list A) :
  i <> j -> nth j (set_nth i v l) d = nth j l d.
Proof.
  revert i j. induction l as [|a l IH]; intros [|i] [|j] Hij; simpl; auto.
  - contradiction.
Qed.

Lemma nth_map_seq {A : Type} (f : nat -> A) (n i : nat) (d : A) :
  (i < n)%nat -> nth i (map f (seq 0 n)) d = f i.
Proof.
  intros Hi.
  rewrite (nth_indep _ d (f 0%nat)) by (rewrite length_map, length_seq; lia).
  rewrite (map_nth f (seq 0 n) 0%nat i). now rewrite seq_nth.
Qed.

End ListUpdate.

(* ================================================================== *)
(** ** The library metrics, entry by entry *)
(* ================================================================== *)

Module MetricFacts.
Import Tensor TensorFacts.
Local Open Scope R_scope.

Lemma combine_app {A B : Type} (a1 a2 : list A) (b1 b2 : list B) :
  length a1 = length b1 ->
  combine (a1 ++ a2) (b1 ++ b2) = combine a1 b1 ++ combine a2 b2.
Proof.
  revert b1. induction a1 as [|a a1 IH]; intros [|b b1] H; simpl in *; try discriminate.
  - reflexivity.
  - f_equal. apply IH. now injection H.
Qed.

(** Two arrays of one shape have rows of equal lengths, pairwise. *)
Lemma rectangular_rows (n d : nat) (A B : matrix) :
  rectangular n d A -> rectangular n d B ->
  Forall2 (fun ra rb : vec => length ra = length rb) A B.
Proof.
  intros [HlA HA] [HlB HB]. subst n. revert B HlB HB.
  induction HA as [|ra A Hra _ IH]; intros [|rb B] HlB HB; simpl in *; try discriminate.
  - constructor.
  - inversion HB; subst. constructor.
    + congruence.
    + apply IH; [now injection HlB | assumption].
Qed.

(** An elementwise operation, read off the flattened arrays. *)
Lemma flatten_elementwise (f : R -> R -> R) (A B : matrix) :
  Forall2 (fun ra rb : vec => length ra = length rb) A B ->
  flatten (elementwise f A B) = map (fun '(a, b) => f a b) (Spec.entries A B).
Proof.
  unfold Spec.entries, flatten, elementwise, map2.
  induction 1 as [|ra rb A B Hlen _ IH]; simpl.
  - reflexivity.
  - rewrite IH, (combine_app ra (concat A) rb (concat B) Hlen), map_app.
    f_equal. apply map_ext. now intros [a b].
Qed.

Lemma mean_squared_error_entries (n d : nat) (T P : matrix) :
  (1 <= n)%nat -> (1 <= d)%nat -> rectangular n d T -> rectangular n d P ->
  Sklearn.mean_squared_error T P =
  Some (average (map (fun '(t, p) => (p - t) ^ 2) (Spec.entries T P))).
Proof.
  intros Hn Hd HT HP. unfold Sklearn.mean_squared_error.
  rewrite (check_reg_targets_rectangular n d T P Hn Hd HT HP).
  rewrite (average_axis0_flatten n d _ Hn Hd (elementwise_rectangular _ n d T P HT HP)).
  rewrite (flatten_elementwise _ T P (rectangular_rows n d T P HT HP)).
  do 2 f_equal. apply map_ext. intros [t p]. ring.
Qed.

Lemma mean_absolute_percentage_error_entries (n d : nat) (T P : matrix) :
  (1 <= n)%nat -> (1 <= d)%nat -> rectangular n d T -> rectangular n d P ->
  Sklearn.mean_absolute_percentage_error T P = Some (Spec.mape_over_all_entries T P).
Proof.
  intros Hn Hd HT HP. unfold Sklearn.mean_absolute_percentage_error.
  rewrite (check_reg_targets_rectangular n d T P Hn Hd HT HP).
  rewrite (average_axis0_flatten n d _ Hn Hd (elementwise_rectangular _ n d T P HT HP)).
  rewrite (flatten_elementwise _ T P (rectangular_rows n d T P HT HP)).
  reflexivity.
Qed.

(** The stacked projected predictions are the list that was stacked. *)
Lemma np_stack_Some (rows : list vec) (M : matrix) :
  Figure_6a.np_stack rows = Some M -> M = rows.
Proof.
  unfold Figure_6a.np_stack. destruct rows as [|first rest]; [discriminate|].
  case (forallb _ rest); [now intros [= <-] | discriminate].
Qed.

End MetricFacts.

(* ================================================================== *)
(** ** Properties of [evaluate_model] and [evaluate_projection] *)
(* ================================================================== *)

Module Evaluation.
Import Tensor TensorFacts MetricFacts.
Local Open Scope R_scope.

(** What [evaluate_model] returns once the ensemble has produced its
    mean prediction and its uncertainty, both of the targets' shape. *)
Lemma evaluate_model_returns (n d : nat) (nn_models : list PinnNN.NeuralNetwork)
    (X T P U : matrix) :
  (1 <= n)%nat -> (1 <= d)%nat -> rectangular n d T -> rectangular n d P ->
  PinnNN.get_average_predictions nn_models X = Some P ->
  PinnNN.get_predictive_uncertainty nn_models X = Some U ->
  Figure_6a.evaluate_model nn_models X T =
  Some (Spec.mape_over_all_entries T P, Figure_6a.get_mape_uncertainty T U, P,
        Spec.rmse_over_all_entries T P).
Proof.
  intros Hn Hd HT HP Havg Hunc. unfold Figure_6a.evaluate_model.
  rewrite Havg, Hunc. cbn [Figure_6a.bind].
  rewrite (mean_absolute_percentage_error_entries n d T P Hn Hd HT HP).
  rewrite (mean_squared_error_entries n d T P Hn Hd HT HP).
  reflexivity.
Qed.

(** What [evaluate_projection] returns once the projected predictions
    stack into an array of the targets' shape. *)
Lemma evaluate_projection_returns (n d : nat) (inverse : matrix -> option matrix)
    (P T X : matrix) (prep : DataPrep.DataPreprocessor)
    (c : Projection.Constraint) (W Pproj : matrix) (projected : list vec) :
  (1 <= n)%nat -> (1 <= d)%nat -> rectangular n d T -> rectangular n d Pproj ->
  Projection.get_average_predictions_projected inverse P X prep c W = Some projected ->
  Figure_6a.np_stack projected = Some Pproj ->
  Figure_6a.evaluate_projection inverse P T X prep c W =
  Some (Spec.mape_over_all_entries T Pproj, Spec.rmse_over_all_entries T Pproj).
Proof.
  intros Hn Hd HT HP Hproj Hstack. unfold Figure_6a.evaluate_projection.
  rewrite Hproj. cbn [Figure_6a.bind]. rewrite Hstack. cbn [Figure_6a.bind].
  rewrite (mean_absolute_percentage_error_entries n d T Pproj Hn Hd HT HP).
  rewrite (mean_squared_error_entries n d T Pproj Hn Hd HT HP).
  reflexivity.
Qed.

(** C5.  For targets and predictions of one shape, [n] samples by [d]
    output dimensions, the RMSE returned by [evaluate_model] and by
    [evaluate_projection] is the square root of the mean of
    [(pred - target)^2] over all [n * d] entries: no entry is left out,
    whatever its target. *)
Theorem rmse_covers_all_entries (n d : nat) (T : matrix) :
  (1 <= n)%nat -> (1 <= d)%nat -> rectangular n d T ->
  (forall nn_models X P U,
      rectangular n d P ->
      PinnNN.get_average_predictions nn_models X = Some P ->
      PinnNN.get_predictive_uncertainty nn_models X = Some U ->
      exists mape mape_uncertainty,
        Figure_6a.evaluate_model nn_models X T =
        Some (mape, mape_uncertainty, P, Spec.rmse_over_all_entries T P))
  /\
  (forall inverse P X prep c W projected Pproj,
      rectangular n d Pproj ->
      Projection.get_average_predictions_projected inverse P X prep c W = Some projected ->
      Figure_6a.np_stack projected = Some Pproj ->
      exists mape,
        Figure_6a.evaluate_projection inverse P T X prep c W =
        Some (mape, Spec.rmse_over_all_entries T Pproj)).
Proof.
  intros Hn Hd HT. split.
  - intros nn_models X P U HP Havg Hunc.
    exists (Spec.mape_over_all_entries T P), (Figure_6a.get_mape_uncertainty T U).
    now apply (evaluate_model_returns n d).
  - intros inverse P X prep c W projected Pproj HP Hproj Hstack.
    exists (Spec.mape_over_all_entries T Pproj).
    now apply (evaluate_projection_returns n d inverse P T X prep c W Pproj projected).
Qed.

End Evaluation.

Module EvaluationCases.
Import Tensor TensorFacts MetricFacts Evaluation.
Local Open Scope R_scope.

Lemma rmse_covers_all_entries_witness :
  exists mape mape_uncertainty P,
    Figure_6a.evaluate_model [fun _ => [[1; 2]]] [[0]] [[1; 3]] =
    Some (mape, mape_uncertainty, P, Spec.rmse_over_all_entries [[1; 3]] P).
Proof.
  destruct (rmse_covers_all_entries 1 2 [[1; 3]]) as [Hmodel _].
  - lia.
  - lia.
  - split; [reflexivity | repeat constructor].
  - assert (Hshape : rectangular 1 2
              (PinnNN.across_models average (PinnNN.stack [fun _ => [[1; 2]]] [[0]])))
      by (split; [reflexivity | repeat constructor]).
    destruct (Hmodel [fun _ => [[1; 2]]] [[0]] _ _ Hshape eq_refl eq_refl)
      as (mape & mape_uncertainty & Hrun).
    exists mape, mape_uncertainty. eexists. exact Hrun.
Defined.

Lemma epsilon_bounds : 0 < Sklearn.epsilon < 1.
Proof.
  unfold Sklearn.epsilon.
  assert (Hpow : 2 ^ 52 = IZR (2 ^ 52)) by (rewrite pow_IZR; reflexivity).
  rewrite Hpow.
  assert (1 < IZR (2 ^ 52)) by (apply IZR_lt; reflexivity).
  split.
  - apply Rinv_0_lt_compat. lra.
  - rewrite <- Rinv_1. apply Rinv_lt_contravar; lra.
Qed.

Lemma average_singleton (v : R) : average [v] = v.
Proof. unfold average. simpl. field. Qed.

(** A one-model ensemble predicts what its model predicts. *)
Lemma single_model_row3 (a b c : R) (X : matrix) :
  PinnNN.get_average_predictions [fun _ => [[a; b; c]]] X = Some [[a; b; c]].
Proof.
  unfold PinnNN.get_average_predictions, PinnNN.across_models, PinnNN.stack.
  simpl. now rewrite !average_singleton.
Qed.

(** The library's percentage error on the specification's example, for
    any prediction [a >= 0] at the zero target: the entry stays in the
    mean, with denominator [epsilon]. *)
Lemma mape_example_value (a : R) :
  0 <= a ->
  Spec.mape_over_all_entries [[0; 2; 4]] [[a; 22 / 10; 44 / 10]] =
  (a / Sklearn.epsilon + 1 / 10 + 1 / 10) / 3.
Proof.
  intros Ha. pose proof epsilon_bounds as [Hlo Hhi].
  unfold Spec.mape_over_all_entries, Spec.entries, average. simpl.
  replace (Rabs (a - 0)) with a by (rewrite Rabs_pos_eq; lra).
  replace (Rabs (22 / 10 - 2)) with (2 / 10) by (rewrite Rabs_pos_eq; lra).
  replace (Rabs (44 / 10 - 4)) with (4 / 10) by (rewrite Rabs_pos_eq; lra).
  rewrite Rabs_R0, (Rabs_pos_eq 2), (Rabs_pos_eq 4) by lra.
  rewrite (Rmax_right 0), (Rmax_left 2), (Rmax_left 4) by lra.
  field. lra.
Qed.

Lemma over_epsilon_grows (a : R) : 0 < a -> a < a / Sklearn.epsilon.
Proof.
  intros Ha. pose proof epsilon_bounds as [Hlo Hhi].
  apply (Rmult_lt_reg_r Sklearn.epsilon); [exact Hlo|].
  unfold Rdiv. rewrite Rmult_assoc, Rinv_l by lra. nra.
Qed.

Lemma mape_example_large :
  1 < Spec.mape_over_all_entries [[0; 2; 4]] [[5; 22 / 10; 44 / 10]].
Proof.
  rewrite mape_example_value by lra.
  pose proof (over_epsilon_grows 5). lra.
Qed.

Lemma mape_example_as_specified :
  Spec.mape_over_non_zero_targets [[0; 2; 4]] [[5; 22 / 10; 44 / 10]] = 1 / 10.
Proof.
  unfold Spec.mape_over_non_zero_targets, Spec.entries, Spec.target_non_zero, average.
  simpl.
  destruct (Req_dec_T 0 0) as [_|H]; [|now contradiction H].
  destruct (Req_dec_T 2 0) as [H|_]; [lra|].
  destruct (Req_dec_T 4 0) as [H|_]; [lra|].
  simpl.
  replace (Rabs (22 / 10 - 2)) with (2 / 10) by (rewrite Rabs_pos_eq; lra).
  replace (Rabs (44 / 10 - 4)) with (4 / 10) by (rewrite Rabs_pos_eq; lra).
  rewrite (Rabs_pos_eq 2), (Rabs_pos_eq 4) by lra.
  field.
Qed.

End EvaluationCases.

Module MapeClaims.
Import Tensor TensorFacts MetricFacts Evaluation EvaluationCases.
Local Open Scope R_scope.

(** C1, as amended.  For targets and predictions of one shape, [n]
    samples by [d] output dimensions, the MAPE returned by
    [evaluate_model] and by [evaluate_projection] is the mean, over all
    [n * d] entries, of [|pred - target| / max(|target|, eps)] with
    [eps = 2^-52]: an entry whose target is zero is not left out, it
    enters the mean with denominator [eps]. *)
Theorem mape_covers_all_entries (n d : nat) (T : matrix) :
  (1 <= n)%nat -> (1 <= d)%nat -> rectangular n d T ->
  (forall nn_models X P U,
      rectangular n d P ->
      PinnNN.get_average_predictions nn_models X = Some P ->
      PinnNN.get_predictive_uncertainty nn_models X = Some U ->
      exists mape_uncertainty rmse,
        Figure_6a.evaluate_model nn_models X T =
        Some (Spec.mape_over_all_entries T P, mape_uncertainty, P, rmse))
  /\
  (forall inverse P X prep c W projected Pproj,
      rectangular n d Pproj ->
      Projection.get_average_predictions_projected inverse P X prep c W = Some projected ->
      Figure_6a.np_stack projected = Some Pproj ->
      exists rmse,
        Figure_6a.evaluate_projection inverse P T X prep c W =
        Some (Spec.mape_over_all_entries T Pproj, rmse)).
Proof.
  intros Hn Hd HT. split.
  - intros nn_models X P U HP Havg Hunc.
    exists (Figure_6a.get_mape_uncertainty T U), (Spec.rmse_over_all_entries T P).
    now apply (evaluate_model_returns n d).
  - intros inverse P X prep c W projected Pproj HP Hproj Hstack.
    exists (Spec.rmse_over_all_entries T Pproj).
    now apply (evaluate_projection_returns n d inverse P T X prep c W Pproj projected).
Qed.

Lemma mape_covers_all_entries_witness :
  exists mape_uncertainty rmse,
    Figure_6a.evaluate_model [fun _ => [[5; 22 / 10; 44 / 10]]] [[0]] [[0; 2; 4]] =
    Some (Spec.mape_over_all_entries [[0; 2; 4]] [[5; 22 / 10; 44 / 10]],
          mape_uncertainty, [[5; 22 / 10; 44 / 10]], rmse).
Proof.
  destruct (mape_covers_all_entries 1 3 [[0; 2; 4]]) as [Hmodel _].
  - lia.
  - lia.
  - split; [reflexivity | repeat constructor].
  - assert (Hshape : rectangular 1 3 [[5; 22 / 10; 44 / 10]])
      by (split; [reflexivity | repeat constructor]).
    exact (Hmodel [fun _ => [[5; 22 / 10; 44 / 10]]] [[0]] _ _ Hshape
             (single_model_row3 _ _ _ _) eq_refl).
Defined.

(** C1, as stated, fails on the specification's own example: with
    targets [0, 2, 4] and predictions [5, 2.2, 4.4] the mean over the
    non-zero targets is 0.1, but [evaluate_model] returns a MAPE above 1,
    because the zero-target entry contributes [5 / eps]. *)
Lemma mape_zero_target_counterexample :
  Spec.mape_over_non_zero_targets [[0; 2; 4]] [[5; 22 / 10; 44 / 10]] = 1 / 10 /\
  exists mape mape_uncertainty rmse,
    Figure_6a.evaluate_model [fun _ => [[5; 22 / 10; 44 / 10]]] [[0]] [[0; 2; 4]] =
    Some (mape, mape_uncertainty, [[5; 22 / 10; 44 / 10]], rmse) /\
    mape = (5 / Sklearn.epsilon + 1 / 10 + 1 / 10) / 3 /\
    mape <> 1 / 10.
Proof.
  split; [exact mape_example_as_specified|].
  assert (Hshape : rectangular 1 3 [[5; 22 / 10; 44 / 10]])
    by (split; [reflexivity | repeat constructor]).
  assert (HT : rectangular 1 3 [[0; 2; 4]])
    by (split; [reflexivity | repeat constructor]).
  eexists _, _, _. split; [|split].
  - apply (evaluate_model_returns 1 3); try lia; try assumption.
    + apply single_model_row3.
    + reflexivity.
  - apply mape_example_value. lra.
  - pose proof mape_example_large. lra.
Qed.

End MapeClaims.

(* ================================================================== *)
(** ** [get_mape_uncertainty]: the loop over samples *)
(* ================================================================== *)

Module MapeUncertainty.
Import Tensor TensorFacts MetricFacts.
Local Open Scope R_scope.

(** The accumulator of the loop is the sum of the per-sample terms. *)
Lemma fold_left_accumulate {A : Type} (f : A -> R) (l : list A) (acc : R) :
  fold_left (fun a i => a + f i) l acc = acc + Rsum (map f l).
Proof.
  revert acc. induction l as [|i l IH]; intros acc; simpl.
  - ring.
  - rewrite IH. ring.
Qed.

(** Visiting two lists of equal length by index is visiting them in step. *)
Lemma map_nth_seq2 {A B C : Type} (f : A -> B -> C) (da : A) (db : B)
    (la : list A) (lb : list B) :
  length la = length lb ->
  map (fun i => f (nth i la da) (nth i lb db)) (seq 0 (length la)) = map2 f la lb.
Proof.
  revert lb. induction la as [|a la IH]; intros [|b lb] H; simpl in *; try discriminate.
  - reflexivity.
  - unfold map2. simpl. f_equal.
    rewrite <- seq_shift, map_map. apply IH. now injection H.
Qed.

(** One sample's term, read off the (target, uncertainty) pairs of its row. *)
Lemma sample_term_pairs (target_row uncertainty_row : vec) :
  length target_row = length uncertainty_row ->
  Figure_6a.sample_term target_row uncertainty_row =
  Rsum (map (fun '(t, s) => (s / t) ^ 2)
            (filter Spec.target_non_zero (combine target_row uncertainty_row))).
Proof.
  unfold Figure_6a.sample_term, Figure_6a.masked_select, Figure_6a.non_zero_mask, map2.
  revert uncertainty_row.
  induction target_row as [|t ts IH]; intros [|s ss] H; simpl in *; try discriminate.
  - reflexivity.
  - injection H as H. specialize (IH ss H).
    unfold Spec.target_non_zero at 1. simpl.
    destruct (Req_dec_T t 0); simpl.
    + exact IH.
    + rewrite IH. reflexivity.
Qed.

Lemma filter_entries_cons (t u : vec) (T U : matrix) :
  length t = length u ->
  filter Spec.target_non_zero (Spec.entries (t :: T) (u :: U)) =
  filter Spec.target_non_zero (combine t u) ++
  filter Spec.target_non_zero (Spec.entries T U).
Proof.
  intros H. unfold Spec.entries, flatten. simpl.
  now rewrite (combine_app t (concat T) u (concat U) H), filter_app.
Qed.

(** The sum of the per-sample terms is the sum over all entries with a
    non-zero target. *)
Lemma sum_of_sample_terms (T U : matrix) :
  Forall2 (fun t u : vec => length t = length u) T U ->
  Rsum (map2 Figure_6a.sample_term T U) =
  Rsum (map (fun '(t, s) => (s / t) ^ 2)
            (filter Spec.target_non_zero (Spec.entries T U))).
Proof.
  induction 1 as [|t u T U Hlen _ IH].
  - reflexivity.
  - rewrite (filter_entries_cons t u T U Hlen), map_app, Rsum_app, <- IH.
    unfold map2. simpl. now rewrite (sample_term_pairs t u Hlen).
Qed.

(** C2, as amended.  For targets and uncertainties of one shape, [n]
    samples by [d] dimensions, [get_mape_uncertainty] returns the square
    root of the sum of [(sigma / t)^2] over all samples and all
    dimensions whose target is non-zero, divided by the number [n] of
    samples. *)
Theorem get_mape_uncertainty_formula (n d : nat) (T U : matrix) :
  rectangular n d T -> rectangular n d U ->
  Figure_6a.get_mape_uncertainty T U = Spec.mape_uncertainty T U.
Proof.
  intros HT HU. unfold Figure_6a.get_mape_uncertainty, Spec.mape_uncertainty.
  pose proof (rectangular_rows n d T U HT HU) as Hrows.
  assert (Hlen : length T = length U) by (destruct HT, HU; congruence).
  rewrite (fold_left_accumulate
             (fun i => Figure_6a.sample_term (nth i T []) (nth i U []))).
  rewrite (map_nth_seq2 Figure_6a.sample_term [] [] T U Hlen).
  rewrite (sum_of_sample_terms T U Hrows), Rplus_0_l.
  reflexivity.
Qed.

Lemma get_mape_uncertainty_formula_witness :
  Figure_6a.get_mape_uncertainty [[0; 2; 4]; [1; 0; 5]] [[1; 1; 1]; [2; 2; 2]] =
  Spec.mape_uncertainty [[0; 2; 4]; [1; 0; 5]] [[1; 1; 1]; [2; 2; 2]].
Proof.
  apply (get_mape_uncertainty_formula 2 3);
    (split; [reflexivity | repeat constructor]).
Defined.

End MapeUncertainty.

Module MaskClaims.
Import Tensor TensorFacts MetricFacts EvaluationCases.
Local Open Scope R_scope.

(** C2, as stated, fails in its second half: the non-zero-target mask of
    [get_mape_uncertainty] is not a mask of the MAPE computation.  On
    the targets [0, 2, 4] the mask drops the first entry, and the
    uncertainty does not see the value there; the MAPE of
    [evaluate_model] changes with the prediction at that same entry. *)
Lemma mape_mask_counterexample :
  Figure_6a.non_zero_mask [0; 2; 4] = [false; true; true] /\
  Figure_6a.get_mape_uncertainty [[0; 2; 4]] [[5; 1; 1]] =
  Figure_6a.get_mape_uncertainty [[0; 2; 4]] [[6; 1; 1]] /\
  Sklearn.mean_absolute_percentage_error [[0; 2; 4]] [[5; 22 / 10; 44 / 10]] <>
  Sklearn.mean_absolute_percentage_error [[0; 2; 4]] [[6; 22 / 10; 44 / 10]].
Proof.
  assert (Hmask : Figure_6a.non_zero_mask [0; 2; 4] = [false; true; true]).
  { unfold Figure_6a.non_zero_mask. simpl.
    destruct (Req_dec_T 0 0) as [_|H]; [|now contradiction H].
    destruct (Req_dec_T 2 0) as [H|_]; [lra|].
    destruct (Req_dec_T 4 0) as [H|_]; [lra|].
    reflexivity. }
  split; [exact Hmask|]. split.
  - unfold Figure_6a.get_mape_uncertainty, Figure_6a.sample_term.
    cbn [length seq fold_left nth]. rewrite Hmask. reflexivity.
  - assert (HT : rectangular 1 3 [[0; 2; 4]])
      by (split; [reflexivity | repeat constructor]).
    rewrite (mean_absolute_percentage_error_entries 1 3 _ [[5; 22 / 10; 44 / 10]]),
            (mean_absolute_percentage_error_entries 1 3 _ [[6; 22 / 10; 44 / 10]]);
      try lia; try assumption; try (split; [reflexivity | repeat constructor]).
    rewrite !mape_example_value by lra.
    pose proof epsilon_bounds as [Hlo Hhi].
    intros [= Heq].
    assert (Hdiff : 6 / Sklearn.epsilon - 5 / Sklearn.epsilon = / Sklearn.epsilon)
      by (field; lra).
    assert (0 < / Sklearn.epsilon) by (apply Rinv_0_lt_compat; lra).
    lra.
Qed.

End MaskClaims.

(* ================================================================== *)
(** ** [compute_parameters] *)
(* ================================================================== *)

Module ParameterCount.
Import Figure_6a.
Local Open Scope Z_scope.

(** The sum of the products of consecutive widths of a layer list. *)
Fixpoint consecutive_products (widths : list Z) : Z :=
  match widths with
  | a :: (b :: _) as rest => a * b + consecutive_products rest
  | _ => 0
  end.

(** The parameters of a fully connected network with a bias on every
    neuron past the input layer. *)
Fixpoint dense_parameters (widths : list Z) : Z :=
  match widths with
  | a :: (b :: _) as rest => a * b + b + dense_parameters rest
  | _ => 0
  end.

Example compute_parameters_one_layer : compute_parameters [5] = 105.
Proof. reflexivity. Qed.

Example compute_parameters_two_layers : compute_parameters [2; 3] = 68.
Proof. reflexivity. Qed.

Example compute_parameters_no_layer : compute_parameters [] = 51.
Proof. reflexivity. Qed.

(** The sum over [range(len(l) - 1)] of [l[i] * l[i+1]], by recursion. *)
Lemma indexed_products (l : list Z) :
  Zsum (map (fun i => nth i l 0 * nth (i + 1) l 0) (seq 0 (length l - 1))) =
  consecutive_products l.
Proof.
  induction l as [|a [|b rest] IH].
  - reflexivity.
  - reflexivity.
  - replace (length (a :: b :: rest) - 1)%nat with (S (length (b :: rest) - 1))
      by (cbn [length]; lia).
    rewrite <- cons_seq, <- seq_shift, map_cons, map_map.
    cbn [Zsum consecutive_products nth Nat.add]. f_equal. exact IH.
Qed.

(** [l[1:-1]] of [[3] + h + [17]] is [h]. *)
Lemma hidden_layers_slice (h : list Z) :
  firstn (length ([3] ++ h ++ [17]) - 1 - 1) (skipn 1 ([3] ++ h ++ [17])) = h.
Proof.
  cbn [app skipn length]. rewrite length_app. cbn [length].
  replace (S (length h + 1) - 1 - 1)%nat with (length h + 0)%nat by lia.
  now rewrite firstn_app_2, app_nil_r.
Qed.

Lemma Zsum_app (l1 l2 : list Z) : Zsum (l1 ++ l2) = Zsum l1 + Zsum l2.
Proof.
  induction l1 as [|a l1 IH]; cbn [app Zsum]; lia.
Qed.

(** A network with a bias on every neuron has, past its first layer,
    one more parameter per neuron than it has weights. *)
Lemma dense_parameters_split (a : Z) (l : list Z) :
  dense_parameters (a :: l) = consecutive_products (a :: l) + Zsum l.
Proof.
  revert a. induction l as [|b l IH]; intros a.
  - reflexivity.
  - change (dense_parameters (a :: b :: l))
      with (a * b + b + dense_parameters (b :: l)).
    change (consecutive_products (a :: b :: l))
      with (a * b + consecutive_products (b :: l)).
    rewrite (IH b). cbn [Zsum]. lia.
Qed.

(** C9.  For every list [h] of hidden-layer sizes (of any length, one
    or more in particular), [compute_parameters h] is the sum of the
    products of consecutive widths of [3, h1, ..., hk, 17] plus the sum
    [h1 + ... + hk]: every hidden neuron is counted with a bias, and the
    17 output neurons are counted without, so the count is 17 short of
    that of a network with a bias on every neuron. *)
Theorem compute_parameters_formula (h : list Z) :
  compute_parameters h = consecutive_products ([3] ++ h ++ [17]) + Zsum h /\
  compute_parameters h = dense_parameters ([3] ++ h ++ [17]) - 17.
Proof.
  assert (Hmain : compute_parameters h =
                  consecutive_products ([3] ++ h ++ [17]) + Zsum h).
  { unfold compute_parameters.
    now rewrite hidden_layers_slice, (indexed_products ([3] ++ h ++ [17])). }
  split; [exact Hmain|].
  rewrite Hmain. change ([3] ++ h ++ [17]) with (3 :: (h ++ [17])).
  rewrite dense_parameters_split, Zsum_app. cbn [Zsum]. lia.
Qed.

End ParameterCount.

(* ================================================================== *)
(** ** [get_random_architectures] *)
(* ================================================================== *)

Module RandomSweep.
Import Figure_6a ListUpdate.

(** An architecture within the limits the options set. *)
Definition architecture_in_range (options : Options) (arch : list Z) : Prop :=
  (min_hidden_layers options <= length arch <= max_hidden_layers options)%nat /\
  Forall (fun size =>
            (min_neurons_per_layer options <= size <= max_neurons_per_layer options)%Z)
         arch.

(** The parameter count of [arch] lies in the half-open bin [i]. *)
Definition falls_in_bin (bins : list Q) (arch : list Z) (i : nat) : Prop :=
  (nth i bins 0 <= inject_Z (compute_parameters arch))%Q /\
  (inject_Z (compute_parameters arch) < nth (i + 1) bins 0)%Q.

(** A deterministic source: the [k]-th draw from the range [a..b] is
    [a + k mod (b - a + 1)]. *)
Definition counter_randint (a b g : Z) : Z * Z := ((a + g mod (b - a + 1))%Z, (g + 1)%Z).

Lemma counter_randint_in_range (a b g : Z) :
  (a <= b)%Z -> (a <= fst (counter_randint a b g) <= b)%Z.
Proof.
  intros Hab. unfold counter_randint. cbn [fst].
  pose proof (Z.mod_pos_bound g (b - a + 1)). lia.
Qed.

#[local] Instance counter_source : RandomSource Z := {
  randint := counter_randint;
  randint_in_range := counter_randint_in_range
}.

(** *** The bin edges *)

Lemma length_linspace (start stop : Q) (num : nat) :
  length (linspace start stop num) = num.
Proof.
  destruct num as [|[|div]]; try reflexivity.
  unfold linspace. rewrite length_app, length_map, length_seq. simpl. lia.
Qed.

Lemma length_bin_edges (options : Options) :
  length (bin_edges options) = (n_steps options + 1)%nat.
Proof. apply length_linspace. Qed.

(** The edges are evenly spaced from [start] to [stop]. *)
Lemma linspace_uniform (start stop : Q) (n i : nat) :
  (i <= n)%nat ->
  (nth i (linspace start stop (n + 1)) 0
   == start + inject_Z (Z.of_nat i) * ((stop - start) / inject_Z (Z.of_nat n)))%Q.
Proof.
  intros Hi. rewrite Nat.add_1_r. destruct n as [|n].
  - assert (i = 0)%nat as -> by lia. simpl. ring.
  - unfold linspace. destruct (Nat.eq_dec i (S n)) as [->|Hne].
    + rewrite app_nth2; rewrite length_map, length_seq; [|lia].
      rewrite Nat.sub_diag. cbn [nth]. field.
      change 0%Q with (inject_Z 0). rewrite inject_Z_injective. lia.
    + rewrite app_nth1 by (rewrite length_map, length_seq; lia).
      rewrite nth_map_seq by lia. reflexivity.
Qed.

Lemma in_bin_falls (bins : list Q) (arch : list Z) (i : nat) :
  in_bin bins (compute_parameters arch) i = true -> falls_in_bin bins arch i.
Proof.
  unfold in_bin, falls_in_bin. rewrite andb_true_iff, negb_true_iff.
  intros [Hlo Hhi]. split.
  - now apply Qle_bool_iff.
  - apply Qnot_le_lt. intros Hle. apply Qle_bool_iff in Hle. congruence.
Qed.

Lemma first_free_bin_Some (bins : list Q) (bin_filled : list bool) (arch : list Z)
    (i : nat) :
  first_free_bin bins bin_filled (compute_parameters arch) = Some i ->
  (i < length bins - 1)%nat /\ falls_in_bin bins arch i /\ nth i bin_filled false = false.
Proof.
  unfold first_free_bin. intros Hfind. apply find_some in Hfind as [Hin Htest].
  apply in_seq in Hin. apply andb_true_iff in Htest as [Hbin Hfree].
  apply negb_true_iff in Hfree. split; [lia|]. split; [|exact Hfree].
  now apply in_bin_falls.
Qed.

Section Draws.

Context {G : Type} `{RandomSource G}.

Lemma random_randint_in_range (a b v : Z) (g g' : G) :
  random_randint a b g = Some (v, g') -> (a <= v <= b)%Z.
Proof.
  unfold random_randint. destruct (Z.leb_spec a b) as [Hab|_]; [|discriminate].
  intros [= Hdraw]. pose proof (randint_in_range a b g Hab) as Hrange.
  destruct (randint a b g) as [v0 g0]. cbn [fst] in Hrange.
  injection Hdraw as -> _. exact Hrange.
Qed.

Lemma draw_layers_in_range (k : nat) (lo hi : Z) (g g' : G) (sizes : list Z) :
  draw_layers k lo hi g = Some (sizes, g') ->
  length sizes = k /\ Forall (fun size => (lo <= size <= hi)%Z) sizes.
Proof.
  revert g g' sizes. induction k as [|k IH]; intros g g' sizes; cbn [draw_layers].
  - intros [= <- _]. split; [reflexivity | constructor].
  - destruct (random_randint lo hi g) as [[v g1]|] eqn:Hdraw; [|discriminate].
    cbn [bind]. destruct (draw_layers k lo hi g1) as [[vs g2]|] eqn:Hrest; [|discriminate].
    cbn [bind]. intros [= <- _].
    destruct (IH g1 g2 vs Hrest) as [Hlen Hall].
    split; [cbn [length]; congruence|].
    constructor; [|exact Hall]. exact (random_randint_in_range _ _ _ _ _ Hdraw).
Qed.

Lemma generate_random_architecture_in_range (options : Options) (g g' : G)
    (arch : list Z) :
  generate_random_architecture
    (min_hidden_layers options) (max_hidden_layers options)
    (min_neurons_per_layer options) (max_neurons_per_layer options) g = Some (arch, g') ->
  architecture_in_range options arch.
Proof.
  unfold generate_random_architecture.
  destruct (random_randint _ _ g) as [[num_layers g1]|] eqn:Hdraw; [|discriminate].
  cbn [bind]. intros Hlayers.
  apply random_randint_in_range in Hdraw.
  apply draw_layers_in_range in Hlayers as [Hlen Hall].
  split; [lia | exact Hall].
Qed.

End Draws.

(** *** The loop invariant *)

(** What holds of the accepted architectures and of the bin flags each
    time the [while] condition is tested: [bin_of] lists, in order of
    acceptance, the bin each accepted architecture was put in. *)
Record sweep_invariant (options : Options) (bins : list Q)
    (architectures : list (list Z)) (bin_filled : list bool) (bin_of : list nat)
  : Prop := {
  inv_flags : length bin_filled = n_steps options;
  inv_bins :
    Forall2 (fun arch i => (i < n_steps options)%nat /\ falls_in_bin bins arch i)
            architectures bin_of;
  inv_distinct : NoDup bin_of;
  inv_marked : forall i, In i bin_of -> nth i bin_filled false = true;
  inv_range : Forall (architecture_in_range options) architectures
}.

Lemma sweep_invariant_start (options : Options) (bins : list Q) :
  sweep_invariant options bins [] (repeat false (n_steps options)) [].
Proof.
  constructor.
  - apply repeat_length.
  - constructor.
  - constructor.
  - intros i [].
  - constructor.
Qed.

Lemma Forall2_snoc {A B : Type} (P : A -> B -> Prop) (l : list A) (l' : list B)
    (a : A) (b : B) :
  Forall2 P l l' -> P a b -> Forall2 P (l ++ [a]) (l' ++ [b]).
Proof.
  intros Hl Hab. apply Forall2_app; [exact Hl | now constructor].
Qed.

Lemma NoDup_snoc {A : Type} (l : list A) (a : A) :
  NoDup l -> ~ In a l -> NoDup (l ++ [a]).
Proof.
  intros Hl Ha. apply NoDup_app.
  - exact Hl.
  - constructor; [intros [] | constructor].
  - intros b Hb [<-|[]]. exact (Ha Hb).
Qed.

(** Accepting an architecture into a free bin keeps the invariant. *)
Lemma sweep_invariant_accept (options : Options) (bins : list Q)
    (architectures : list (list Z)) (bin_filled : list bool) (bin_of : list nat)
    (arch : list Z) (i : nat) :
  length bins = (n_steps options + 1)%nat ->
  sweep_invariant options bins architectures bin_filled bin_of ->
  architecture_in_range options arch ->
  first_free_bin bins bin_filled (compute_parameters arch) = Some i ->
  sweep_invariant options bins (architectures ++ [arch]) (set_nth i true bin_filled)
                  (bin_of ++ [i]).
Proof.
  intros Hbins [Hflags Hin Hdistinct Hmarked Hrange] Harch Hfind.
  apply first_free_bin_Some in Hfind as (Hi & Hfalls & Hfree).
  assert (Hi' : (i < n_steps options)%nat) by lia.
  constructor.
  - now rewrite length_set_nth.
  - apply Forall2_snoc; [exact Hin | now split].
  - apply NoDup_snoc; [exact Hdistinct|].
    intros Hold. apply Hmarked in Hold. congruence.
  - intros j Hj. apply in_app_or in Hj as [Hj|[<-|[]]].
    + destruct (Nat.eq_dec i j) as [<-|Hne].
      * apply nth_set_nth_same. lia.
      * rewrite nth_set_nth_other by exact Hne. now apply Hmarked.
    + apply nth_set_nth_same. lia.
  - apply Forall_app. split; [exact Hrange | now constructor].
Qed.

(** Distinct bins, as many as there are bins: every bin is taken. *)
Lemma all_bins_taken (n : nat) (bin_of : list nat) :
  NoDup bin_of -> length bin_of = n -> Forall (fun i => (i < n)%nat) bin_of ->
  forall i, (i < n)%nat -> In i bin_of.
Proof.
  intros Hdistinct Hlen Hbound i Hi.
  apply (NoDup_length_incl Hdistinct (l' := seq 0 n)).
  - rewrite length_seq. lia.
  - intros j Hj. apply in_seq. rewrite Forall_forall in Hbound.
    specialize (Hbound j Hj). lia.
  - apply in_seq. lia.
Qed.

Section Loop.

Context {G : Type} `{RandomSource G}.

(** If the loop returns, it returns the invariant with a full list. *)
Lemma fill_bins_returns (options : Options) (bins : list Q) (fuel : nat) :
  length bins = (n_steps options + 1)%nat ->
  forall (architectures : list (list Z)) (bin_filled : list bool) (bin_of : list nat)
         (g g' : G) (result : list (list Z)),
    sweep_invariant options bins architectures bin_filled bin_of ->
    (length architectures <= n_steps options)%nat ->
    fill_bins fuel options bins architectures bin_filled g = Returns (result, g') ->
    length result = n_steps options /\
    exists bin_filled' bin_of', sweep_invariant options bins result bin_filled' bin_of'.
Proof.
  intros Hbins. induction fuel as [|fuel IH];
    intros architectures bin_filled bin_of g g' result Hinv Hle; cbn [fill_bins];
    destruct (Nat.ltb_spec (length architectures) (n_steps options)) as [Hlt|Hge].
  - discriminate.
  - intros [= <- _]. split; [lia|]. now exists bin_filled, bin_of.
  - destruct (generate_random_architecture _ _ _ _ g) as [[arch g1]|] eqn:Hgen;
      [|discriminate].
    pose proof (generate_random_architecture_in_range options g g1 arch Hgen) as Harch.
    destruct (first_free_bin bins bin_filled (compute_parameters arch)) as [i|] eqn:Hfind.
    + apply (IH _ _ (bin_of ++ [i])).
      * now apply sweep_invariant_accept.
      * rewrite length_app. cbn [length]. lia.
    + now apply (IH _ _ bin_of).
  - intros [= <- _]. split; [lia|]. now exists bin_filled, bin_of.
Qed.

End Loop.

Example sweep_of_two :
  get_random_architectures 2
    {| min_neurons_per_layer := 1; max_neurons_per_layer := 3; n_steps := 2;
       max_hidden_layers := 1; min_hidden_layers := 1 |} 0%Z
  = Returns ([[2%Z]; [1%Z]], 4%Z).
Proof. vm_compute. reflexivity. Qed.

Example sweep_out_of_fuel :
  get_random_architectures 1
    {| min_neurons_per_layer := 1; max_neurons_per_layer := 3; n_steps := 2;
       max_hidden_layers := 1; min_hidden_layers := 1 |} 0%Z
  = OutOfFuel.
Proof. vm_compute. reflexivity. Qed.

Example sweep_empty_range :
  get_random_architectures 1
    {| min_neurons_per_layer := 3; max_neurons_per_layer := 1; n_steps := 2;
       max_hidden_layers := 1; min_hidden_layers := 1 |} 0%Z
  = Raises.
Proof. vm_compute. reflexivity. Qed.

(** [min_parameters] and [max_parameters] of [get_random_architectures]. *)
Definition min_parameters (options : Options) : Z :=
  compute_parameters (repeat (min_neurons_per_layer options) (min_hidden_layers options)).
Definition max_parameters (options : Options) : Z :=
  compute_parameters (repeat (max_neurons_per_layer options) (max_hidden_layers options)).

(** C10.  Whenever [get_random_architectures] returns, it returns exactly
    [n_steps] architectures, each with between [min_hidden_layers] and
    [max_hidden_layers] layers of sizes between [min_neurons_per_layer]
    and [max_neurons_per_layer]; their parameter counts lie in pairwise
    distinct bins of the partition of [min_parameters, max_parameters]
    into [n_steps] bins of equal width, so every bin holds exactly one of
    them; and an architecture whose parameter count lies in no unfilled
    bin leaves the list and the flags as they were, the loop going on
    with a new draw. *)
Theorem get_random_architectures_returns {G : Type} `{RandomSource G}
    (fuel : nat) (options : Options) (g g' : G) (architectures : list (list Z)) :
  get_random_architectures fuel options g = Returns (architectures, g') ->
  length architectures = n_steps options /\
  Forall (architecture_in_range options) architectures /\
  (exists bin_of : list nat,
      Forall2 (fun arch i =>
                 (i < n_steps options)%nat /\ falls_in_bin (bin_edges options) arch i)
              architectures bin_of /\
      NoDup bin_of /\
      forall i, (i < n_steps options)%nat -> In i bin_of) /\
  (forall i, (i <= n_steps options)%nat ->
      (nth i (bin_edges options) 0
       == inject_Z (min_parameters options) +
          inject_Z (Z.of_nat i) *
          ((inject_Z (max_parameters options) - inject_Z (min_parameters options)) /
           inject_Z (Z.of_nat (n_steps options))))%Q) /\
  (forall fuel' accepted bin_filled (g0 g1 : G) arch,
      (length accepted < n_steps options)%nat ->
      generate_random_architecture
        (min_hidden_layers options) (max_hidden_layers options)
        (min_neurons_per_layer options) (max_neurons_per_layer options) g0
      = Some (arch, g1) ->
      first_free_bin (bin_edges options) bin_filled (compute_parameters arch) = None ->
      fill_bins (S fuel') options (bin_edges options) accepted bin_filled g0 =
      fill_bins fuel' options (bin_edges options) accepted bin_filled g1).
Proof.
  intros Hrun. unfold get_random_architectures in Hrun.
  destruct (fill_bins_returns options (bin_edges options) fuel (length_bin_edges options)
              [] _ [] g g' architectures
              (sweep_invariant_start options (bin_edges options))
              (Nat.le_0_l _) Hrun)
    as (Hlen & flags & bin_of & [Hflags Hin Hdistinct Hmarked Hrange]).
  split; [exact Hlen|]. split; [exact Hrange|]. split; [|split].
  - exists bin_of. split; [exact Hin|]. split; [exact Hdistinct|].
    apply all_bins_taken.
    + exact Hdistinct.
    + rewrite <- Hlen. symmetry. exact (Forall2_length Hin).
    + clear -Hin. induction Hin as [|arch i archs idxs [Hi _] _ IH]; now constructor.
  - intros i Hi. unfold bin_edges. now apply linspace_uniform.
  - intros fuel' accepted bin_filled g0 g1 arch Hlt Hgen Hfind.
    cbn [fill_bins]. apply Nat.ltb_lt in Hlt. now rewrite Hlt, Hgen, Hfind.
Qed.

Lemma get_random_architectures_returns_witness :
  let options := {| min_neurons_per_layer := 1; max_neurons_per_layer := 3; n_steps := 2;
                    max_hidden_layers := 1; min_hidden_layers := 1 |} in
  get_random_architectures 2 options 0%Z = Returns ([[2%Z]; [1%Z]], 4%Z) /\
  length [[2%Z]; [1%Z]] = n_steps options.
Proof.
  intros options. split.
  - vm_compute. reflexivity.
  - apply (get_random_architectures_returns 2 options 0%Z 4%Z [[2%Z]; [1%Z]]).
    vm_compute. reflexivity.
Defined.

End RandomSweep.

(* ================================================================== *)
(** ** [load_data] *)
(* ================================================================== *)

Module LoadData.
Import Tensor TensorFacts DataPrep Figure_6a ListUpdate.
Local Open Scope R_scope.

(** The value the scaler of a column receives: [log1p] of the raw value
    when the column is listed as skewed, the raw value otherwise. *)
Definition skewed_value (idx : list nat) (j : nat) (v : R) : R :=
  if mem j idx then log1p v else v.

(** An array after the skew transform of the listed columns. *)
Definition skewed (idx : list nat) (M : matrix) : matrix :=
  map (fun row => map (fun '(j, v) => skewed_value idx j v) (enumerate row)) M.

(** Column [i] of the result is the [i]-th scaler applied to column [i]
    after the skew transform; there is one column per scaler. *)
Definition scaled_columns (idx : list nat) (scalers : list Scaler) (M : matrix) : matrix :=
  map (fun row =>
         map (fun '(i, s) => transform s (skewed_value idx i (nth i row 0)))
             (enumerate scalers))
      M.

(** *** Assignment to the listed columns *)

(** After the assignments [row[j] = g j] for the listed [j], an entry is
    [g k] when [k] is listed, and what it was otherwise. *)
Lemma nth_assign_entries (g : nat -> R) (idx : list nat) (row : vec) (k : nat) :
  Forall (fun j => (j < length row)%nat) idx ->
  nth k (assign_entries idx (map g idx) row) 0 =
  if mem k idx then g k else nth k row 0.
Proof.
  unfold assign_entries. revert row.
  induction idx as [|j idx IH]; intros row Hidx; cbn [map combine fold_left].
  - reflexivity.
  - inversion Hidx as [|? ? Hj Hrest]; subst.
    rewrite IH by (rewrite length_set_nth; exact Hrest).
    unfold mem. cbn [existsb]. fold (mem k idx).
    destruct (mem k idx); [now rewrite orb_true_r|].
    rewrite orb_false_r. destruct (Nat.eqb_spec k j) as [->|Hne].
    + now apply nth_set_nth_same.
    + apply nth_set_nth_other. congruence.
Qed.

Lemma length_assign_entries (idx : list nat) (values row : vec) :
  length (assign_entries idx values row) = length row.
Proof.
  unfold assign_entries. revert values row.
  induction idx as [|j idx IH]; intros [|v values] row; cbn [combine fold_left];
    try reflexivity.
  now rewrite IH, length_set_nth.
Qed.

Lemma length_enumerate {A : Type} (l : list A) : length (enumerate l) = length l.
Proof. unfold enumerate. rewrite length_combine, length_seq. lia. Qed.

Lemma nth_enumerate_map {A B : Type} (f : nat * A -> B) (l : list A) (k : nat)
    (da : A) (db : B) :
  (k < length l)%nat -> nth k (map f (enumerate l)) db = f (k, nth k l da).
Proof.
  intros Hk.
  rewrite (nth_indep _ db (f (0%nat, da)))
    by (rewrite length_map, length_enumerate; exact Hk).
  rewrite map_nth. unfold enumerate.
  now rewrite combine_nth, seq_nth by (rewrite ?length_seq; lia).
Qed.

(** One row after [row[idx] = log1p(row[idx])]. *)
Lemma assign_log1p_row (idx : list nat) (row : vec) :
  Forall (fun j => (j < length row)%nat) idx ->
  assign_entries idx (map log1p (map (fun j => nth j row 0) idx)) row =
  map (fun '(j, v) => skewed_value idx j v) (enumerate row).
Proof.
  intros Hidx. rewrite map_map.
  apply (nth_ext _ _ 0 0).
  - now rewrite length_assign_entries, length_map, length_enumerate.
  - rewrite length_assign_entries. intros k Hk.
    rewrite (nth_assign_entries (fun j => log1p (nth j row 0)) idx row k Hidx).
    rewrite (nth_enumerate_map _ row k 0 0 Hk). reflexivity.
Qed.

Lemma map2_map_left {A B C : Type} (f : B -> A -> C) (h : A -> B) (l : list A) :
  map2 f (map h l) l = map (fun a => f (h a) a) l.
Proof.
  unfold map2. induction l as [|a l IH]; cbn [map combine].
  - reflexivity.
  - now rewrite IH.
Qed.

(** The skew step of [load_data], guard included. *)
Lemma skew_step (n d : nat) (idx : list nat) (M : matrix) :
  (1 <= n)%nat -> rectangular n d M -> Forall (fun j => (j < d)%nat) idx ->
  (if (0 <? length idx)%nat then log1p_columns idx M else Some M) = Some (skewed idx M).
Proof.
  intros Hn HM Hidx. pose proof (ncols_rectangular n d M Hn HM) as Hcols.
  destruct HM as [_ Hrows]. destruct idx as [|j idx].
  - cbn [length Nat.ltb Nat.leb]. f_equal. unfold skewed.
    symmetry. rewrite <- (map_id M) at 2. apply map_ext_in. intros row _.
    apply (nth_ext _ _ 0 0).
    + now rewrite length_map, length_enumerate.
    + rewrite length_map, length_enumerate. intros k Hk.
      now rewrite (nth_enumerate_map _ row k 0 0 Hk).
  - cbn [length Nat.ltb Nat.leb]. unfold log1p_columns. rewrite Hcols.
    replace (forallb (fun k => (k <? d)%nat) (j :: idx)) with true.
    2:{ symmetry. apply forallb_forall. intros k Hk. apply Nat.ltb_lt.
        rewrite Forall_forall in Hidx. now apply Hidx. }
    f_equal. unfold assign_columns, take_columns, skewed.
    rewrite map_map, (map2_map_left (assign_entries (j :: idx))).
    apply map_ext_in. intros row Hrow. apply assign_log1p_row.
    rewrite Forall_forall in Hrows. now rewrite (Hrows row Hrow).
Qed.

(** *** Scaling column by column *)

Lemma column_slice_row (i : nat) (row : vec) :
  (i < length row)%nat -> firstn 1 (skipn i row) = [nth i row 0].
Proof.
  revert i. induction row as [|v row IH]; intros [|i] Hi; cbn [length] in Hi; try lia.
  - reflexivity.
  - cbn [skipn nth]. apply IH. lia.
Qed.

(** The block one scaler contributes: its transform of one column. *)
Definition scaled_block (M : matrix) (e : nat * Scaler) : matrix :=
  map (fun row => [transform (snd e) (nth (fst e) row 0)]) M.

Lemma scaler_transform_column (n d : nat) (M : matrix) (i : nat) (s : Scaler) :
  (1 <= n)%nat -> rectangular n d M -> (i < d)%nat ->
  scaler_transform s (column_slice i M) = Some (scaled_block M (i, s)).
Proof.
  intros Hn [Hlen Hrows] Hi.
  assert (Hslice : column_slice i M = map (fun row => [nth i row 0]) M).
  { apply map_ext_in. intros row Hrow. apply column_slice_row.
    rewrite Forall_forall in Hrows. now rewrite (Hrows row Hrow). }
  unfold scaler_transform. rewrite Hslice. clear Hslice Hrows.
  destruct M as [|row M]; [cbn [length] in Hlen; lia|].
  unfold ncols. cbn [map hd length Nat.leb Nat.eqb andb].
  f_equal. unfold scaled_block. cbn [map fst snd].
  f_equal. now rewrite map_map.
Qed.

Lemma mapM_scalers (n d : nat) (M : matrix) (es : list (nat * Scaler)) :
  (1 <= n)%nat -> rectangular n d M -> Forall (fun e => (fst e < d)%nat) es ->
  mapM (fun '(i, s) => scaler_transform s (column_slice i M)) es =
  Some (map (scaled_block M) es).
Proof.
  intros Hn HM. induction 1 as [|[i s] es Hi _ IH]; cbn [mapM map].
  - reflexivity.
  - rewrite (scaler_transform_column n d M i s Hn HM Hi), IH. reflexivity.
Qed.

Lemma map2_map_both {A B C D : Type} (f : B -> C -> D) (h1 : A -> B) (h2 : A -> C)
    (l : list A) :
  map2 f (map h1 l) (map h2 l) = map (fun a => f (h1 a) (h2 a)) l.
Proof.
  unfold map2. induction l as [|a l IH]; cbn [map combine].
  - reflexivity.
  - now rewrite IH.
Qed.

(** Joining the blocks side by side gives, row by row, the scaled
    entries in the order of the scalers. *)
Lemma cat_dim1_blocks (M : matrix) (es : list (nat * Scaler)) :
  es <> [] ->
  cat_dim1 (map (scaled_block M) es) =
  Some (map (fun row => map (fun e => transform (snd e) (nth (fst e) row 0)) es) M).
Proof.
  induction es as [|e [|e' es] IH]; intros Hne.
  - contradiction.
  - reflexivity.
  - change (cat_dim1 (map (scaled_block M) (e :: e' :: es)))
      with (let* R' := cat_dim1 (map (scaled_block M) (e' :: es)) in
            if (length (scaled_block M e) =? length R')%nat
            then Some (map2 (@app R) (scaled_block M e) R') else None).
    rewrite IH by discriminate. cbn [bind].
    unfold scaled_block at 1 2. rewrite !length_map, Nat.eqb_refl.
    now rewrite map2_map_both.
Qed.

(** The scaling step of [load_data]. *)
Lemma normalize_columns (n d : nat) (idx : list nat) (scalers : list Scaler) (M : matrix) :
  (1 <= n)%nat -> rectangular n d M -> (1 <= length scalers <= d)%nat ->
  normalize scalers (skewed idx M) = Some (scaled_columns idx scalers M).
Proof.
  intros Hn HM [Hone Hwidth].
  assert (HM' : rectangular n d (skewed idx M)).
  { destruct HM as [Hlen Hrows]. split.
    - unfold skewed. now rewrite length_map.
    - unfold skewed. apply Forall_map.
      apply (Forall_impl _ (P := fun row => length row = d)); [|exact Hrows].
      intros row Hrow. now rewrite length_map, length_enumerate. }
  assert (Hes : Forall (fun e : nat * Scaler => (fst e < d)%nat) (enumerate scalers)).
  { apply Forall_forall. intros [i s] Hin. unfold enumerate in Hin.
    apply in_combine_l in Hin. apply in_seq in Hin. cbn [fst]. lia. }
  unfold normalize.
  rewrite (mapM_scalers n d (skewed idx M) (enumerate scalers) Hn HM' Hes).
  cbn [bind]. rewrite cat_dim1_blocks.
  2:{ destruct scalers; [cbn [length] in Hone; lia | discriminate]. }
  f_equal. unfold scaled_columns, skewed. rewrite map_map.
  apply map_ext_in. intros row Hrow. apply map_ext_in. intros [i s] Hin.
  cbn [fst snd]. f_equal.
  assert (Hi : (i < length row)%nat).
  { destruct HM as [_ Hrows]. rewrite Forall_forall in Hrows, Hes.
    rewrite (Hrows row Hrow). exact (Hes (i, s) Hin). }
  now rewrite (nth_enumerate_map _ row i 0 0 Hi).
Qed.

Section Claim.

Variable read_dataset : string -> LoadDataset.

(** C6.  For every test dataset of [n >= 1] samples and every fitted
    preprocessing info whose skewed-feature indices are columns of the
    dataset and which has a scaler for one up to all of the columns,
    [load_data] returns the arrays in which entry [i] of a row is the
    [i]-th scaler's forward transform of the raw entry, taken through
    [log1p] first exactly when [i] is in the skewed-feature list: the
    skew transform comes before the scaling, touches only the listed
    columns (none when the list is empty), and the result has one
    column per scaler, in the scalers' order. *)
Theorem load_data_returns (test_filename : string) (preprocessed_data : DataPreprocessor)
    (n d_in d_out : nat) :
  let test_dataset := read_dataset test_filename in
  (1 <= n)%nat ->
  rectangular n d_in (x test_dataset) ->
  rectangular n d_out (y test_dataset) ->
  Forall (fun j => (j < d_in)%nat) (skewed_features_in preprocessed_data) ->
  Forall (fun j => (j < d_out)%nat) (skewed_features_out preprocessed_data) ->
  (1 <= length (scalers_input preprocessed_data) <= d_in)%nat ->
  (1 <= length (scalers_output preprocessed_data) <= d_out)%nat ->
  load_data read_dataset test_filename preprocessed_data =
  Some (scaled_columns (skewed_features_in preprocessed_data)
                       (scalers_input preprocessed_data) (x test_dataset),
        scaled_columns (skewed_features_out preprocessed_data)
                       (scalers_output preprocessed_data) (y test_dataset)).
Proof.
  intros test_dataset Hn Hx Hy Hin Hout Hsin Hsout. unfold load_data.
  fold test_dataset.
  rewrite (skew_step n d_in _ (x test_dataset) Hn Hx Hin). cbn [bind].
  rewrite (skew_step n d_out _ (y test_dataset) Hn Hy Hout). cbn [bind].
  rewrite (normalize_columns n d_in _ _ (x test_dataset) Hn Hx Hsin). cbn [bind].
  rewrite (normalize_columns n d_out _ _ (y test_dataset) Hn Hy Hsout). cbn [bind].
  reflexivity.
Qed.

End Claim.

(** A scaler that halves, as a fitted min-max scaler with range [0, 2] would. *)
Definition halving : Scaler :=
  {| transform := fun v => v / 2; inverse_transform := fun v => 2 * v |}.

Example scaled_columns_example :
  scaled_columns [2%nat] [halving; halving; halving] [[1; 2; 3]] =
  [[1 / 2; 2 / 2; log1p 3 / 2]].
Proof. reflexivity. Qed.

Lemma load_data_returns_witness :
  let read := fun _ : string => {| x := [[1; 2; 3]]; y := [[4; 5]] |} in
  let prep := {| skewed_features_in := [2%nat]; skewed_features_out := [];
                 scalers_input := [halving; halving; halving];
                 scalers_output := [halving; halving] |} in
  load_data read "test.txt" prep =
  Some (scaled_columns [2%nat] [halving; halving; halving] [[1; 2; 3]],
        scaled_columns [] [halving; halving] [[4; 5]]).
Proof.
  intros read prep.
  apply (load_data_returns read "test.txt" prep 1 3 2); cbn.
  - lia.
  - split; [reflexivity | repeat constructor].
  - split; [reflexivity | repeat constructor].
  - repeat constructor.
  - constructor.
  - lia.
  - lia.
Defined.

End LoadData.

(* ================================================================== *)
(** ** The ensemble's predictive uncertainty *)
(* ================================================================== *)

Module Ensemble.
Import Tensor TensorFacts PinnNN.
Local Open Scope R_scope.

Lemma map_nth_seq_gen {A B : Type} (f : A -> B) (l : list A) (d : A) :
  map (fun i => f (nth i l d)) (seq 0 (length l)) = map f l.
Proof.
  induction l as [|a l IH]; cbn [length seq map].
  - reflexivity.
  - f_equal. rewrite <- seq_shift, map_map. exact IH.
Qed.

(** A single value has no spread. *)
Lemma std_singleton (v : R) : std [v] = 0.
Proof.
  unfold std, average. cbn [map Rsum length INR].
  replace (((v - (v + 0) / 1) ^ 2 + 0) / 1) with 0 by field.
  exact sqrt_0.
Qed.

Lemma sem_singleton (v : R) : sem [v] = 0.
Proof.
  unfold sem. rewrite std_singleton. unfold Rdiv. apply Rmult_0_l.
Qed.

(** C4.  With exactly one model in the ensemble, the predictive
    uncertainty is defined and is zero for every sample and every output
    dimension of that model's prediction; more generally it is defined
    for every ensemble of [n >= 1] models. *)
Theorem single_model_uncertainty_is_zero :
  (forall (net : NeuralNetwork) (inputs : matrix),
      get_predictive_uncertainty [net] inputs =
      Some (map (map (fun _ => 0)) (net inputs))) /\
  (forall (networks : list NeuralNetwork) (inputs : matrix),
      (1 <= length networks)%nat ->
      exists U, get_predictive_uncertainty networks inputs = Some U).
Proof.
  split.
  - intros net inputs.
    unfold get_predictive_uncertainty, across_models, stack. cbn [map]. f_equal.
    rewrite <- (map_nth_seq_gen (map (fun _ => 0)) (net inputs) []).
    apply map_ext. intros i.
    etransitivity; [|exact (map_nth_seq_gen (fun _ : R => 0) (nth i (net inputs) []) 0)].
    apply map_ext. intros j. apply sem_singleton.
  - intros [|net networks] inputs Hn; [cbn [length] in Hn; lia|].
    eexists. reflexivity.
Qed.

End Ensemble.

(* ================================================================== *)
(** ** The projection engine at a satisfied constraint *)
(* ================================================================== *)

Module ProjectionFacts.
Import Tensor TensorFacts DataPrep Projection.
Local Open Scope R_scope.

(** The residual of the constraint at a raw prediction, evaluated in
    physical units, is zero in every component. *)
Definition constraint_satisfied (prep : DataPreprocessor) (c : Constraint)
    (prediction input : vec) : Prop :=
  Forall (fun r => r = 0) (residual c input (denormalize_output prep prediction)).

(** The constraint [y1 + y2 - y3 = 0] of the end-to-end scenario. *)
Definition toy_constraint : Constraint :=
  {| residual := fun _ out => [nth 0 out 0 + nth 1 out 0 - nth 2 out 0];
     jacobian := fun _ _ => [[1; 1; -1]] |}.

Definition identity3 : matrix := [[1; 0; 0]; [0; 1; 0]; [0; 0; 1]].

(** The sample backend on the matrices of the scenarios. *)
Lemma checked_identity3 :
  checked_diagonal_inverse identity3 = Some (diagonal_inverse identity3).
Proof.
  unfold checked_diagonal_inverse, regular_diagonal, identity3.
  cbn [length seq combine forallb Nat.eqb andb negb].
  destruct (Req_dec_T 1 0) as [H|_]; [lra|].
  destruct (Req_dec_T 0 0) as [_|H]; [|now contradiction H].
  reflexivity.
Qed.

Lemma checked_scalar (a : R) :
  a <> 0 -> checked_diagonal_inverse [[a]] = Some [[/ a]].
Proof.
  intros Ha. unfold checked_diagonal_inverse, regular_diagonal.
  cbn [length seq combine forallb Nat.eqb andb negb].
  destruct (Req_dec_T a 0) as [H|_]; [contradiction|]. reflexivity.
Qed.

Lemma checked_singular (a : R) : a = 0 -> checked_diagonal_inverse [[a]] = None.
Proof.
  intros Ha. unfold checked_diagonal_inverse, regular_diagonal.
  cbn [length seq combine forallb Nat.eqb andb negb].
  destruct (Req_dec_T a 0) as [_|H]; [reflexivity | contradiction].
Qed.

(** The end-to-end scenario of the specification: from [1, 1, 1], with
    residual 1 and identity weights, the engine moves to
    [1 - 1/3, 1 - 1/3, 1 + 1/3]. *)
Example toy_projection :
  project_physical checked_diagonal_inverse toy_constraint identity3 [] [1; 1; 1] =
  Some [1 - 1 / 3; 1 - 1 / 3; 1 + 1 / 3].
Proof.
  unfold project_physical, correction. rewrite checked_identity3.
  unfold toy_constraint. cbn [jacobian residual].
  set (gram := mat_mul (mat_mul [[1; 1; -1]] (diagonal_inverse identity3))
                       (transpose (ncols [[1; 1; -1]]) [[1; 1; -1]])).
  assert (Hgram : gram = [[3]]).
  { unfold gram, mat_mul, transpose, dot, column, map2, ncols, diagonal_inverse, identity3.
    cbn. do 2 f_equal. field. }
  rewrite Hgram, (checked_scalar 3) by lra.
  unfold mat_vec, mat_mul, transpose, dot, column, map2, ncols, diagonal_inverse, identity3.
  cbn. f_equal. f_equal; [field|]. f_equal; [field|]. f_equal. field.
Qed.

Lemma dot_zero (row r : vec) : Forall (fun v => v = 0) r -> dot row r = 0.
Proof.
  intros Hr. unfold dot, map2. revert row.
  induction Hr as [|v r -> _ IH]; intros [|a row]; cbn [combine map Rsum]; try reflexivity.
  cbn [fst snd]. rewrite IH. ring.
Qed.

Lemma length_mat_mul (A B : matrix) : length (mat_mul A B) = length A.
Proof. apply length_map. Qed.

Lemma map_const_zero {A : Type} (l : list A) : map (fun _ => 0) l = zeros (length l).
Proof.
  unfold zeros. induction l as [|a l IH]; cbn [map length repeat]; congruence.
Qed.

Lemma plus_zeros (v : vec) : map2 Rplus v (zeros (length v)) = v.
Proof.
  unfold map2, zeros. induction v as [|a v IH]; cbn [length repeat combine map].
  - reflexivity.
  - cbn [fst snd]. rewrite IH. f_equal. ring.
Qed.

Section Engine.

Variable inverse : matrix -> option matrix.

(** The backend inverts the weight matrix, to a matrix with one row per
    output, and the matrix [J W^-1 J^T] of the sample: the engine does
    not fail at this raw prediction. *)
Definition engine_accepts (prep : DataPreprocessor) (c : Constraint) (W : matrix)
    (prediction input : vec) : Prop :=
  let y_phys := denormalize_output prep prediction in
  let J := jacobian c input y_phys in
  exists Winv G,
    inverse W = Some Winv /\
    length Winv = length y_phys /\
    inverse (mat_mul (mat_mul J Winv) (transpose (ncols J) J)) = Some G.

(** A zero residual gives a zero correction, whatever the gain. *)
Lemma correction_of_zero_residual (W J Winv G : matrix) (r : vec) :
  inverse W = Some Winv ->
  inverse (mat_mul (mat_mul J Winv) (transpose (ncols J) J)) = Some G ->
  Forall (fun v => v = 0) r ->
  correction inverse W J r = Some (zeros (length Winv)).
Proof.
  intros HW HG Hr. unfold correction. rewrite HW, HG. f_equal.
  unfold mat_vec. rewrite map_map.
  rewrite (map_ext _ (fun _ => 0)).
  - now rewrite map_const_zero, !length_mat_mul.
  - intros row. rewrite (dot_zero row r Hr). ring.
Qed.

(** Without the inverse of [J W^-1 J^T] there is no correction, whatever
    the residual. *)
Lemma correction_refused (W J Winv : matrix) (r : vec) :
  inverse W = Some Winv ->
  inverse (mat_mul (mat_mul J Winv) (transpose (ncols J) J)) = None ->
  correction inverse W J r = None.
Proof. intros HW HG. unfold correction. now rewrite HW, HG. Qed.

(** A backend that answers with true right inverses only. *)
Definition inverts : Prop :=
  forall A B, inverse A = Some B ->
              mat_mul A B
              = map (fun i => map (fun j => if Nat.eqb i j then 1 else 0)
                                  (seq 0 (length A)))
                    (seq 0 (length A)).

Lemma nth_all_zero (row : vec) (j : nat) :
  Forall (fun v => v = 0) row -> nth j row 0 = 0.
Proof.
  intros Hrow. revert j. induction Hrow as [|v row -> _ IH]; intros [|j];
    cbn [nth]; try reflexivity. apply IH.
Qed.

Lemma column_all_zero (M : matrix) (j : nat) :
  Forall (Forall (fun v => v = 0)) M -> Forall (fun v => v = 0) (column j M).
Proof.
  intros HM. unfold column. apply Forall_map.
  induction HM as [|row M Hrow _ IH]; constructor; [now apply nth_all_zero | exact IH].
Qed.

Lemma dot_zero_left (row r : vec) : Forall (fun v => v = 0) row -> dot row r = 0.
Proof.
  intros Hrow. unfold dot, map2. revert r.
  induction Hrow as [|v row -> _ IH]; intros [|a r]; cbn [combine map Rsum]; try reflexivity.
  cbn [fst snd]. rewrite IH. ring.
Qed.

(** A product with a zero matrix on the right, or on the left, is zero. *)
Lemma mat_mul_zero_right (A B : matrix) :
  Forall (Forall (fun v => v = 0)) B -> Forall (Forall (fun v => v = 0)) (mat_mul A B).
Proof.
  intros HB. unfold mat_mul. apply Forall_map, Forall_forall. intros row _.
  apply Forall_map, Forall_forall. intros j _.
  apply dot_zero. now apply column_all_zero.
Qed.

Lemma mat_mul_zero_left (A B : matrix) :
  Forall (Forall (fun v => v = 0)) A -> Forall (Forall (fun v => v = 0)) (mat_mul A B).
Proof.
  intros HA. unfold mat_mul. apply Forall_map.
  induction HA as [|row A Hrow _ IH]; constructor; [|exact IH].
  apply Forall_map, Forall_forall. intros j _. now apply dot_zero_left.
Qed.

Lemma transpose_zero (n_cols : nat) (J : matrix) :
  Forall (Forall (fun v => v = 0)) J ->
  Forall (Forall (fun v => v = 0)) (transpose n_cols J).
Proof.
  intros HJ. unfold transpose. apply Forall_map, Forall_forall. intros j _.
  now apply column_all_zero.
Qed.

(** Where the Jacobian vanishes, [J W^-1 J^T] is the zero matrix, which
    has no inverse: a backend that answers with inverses only refuses
    it, and there is no correction, whatever the residual. *)
Lemma zero_jacobian_refused (W J Winv : matrix) (r : vec) :
  inverts ->
  inverse W = Some Winv ->
  J <> [] ->
  Forall (Forall (fun v => v = 0)) J ->
  correction inverse W J r = None.
Proof.
  intros Hinv HW Hne HJ. apply (correction_refused W J Winv r HW).
  set (gram := mat_mul (mat_mul J Winv) (transpose (ncols J) J)).
  destruct (inverse gram) as [G|] eqn:HG; [exfalso | reflexivity].
  assert (Hzero : Forall (Forall (fun v => v = 0)) (mat_mul gram G)).
  { apply mat_mul_zero_left. unfold gram. apply mat_mul_zero_right.
    now apply transpose_zero. }
  rewrite (Hinv gram G HG) in Hzero.
  assert (Hlen : length gram = length J) by (unfold gram; now rewrite !length_mat_mul).
  rewrite Hlen in Hzero. destruct J as [|row J]; [contradiction|].
  cbn [length seq map Nat.eqb] in Hzero.
  inversion Hzero as [|? ? Hfirst _]; subst.
  inversion Hfirst as [|? ? Hone _]; subst. lra.
Qed.


End Engine.

(** A scaler that leaves values as they are. *)
Definition identity_scaler : Scaler :=
  {| transform := fun v => v; inverse_transform := fun v => v |}.

Definition toy_preprocessing : DataPreprocessor :=
  {| skewed_features_in := []; skewed_features_out := [];
     scalers_input := [];
     scalers_output := [identity_scaler; identity_scaler; identity_scaler] |}.


(** The constraint [y1 * y2 = 0]; its Jacobian vanishes where both
    factors do. *)
Definition product_constraint : Constraint :=
  {| residual := fun _ out => [nth 0 out 0 * nth 1 out 0];
     jacobian := fun _ out => [[nth 1 out 0; nth 0 out 0; 0]] |}.


End ProjectionFacts.

(* ================================================================== *)
(** ** A missing checkpoint *)
(* ================================================================== *)

Module CheckpointFacts.
Import Tensor Python Training.

Section Claim.

Context {Settings Losses Dataset Loader Preprocessed : Type}.
Variable env : Collaborators Settings Losses Dataset Loader Preprocessed.
Variable config : Config Settings.


End Claim.

(** A run without checkpoint files: every collaborator succeeds, but
    [load_checkpoints] finds nothing to read. *)
Definition no_checkpoints : Collaborators unit unit unit unit unit :=
  {| cuda_is_available := false;
     makedirs := fun _ => Ok tt;
     DataLoader := fun _ _ => Ok tt;
     get_trained_bootstraped_models := fun _ _ _ _ _ _ _ _ => Ok ([], tt, 0%R);
     load_checkpoints := fun _ dir => Raise (FileNotFoundError dir);
     select_random_rows := fun file _ => Ok file;
     load_dataset := fun _ _ => Ok {| DataPrep.x := [[1%R]]; DataPrep.y := [[2%R]] |};
     setup_dataset_with_preproprocessing_info := fun _ _ _ => Ok (tt, tt, tt);
     train_data := fun _ => tt;
     val_data := fun _ => tt;
     losses_incomplete := fun _ => false |}.

Definition retraining_disabled : Config unit :=
  {| nn_model := {| RETRAIN_MODEL := false; batch_size := 32; settings := tt |};
     pinn_model := {| RETRAIN_MODEL := false; batch_size := 32; settings := tt |};
     plotting := tt |}.


Example sweep_checkpoint_dir :
  Figure_6a.checkpoint_dir 12 =
  "output/ltp_system/checkpoints/different_architectures/architecture_12"%string.
Proof. reflexivity. Qed.

End CheckpointFacts.

(* ================================================================== *)
(** ** The columns of the two tables *)
(* ================================================================== *)

Module Tables.
Import Tensor PyDict Pandas.
Local Open Scope string_scope.

(** The column set the specification gives for the sweep table. *)
Definition specified_sweep_columns : list string :=
  ["params"; "mapes_nn"; "uncertanties_mape_nn"; "mapes_proj"; "rmses_nn"; "rmses_proj";
   "model_training_time"].

(** The columns [run_experiment_6a] names in its [data] dictionary. *)
Definition sweep_columns : list string :=
  ["architectures"; "num_params"; "mapes_nn"; "uncertanties_mape_nn"; "mapes_proj";
   "rmses_nn"; "rmses_proj"; "model_training_time"].

Definition compliance_columns : list string := ["nn_model"; "pinn_model"; "loki_model"].

Lemma mapM_length {A B : Type} (f : A -> option B) (l : list A) (l' : list B) :
  Figure_6a.mapM f l = Some l' -> length l' = length l.
Proof.
  revert l'. induction l as [|a l IH]; intros l'; cbn [Figure_6a.mapM].
  - now intros [= <-].
  - destruct (f a) as [b|]; [|discriminate]. cbn [Figure_6a.bind].
    destruct (Figure_6a.mapM f l) as [bs|]; [|discriminate]. cbn [Figure_6a.bind].
    intros [= <-]. cbn [length]. f_equal. now apply IH.
Qed.

Lemma length_insert_row (j : nat) (r : cell * list cell) (sorted : list (cell * list cell)) :
  length (insert_row j r sorted) = S (length sorted).
Proof.
  induction sorted as [|r' sorted IH]; [reflexivity|].
  cbn [insert_row]. destruct (cell_le _ _); cbn [length]; [reflexivity|].
  now rewrite IH.
Qed.

Lemma length_sorted (j : nat) (l : list (cell * list cell)) :
  length (fold_right (insert_row j) [] l) = length l.
Proof.
  induction l as [|r l IH]; [reflexivity|].
  cbn [fold_right length]. now rewrite length_insert_row, IH.
Qed.

Section SweepTable.

Variable evaluate_architecture : nat -> list Z -> option Figure_6a.result_row.
Variable read_csv : string -> option DataFrame.

(** With retraining enabled, a sweep over at least one architecture,
    each of which is evaluated, writes a table under the eight column
    names of the [data] dictionary, one line per architecture. *)
Lemma sweep_table (archs : list (list Z)) (results : list Figure_6a.result_row) :
  archs <> [] ->
  Figure_6a.mapM (fun '(idx, hidden_sizes) => evaluate_architecture idx hidden_sizes)
                 (Figure_6a.enumerate archs) = Some results ->
  exists df csv,
    Figure_6a.run_experiment_6a evaluate_architecture read_csv true archs
    = Some (df, Some csv) /\
    columns df = sweep_columns /\
    header csv = sweep_columns /\
    length (lines csv) = length archs.
Proof.
  intros Hne Hresults.
  pose proof (mapM_length _ _ _ Hresults) as Hlen.
  rewrite LoadData.length_enumerate in Hlen.
  unfold Figure_6a.run_experiment_6a. rewrite Hresults. cbn [Figure_6a.bind].
  destruct results as [|row results];
    [destruct archs; [contradiction | discriminate]|].
  remember (row :: results) as rs eqn:Hrs.
  assert (Hunzip : exists t, Figure_6a.unzip_results rs = Some t /\
            t = (map (fun '(a, _, _, _, _, _, _) => a) rs,
                 map (fun '(_, b, _, _, _, _, _) => b) rs,
                 map (fun '(_, _, c, _, _, _, _) => c) rs,
                 map (fun '(_, _, _, d, _, _, _) => d) rs,
                 map (fun '(_, _, _, _, e, _, _) => e) rs,
                 map (fun '(_, _, _, _, _, f, _) => f) rs,
                 map (fun '(_, _, _, _, _, _, t) => t) rs)).
  { subst rs. eexists. split; reflexivity. }
  destruct Hunzip as (t & -> & ->). clear Hrs. cbn [Figure_6a.bind].
  unfold from_columns. cbn [of_items fold_left set fst snd String.eqb Ascii.eqb
                            Bool.eqb values keys map hd forallb].
  unfold Figure_6a.result_row in *.
  rewrite !length_map, Hlen, Nat.eqb_refl. cbn [andb Figure_6a.bind].
  unfold sort_values. cbn [columns position String.eqb Ascii.eqb Bool.eqb].
  cbn [Figure_6a.bind]. eexists. eexists. split; [reflexivity|].
  cbn [columns to_csv header lines rows index]. split; [reflexivity|].
  split; [reflexivity|].
  now rewrite length_map, length_sorted, length_combine, !length_map, !length_seq,
    Nat.min_id.
Qed.

End SweepTable.

(** The keys of a dictionary after [d[k] = v]. *)
Lemma keys_set {V : Type} (k k' : string) (v : V) (d : dict V) :
  In k' (keys (set k v d)) <-> k' = k \/ In k' (keys d).
Proof.
  induction d as [|[k0 v0] d IH]; cbn [set keys map fst In].
  - split; [intros [<-|[]]; now left | intros [->|[]]; now left].
  - destruct (String.eqb k k0) eqn:Hk; cbn [keys map fst In].
    + apply String.eqb_eq in Hk as <-. split.
      * intros [<-|Hin]; [now left | right; now right].
      * intros [->|[<-|Hin]]; [now left | now left | now right].
    + unfold keys in IH. rewrite IH. split.
      * intros [<-|[->|Hin]]; [right; now left | now left | right; now right].
      * intros [->|[<-|Hin]]; [right; now left | now left | right; now right].
Qed.

Lemma NoDup_set {V : Type} (k : string) (v : V) (d : dict V) :
  NoDup (keys d) -> NoDup (keys (set k v d)).
Proof.
  induction d as [|[k0 v0] d IH]; cbn [set keys map fst]; intros Hnd.
  - constructor; [intros [] | constructor].
  - inversion Hnd as [|? ? Hnot Hrest]; subst.
    destruct (String.eqb k k0) eqn:Hk; cbn [keys map fst].
    + apply String.eqb_eq in Hk as <-. now constructor.
    + apply String.eqb_neq in Hk. constructor; [|now apply IH].
      intros Hin. apply (keys_set k k0 v d) in Hin as [Heq|Hin]; [congruence|].
      now apply Hnot.
Qed.

(** A dictionary display has every key of its items, each once. *)
Lemma keys_fold_set {V : Type} (items : list (string * V)) (d : dict V) :
  NoDup (keys d) ->
  NoDup (keys (fold_left (fun d kv => set (fst kv) (snd kv) d) items d)) /\
  forall k, In k (keys (fold_left (fun d kv => set (fst kv) (snd kv) d) items d))
            <-> In k (map fst items) \/ In k (keys d).
Proof.
  revert d. induction items as [|[k1 v1] items IH]; intros d Hnd; cbn [fold_left map fst snd].
  - split; [exact Hnd|]. intros k. cbn [In]. tauto.
  - destruct (IH (set k1 v1 d) (NoDup_set k1 v1 d Hnd)) as [Hnd' Hin]. split; [exact Hnd'|].
    intros k. rewrite Hin, keys_set. cbn [In]. split.
    + intros [H|[->|H]]; [left; now right | left; now left | now right].
    + intros [[<-|H]|H]; [right; now left | now left | right; now right].
Qed.

Lemma keys_of_items {V : Type} (items : list (string * V)) :
  NoDup (keys (of_items items)) /\
  forall k, In k (keys (of_items items)) <-> In k (map fst items).
Proof.
  destruct (keys_fold_set items [] (NoDup_nil _)) as [Hnd Hin]. split; [exact Hnd|].
  intros k. unfold of_items. rewrite Hin. cbn [keys map In]. tauto.
Qed.

Lemma get_Some_In {V : Type} (k : string) (d : dict V) (v : V) :
  get k d = Some v -> In k (keys d).
Proof.
  induction d as [|[k0 v0] d IH]; cbn [get keys map fst In]; [discriminate|].
  destruct (String.eqb k k0) eqn:Hk.
  - apply String.eqb_eq in Hk. intros _. now left.
  - intros Hget. right. now apply IH.
Qed.

Section ComplianceTable.

Context {Preprocessed : Type}.
Variable compute_mape_physical_laws :
  string -> Preprocessed -> list PinnNN.NeuralNetwork -> matrix -> string -> dict (dict R).
Variable compute_mape_physical_laws_loki :
  string -> Preprocessed -> matrix -> dict (dict R).

(** When each of the three computations returns its errors under the
    name of its model, the compliance table has one column per model,
    after the column of row labels, and one line per law of the
    network's dictionary, labelled by the law's name. *)
Lemma compliance_table (file_name : string) (preprocessed_data : Preprocessed)
    (nn_models pinn_models : list PinnNN.NeuralNetwork)
    (nn_errors pinn_errors loki_errors : dict R) :
  compute_mape_physical_laws file_name preprocessed_data nn_models (Main.eye 17) "nn_model"
  = [("nn_model", nn_errors)] ->
  compute_mape_physical_laws file_name preprocessed_data pinn_models (Main.eye 17)
                             "pinn_model"
  = [("pinn_model", pinn_errors)] ->
  compute_mape_physical_laws_loki file_name preprocessed_data (Main.eye 17)
  = [("loki_model", loki_errors)] ->
  exists laws_dict csv,
    Main.get_laws_dict compute_mape_physical_laws compute_mape_physical_laws_loki
      file_name preprocessed_data nn_models pinn_models = Some (laws_dict, csv) /\
    keys laws_dict = compliance_columns /\
    header csv = "" :: compliance_columns /\
    map (hd NaN) (lines csv) = map Label (keys nn_errors).
Proof.
  intros Hnn Hpinn Hloki. unfold Main.get_laws_dict.
  rewrite Hnn, Hpinn, Hloki.
  cbn [app of_items fold_left set fst snd get String.eqb Ascii.eqb Bool.eqb].
  eexists. eexists. split; [reflexivity|].
  split; [reflexivity|]. split; [reflexivity|].
  unfold to_csv, from_nested. cbn [lines index rows].
  rewrite LoadData.map2_map_both, map_map. reflexivity.
Qed.

(** Whatever the three computations return, a compliance table that is
    written has, after the column of row labels, one column per model
    name under which one of them returned errors, each name once and
    [nn_model] among them, and one line per law of the dictionary that
    the network's computation returned under [nn_model]. *)
Lemma compliance_table_written (file_name : string) (preprocessed_data : Preprocessed)
    (nn_models pinn_models : list PinnNN.NeuralNetwork)
    (laws_dict : dict (dict R)) (csv : CsvFile) :
  Main.get_laws_dict compute_mape_physical_laws compute_mape_physical_laws_loki
    file_name preprocessed_data nn_models pinn_models = Some (laws_dict, csv) ->
  header csv = "" :: keys laws_dict /\
  NoDup (keys laws_dict) /\
  (forall name,
      In name (keys laws_dict) <->
      In name (keys (compute_mape_physical_laws file_name preprocessed_data nn_models
                       (Main.eye 17) "nn_model")) \/
      In name (keys (compute_mape_physical_laws file_name preprocessed_data pinn_models
                       (Main.eye 17) "pinn_model")) \/
      In name (keys (compute_mape_physical_laws_loki file_name preprocessed_data
                       (Main.eye 17)))) /\
  In "nn_model" (keys laws_dict) /\
  exists nn_errors,
    get "nn_model" (compute_mape_physical_laws file_name preprocessed_data nn_models
                      (Main.eye 17) "nn_model") = Some nn_errors /\
    map (hd NaN) (lines csv) = map Label (keys nn_errors).
Proof.
  unfold Main.get_laws_dict.
  set (nn := compute_mape_physical_laws file_name preprocessed_data nn_models
               (Main.eye 17) "nn_model").
  set (pinn := compute_mape_physical_laws file_name preprocessed_data pinn_models
                 (Main.eye 17) "pinn_model").
  set (loki := compute_mape_physical_laws_loki file_name preprocessed_data (Main.eye 17)).
  destruct (get "nn_model" nn) as [nn_errors|] eqn:Hget; [|discriminate].
  intros [= <- <-].
  destruct (keys_of_items (nn ++ pinn ++ loki)%list) as [Hnd Hin].
  assert (Hnames : forall name,
             In name (keys (of_items (nn ++ pinn ++ loki)%list)) <->
             In name (keys nn) \/ In name (keys pinn) \/ In name (keys loki)).
  { intros name. rewrite Hin, !map_app, !in_app_iff. reflexivity. }
  split; [reflexivity|]. split; [exact Hnd|]. split; [exact Hnames|].
  split; [apply Hnames; left; exact (get_Some_In _ _ _ Hget)|].
  exists nn_errors. split; [reflexivity|].
  unfold to_csv, from_nested. cbn [lines index rows].
  rewrite LoadData.map2_map_both, map_map. reflexivity.
Qed.

End ComplianceTable.

(** C8, as amended.  With [RETRAIN_MODEL] enabled, a sweep over at least
    one architecture writes its results under the eight columns
    [architectures, num_params, mapes_nn, uncertanties_mape_nn,
    mapes_proj, rmses_nn, rmses_proj, model_training_time], one line
    per architecture.  The compliance table that [get_laws_dict]
    writes has, after the column of law names, one column per model
    name under which one of the three computations of compliance errors
    returned its errors, each name once and [nn_model] among them, and
    one line per law of the network's dictionary, labelled by the law's
    name; the columns are [nn_model], [pinn_model], [loki_model] when
    each computation returns its dictionary under its model's name. *)
Theorem table_columns :
  (forall evaluate_architecture read_csv archs results,
      archs <> [] ->
      Figure_6a.mapM (fun '(idx, hidden_sizes) => evaluate_architecture idx hidden_sizes)
                     (Figure_6a.enumerate archs) = Some results ->
      exists df csv,
        Figure_6a.run_experiment_6a evaluate_architecture read_csv true archs
        = Some (df, Some csv) /\
        header csv = sweep_columns /\
        length (lines csv) = length archs)
  /\
  (forall (Preprocessed : Type) compute_mape_physical_laws compute_mape_physical_laws_loki
          file_name (preprocessed_data : Preprocessed) nn_models pinn_models
          laws_dict csv,
      Main.get_laws_dict compute_mape_physical_laws compute_mape_physical_laws_loki
        file_name preprocessed_data nn_models pinn_models = Some (laws_dict, csv) ->
      header csv = "" :: keys laws_dict /\
      NoDup (keys laws_dict) /\
      (forall name,
          In name (keys laws_dict) <->
          In name (keys (compute_mape_physical_laws file_name preprocessed_data nn_models
                           (Main.eye 17) "nn_model")) \/
          In name (keys (compute_mape_physical_laws file_name preprocessed_data pinn_models
                           (Main.eye 17) "pinn_model")) \/
          In name (keys (compute_mape_physical_laws_loki file_name preprocessed_data
                           (Main.eye 17)))) /\
      In "nn_model" (keys laws_dict) /\
      exists nn_errors,
        get "nn_model" (compute_mape_physical_laws file_name preprocessed_data nn_models
                          (Main.eye 17) "nn_model") = Some nn_errors /\
        map (hd NaN) (lines csv) = map Label (keys nn_errors))
  /\
  (forall (Preprocessed : Type) compute_mape_physical_laws compute_mape_physical_laws_loki
          file_name (preprocessed_data : Preprocessed) nn_models pinn_models
          nn_errors pinn_errors loki_errors,
      compute_mape_physical_laws file_name preprocessed_data nn_models (Main.eye 17)
                                 "nn_model" = [("nn_model", nn_errors)] ->
      compute_mape_physical_laws file_name preprocessed_data pinn_models (Main.eye 17)
                                 "pinn_model" = [("pinn_model", pinn_errors)] ->
      compute_mape_physical_laws_loki file_name preprocessed_data (Main.eye 17)
      = [("loki_model", loki_errors)] ->
      exists laws_dict csv,
        Main.get_laws_dict compute_mape_physical_laws compute_mape_physical_laws_loki
          file_name preprocessed_data nn_models pinn_models = Some (laws_dict, csv) /\
        header csv = "" :: compliance_columns /\
        map (hd NaN) (lines csv) = map Label (keys nn_errors)).
Proof.
  split; [|split].
  - intros evaluate_architecture read_csv archs results Hne Hresults.
    destruct (sweep_table evaluate_architecture read_csv archs results Hne Hresults)
      as (df & csv & Hrun & _ & Hheader & Hlines).
    now exists df, csv.
  - intros Preprocessed laws loki file_name preprocessed_data nn_models pinn_models
           laws_dict csv Hrun.
    exact (compliance_table_written laws loki file_name preprocessed_data nn_models
             pinn_models laws_dict csv Hrun).
  - intros Preprocessed laws loki file_name preprocessed_data nn_models pinn_models
           nn_errors pinn_errors loki_errors Hnn Hpinn Hloki.
    destruct (compliance_table laws loki file_name preprocessed_data nn_models pinn_models
                nn_errors pinn_errors loki_errors Hnn Hpinn Hloki)
      as (laws_dict & csv & Hrun & _ & Hheader & Hlabels).
    now exists laws_dict, csv.
Qed.

(** A sweep over the single architecture [[5]], with all metrics zero. *)
Definition one_architecture (idx : nat) (hidden_sizes : list Z)
  : option Figure_6a.result_row :=
  Some (Figure_6a.compute_parameters hidden_sizes, 0, 0, 0, 0, 0, 0)%R.

Definition no_results_file (path : string) : option DataFrame := None.

(** A sweep over no architecture has no result to unpack: the
    assignment from [zip( *results)] raises and no table is written. *)
Example empty_sweep_raises :
  Figure_6a.run_experiment_6a one_architecture no_results_file true [] = None.
Proof. reflexivity. Qed.

(** The network and the PINN report under their own names. *)
Definition named_errors (file_name : string) (data : unit)
    (models : list PinnNN.NeuralNetwork) (w : matrix) (name : string) : dict (dict R) :=
  [(name, [("quasi_neutrality", 0%R)])].

(** LoKI's errors, reported under the name [loki]. *)
Definition loki_errors_as_loki (file_name : string) (data : unit) (w : matrix)
  : dict (dict R) :=
  [("loki", [("quasi_neutrality", 0%R)])].

Lemma table_columns_witness :
  (exists df csv,
      Figure_6a.run_experiment_6a one_architecture no_results_file true [[5%Z]]
      = Some (df, Some csv) /\
      header csv = sweep_columns /\
      length (lines csv) = 1%nat)
  /\
  (exists laws_dict csv,
      Main.get_laws_dict named_errors loki_errors_as_loki "test.txt" tt [] []
      = Some (laws_dict, csv) /\
      header csv = [""; "nn_model"; "pinn_model"; "loki"] /\
      In "nn_model" (keys laws_dict) /\
      map (hd NaN) (lines csv) = [Label "quasi_neutrality"])
  /\
  (exists laws_dict csv,
      Main.get_laws_dict
        (fun _ (_ : unit) _ _ name => [(name, [("quasi_neutrality", 0%R)])])
        (fun _ _ _ => [("loki_model", [("quasi_neutrality", 0%R)])])
        "test.txt" tt [] [] = Some (laws_dict, csv) /\
      header csv = "" :: compliance_columns /\
      map (hd NaN) (lines csv) = [Label "quasi_neutrality"]).
Proof.
  destruct table_columns as (Hsweep & Hwritten & Hlaws). split; [|split].
  - apply (Hsweep one_architecture no_results_file [[5%Z]] [(105%Z, 0, 0, 0, 0, 0, 0)%R]).
    + discriminate.
    + reflexivity.
  - eexists. eexists. split; [reflexivity|].
    destruct (Hwritten unit named_errors loki_errors_as_loki "test.txt" tt [] [] _ _ eq_refl)
      as (Hheader & _ & _ & Hnn & nn_errors & Hget & Hlabels).
    split; [exact Hheader|]. split; [exact Hnn|].
    injection Hget as <-. exact Hlabels.
  - exact (Hlaws unit
             (fun _ (_ : unit) _ _ name => [(name, [("quasi_neutrality", 0%R)])])
             (fun _ _ _ => [("loki_model", [("quasi_neutrality", 0%R)])])
             "test.txt" tt [] [] _ _ _ eq_refl eq_refl eq_refl).
Defined.

(** C8, as stated, fails for the sweep table: the file written for the
    sweep over [[5]] has the columns [architectures] and [num_params],
    which the specified set lacks, and no column [params], so its
    column set is not the specified one. *)
Lemma sweep_columns_counterexample :
  exists df csv,
    Figure_6a.run_experiment_6a one_architecture no_results_file true [[5%Z]]
    = Some (df, Some csv) /\
    In "architectures" (header csv) /\
    In "num_params" (header csv) /\
    ~ In "params" (header csv) /\
    ~ (forall c, In c (header csv) <-> In c specified_sweep_columns).
Proof.
  eexists. eexists. split; [reflexivity|]. cbn [header to_csv columns].
  assert (Hno : ~ In "architectures" specified_sweep_columns).
  { unfold specified_sweep_columns. cbn [In].
    intros H. repeat (destruct H as [H|H]; [discriminate H|]). exact H. }
  split; [now left|]. split; [right; now left|]. split.
  - cbn [In]. intros H. repeat (destruct H as [H|H]; [discriminate H|]). exact H.
  - intros Hall. apply Hno, Hall. now left.
Qed.

End Tables.

(* ================================================================== *)
(** ** Parameter counts of the architectures of a sweep *)
(* ================================================================== *)

Module SweepBounds.
Import Figure_6a ListUpdate ParameterCount RandomSweep.
Local Open Scope Z_scope.

Lemma compute_parameters_sum (h : list Z) :
  compute_parameters h = consecutive_products (3 :: h ++ [17]) + Zsum h.
Proof.
  unfold compute_parameters.
  now rewrite hidden_layers_slice, (indexed_products ([3] ++ h ++ [17])).
Qed.

Lemma consecutive_products_monotone (a a' : Z) (l l' : list Z) :
  0 <= a <= a' ->
  Forall2 (fun w w' => 0 <= w <= w') l l' ->
  consecutive_products (a :: l ++ [17]) <= consecutive_products (a' :: l' ++ [17]).
Proof.
  intros Ha Hl. revert a a' Ha.
  induction Hl as [|w w' l l' Hw _ IH]; intros a a' Ha.
  - cbn. lia.
  - change (consecutive_products (a :: (w :: l) ++ [17]))
      with (a * w + consecutive_products (w :: l ++ [17])).
    change (consecutive_products (a' :: (w' :: l') ++ [17]))
      with (a' * w' + consecutive_products (w' :: l' ++ [17])).
    specialize (IH w w' Hw). nia.
Qed.

Lemma Zsum_monotone (l l' : list Z) :
  Forall2 (fun w w' => 0 <= w <= w') l l' -> Zsum l <= Zsum l'.
Proof.
  induction 1 as [|w w' l l' Hw _ IH]; cbn [Zsum]; lia.
Qed.

(** Weights plus hidden biases grow with the widths. *)
Lemma count_monotone (l l' : list Z) :
  Forall2 (fun w w' => 0 <= w <= w') l l' ->
  consecutive_products (3 :: l ++ [17]) + Zsum l <=
  consecutive_products (3 :: l' ++ [17]) + Zsum l'.
Proof.
  intros Hl.
  pose proof (consecutive_products_monotone 3 3 l l' ltac:(lia) Hl).
  pose proof (Zsum_monotone l l' Hl). lia.
Qed.

Lemma consecutive_products_uniform (m : Z) (k : nat) (a : Z) :
  consecutive_products (a :: repeat m (S k) ++ [17]) =
  a * m + Z.of_nat k * (m * m) + 17 * m.
Proof.
  revert a. induction k as [|k IH]; intros a.
  - change (consecutive_products (a :: repeat m 1 ++ [17])) with (a * m + (m * 17 + 0)).
    change (Z.of_nat 0) with 0. ring.
  - change (consecutive_products (a :: repeat m (S (S k)) ++ [17]))
      with (a * m + consecutive_products (m :: repeat m (S k) ++ [17])).
    rewrite IH, (Nat2Z.inj_succ k). ring.
Qed.

Lemma Zsum_repeat (m : Z) (k : nat) : Zsum (repeat m k) = Z.of_nat k * m.
Proof.
  induction k as [|k IH]; [reflexivity|].
  cbn [repeat Zsum]. rewrite IH, Nat2Z.inj_succ. ring.
Qed.

(** The count of [k + 1] layers of [m] neurons each. *)
Lemma count_uniform (m : Z) (k : nat) :
  consecutive_products (3 :: repeat m (S k) ++ [17]) + Zsum (repeat m (S k)) =
  21 * m + Z.of_nat k * (m * m + m).
Proof.
  rewrite consecutive_products_uniform, Zsum_repeat, Nat2Z.inj_succ. ring.
Qed.

(** X1.  Widening layers never lowers the count: when every hidden
    layer of [h'] is at least as wide as the layer of [h] at the same
    place, the widths being non-negative, [compute_parameters h] is at
    most [compute_parameters h']. *)
Theorem compute_parameters_monotone (h h' : list Z) :
  Forall2 (fun w w' => 0 <= w <= w') h h' ->
  compute_parameters h <= compute_parameters h'.
Proof.
  intros Hh. rewrite !compute_parameters_sum. now apply count_monotone.
Qed.

Lemma compute_parameters_monotone_witness :
  compute_parameters [2; 3] <= compute_parameters [2; 5].
Proof.
  apply compute_parameters_monotone.
  constructor; [lia|]. constructor; [lia|]. constructor.
Defined.

(** X2.  A network of [k + 1] hidden layers of [m] neurons each has
    [21 m + k (m^2 + m)] parameters by [compute_parameters]; a single
    hidden layer of [m] neurons has [21 m]. *)
Theorem compute_parameters_uniform (m : Z) (k : nat) :
  compute_parameters (repeat m (S k)) = 21 * m + Z.of_nat k * (m * m + m) /\
  compute_parameters [m] = 21 * m.
Proof.
  split.
  - rewrite compute_parameters_sum. apply count_uniform.
  - rewrite compute_parameters_sum.
    change (consecutive_products (3 :: [m] ++ [17])) with (3 * m + (m * 17 + 0)).
    cbn [Zsum]. ring.
Qed.

Lemma uniform_below (lo hi : Z) (arch : list Z) :
  0 <= lo -> Forall (fun size => lo <= size <= hi) arch ->
  Forall2 (fun w w' => 0 <= w <= w') (repeat lo (length arch)) arch /\
  Forall2 (fun w w' => 0 <= w <= w') arch (repeat hi (length arch)).
Proof.
  intros Hlo Harch.
  induction Harch as [|size arch Hsize _ [IHlo IHhi]]; cbn [length repeat].
  - split; constructor.
  - split; (constructor; [lia | assumption]).
Qed.

(** More layers of one width give more parameters, from one layer on. *)
Lemma count_more_layers (m : Z) (k k' : nat) :
  0 <= m -> (1 <= k <= k')%nat ->
  consecutive_products (3 :: repeat m k ++ [17]) + Zsum (repeat m k) <=
  consecutive_products (3 :: repeat m k' ++ [17]) + Zsum (repeat m k').
Proof.
  intros Hm [Hk Hkk']. destruct k as [|k]; [lia|]. destruct k' as [|k']; [lia|].
  rewrite !count_uniform.
  apply Z.add_le_mono_l, Z.mul_le_mono_nonneg_r; [nia | lia].
Qed.

(** The count of an architecture within the limits lies between the
    counts of the narrowest shallowest and of the widest deepest one. *)
Lemma count_within_limits (options : Options) (arch : list Z) :
  (1 <= min_hidden_layers options)%nat ->
  0 <= min_neurons_per_layer options ->
  architecture_in_range options arch ->
  min_parameters options <= compute_parameters arch <= max_parameters options.
Proof.
  intros Hlayers Hneurons [Hlen Hsizes].
  destruct (uniform_below _ _ arch Hneurons Hsizes) as [Hlo Hhi].
  assert (Hmax : 0 <= max_neurons_per_layer options).
  { destruct Hsizes as [|size arch Hsize _]; [cbn [length] in Hlen; lia | lia]. }
  unfold min_parameters, max_parameters. rewrite !compute_parameters_sum.
  pose proof (count_monotone _ _ Hlo) as H1.
  pose proof (count_monotone _ _ Hhi) as H2.
  pose proof (count_more_layers (min_neurons_per_layer options)
                (min_hidden_layers options) (length arch) Hneurons ltac:(lia)) as H3.
  pose proof (count_more_layers (max_neurons_per_layer options)
                (length arch) (max_hidden_layers options) Hmax ltac:(lia)) as H4.
  lia.
Qed.

(** X3.  With at least one hidden layer required and no negative width
    allowed, every value of the histogram drawn from architectures
    within the limits of [options] lies between the two dashed lines
    [min_parameters] and [max_parameters]. *)
Theorem histogram_between_lines (options : Options) (architectures : list (list Z)) :
  (1 <= min_hidden_layers options)%nat ->
  0 <= min_neurons_per_layer options ->
  Forall (architecture_in_range options) architectures ->
  let '(min_parameters, max_parameters, params_list) :=
    Figure_6a_Plots.plot_histogram_with_params architectures options in
  Forall (fun params => min_parameters <= params <= max_parameters) params_list.
Proof.
  intros Hlayers Hneurons Hall. unfold Figure_6a_Plots.plot_histogram_with_params.
  apply Forall_map. apply (Forall_impl _ (P := architecture_in_range options)).
  - intros arch Harch. apply (count_within_limits options arch Hlayers Hneurons Harch).
  - exact Hall.
Qed.

Lemma histogram_between_lines_witness :
  Forall (fun params => 21 <= params <= 63) [42; 21].
Proof.
  apply (histogram_between_lines
           {| min_neurons_per_layer := 1; max_neurons_per_layer := 3; n_steps := 2;
              max_hidden_layers := 1; min_hidden_layers := 1 |} [[2]; [1]]).
  - cbn. lia.
  - cbn. lia.
  - constructor; [|constructor; [|constructor]];
      (split; [cbn; lia | constructor; [cbn; lia | constructor]]).
Defined.

(** Without a required hidden layer the lower line can lie above a
    drawn architecture: no hidden layer counts 51 parameters, one
    hidden neuron counts 21. *)
Example lower_line_without_hidden_layer :
  Figure_6a_Plots.plot_histogram_with_params [[1]]
    {| min_neurons_per_layer := 1; max_neurons_per_layer := 3; n_steps := 2;
       max_hidden_layers := 1; min_hidden_layers := 0 |} = (51, 63, [21]).
Proof. reflexivity. Qed.

End SweepBounds.

(* ================================================================== *)
(** ** The bins of a sweep *)
(* ================================================================== *)

From Stdlib Require Lqa.

Module SweepBins.
Import Figure_6a ListUpdate RandomSweep.
Local Open Scope Q_scope.

#[local] Existing Instance counter_source.

(** The common width of the bins. *)
Definition bin_step (options : Options) : Q :=
  (inject_Z (max_parameters options) - inject_Z (min_parameters options)) /
  inject_Z (Z.of_nat (n_steps options)).

Lemma bin_edge (options : Options) (i : nat) :
  (i <= n_steps options)%nat ->
  nth i (bin_edges options) 0 ==
  inject_Z (min_parameters options) + inject_Z (Z.of_nat i) * bin_step options.
Proof.
  intros Hi. unfold bin_edges, bin_step, min_parameters, max_parameters.
  now apply linspace_uniform.
Qed.

Lemma inject_nat_nonneg (i : nat) : 0 <= inject_Z (Z.of_nat i).
Proof. change 0 with (inject_Z 0). rewrite <- Zle_Qle. lia. Qed.

Lemma inject_nat_le (i j : nat) :
  (i <= j)%nat -> inject_Z (Z.of_nat i) <= inject_Z (Z.of_nat j).
Proof. intros Hij. rewrite <- Zle_Qle. lia. Qed.

Lemma inject_nat_succ (i : nat) :
  inject_Z (Z.of_nat (i + 1)) == inject_Z (Z.of_nat i) + 1.
Proof.
  rewrite Nat2Z.inj_add, inject_Z_plus. reflexivity.
Qed.

(** All the bins together span from [min_parameters] to [max_parameters]. *)
Lemma steps_span (options : Options) :
  (1 <= n_steps options)%nat ->
  inject_Z (Z.of_nat (n_steps options)) * bin_step options ==
  inject_Z (max_parameters options) - inject_Z (min_parameters options).
Proof.
  intros Hn. unfold bin_step. field.
  change 0 with (inject_Z 0). rewrite inject_Z_injective. lia.
Qed.

(** The edges of a bin, as the comparison of [in_bin] reads them. *)
Lemma in_bin_edges (bins : list Q) (p : Z) (i : nat) :
  in_bin bins p i = true <-> nth i bins 0 <= inject_Z p /\ inject_Z p < nth (i + 1) bins 0.
Proof.
  unfold in_bin. rewrite andb_true_iff, negb_true_iff, Qle_bool_iff. split.
  - intros [Hlo Hhi]. split; [exact Hlo|].
    apply Qnot_le_lt. intros Hle. apply Qle_bool_iff in Hle. congruence.
  - intros [Hlo Hhi]. split; [exact Hlo|].
    destruct (Qle_bool (nth (i + 1) bins 0) (inject_Z p)) eqn:Hle; [|reflexivity].
    apply Qle_bool_iff in Hle. exfalso. exact (Qlt_not_le _ _ Hhi Hle).
Qed.

(** A bin that holds a count has a positive width. *)
Lemma occupied_bin_step (options : Options) (p : Z) (i : nat) :
  (i < n_steps options)%nat ->
  in_bin (bin_edges options) p i = true ->
  0 < bin_step options.
Proof.
  intros Hi Hbin. apply in_bin_edges in Hbin as [Hlo Hhi].
  rewrite (bin_edge options i) in Hlo by lia.
  rewrite (bin_edge options (i + 1)) in Hhi by lia.
  rewrite inject_nat_succ in Hhi. Lqa.lra.
Qed.

(** With a non-negative step the edges ascend. *)
Lemma edges_ascend (options : Options) (i j : nat) :
  0 <= bin_step options -> (i <= j <= n_steps options)%nat ->
  nth i (bin_edges options) 0 <= nth j (bin_edges options) 0.
Proof.
  intros Hstep [Hij Hj].
  rewrite (bin_edge options i), (bin_edge options j) by lia.
  pose proof (Qmult_le_compat_r _ _ _ (inject_nat_le i j Hij) Hstep). Lqa.lra.
Qed.

(** A count that a bin holds lies from [min_parameters] on and below
    [max_parameters]. *)
Lemma in_bin_range (options : Options) (p : Z) (i : nat) :
  (i < n_steps options)%nat ->
  in_bin (bin_edges options) p i = true ->
  (min_parameters options <= p < max_parameters options)%Z.
Proof.
  intros Hi Hbin.
  pose proof (occupied_bin_step options p i Hi Hbin) as Hstep.
  apply in_bin_edges in Hbin as [Hlo Hhi].
  assert (Hstep' : 0 <= bin_step options) by Lqa.lra.
  pose proof (edges_ascend options 0 i Hstep' ltac:(lia)) as Hfirst.
  pose proof (edges_ascend options (i + 1) (n_steps options) Hstep' ltac:(lia)) as Hlast.
  rewrite (bin_edge options 0) in Hfirst by lia.
  rewrite (bin_edge options (n_steps options)) in Hlast by lia.
  rewrite (steps_span options) in Hlast by lia.
  change (inject_Z (Z.of_nat 0)) with 0 in Hfirst.
  rewrite Zle_Qle, Zlt_Qlt. split; Lqa.lra.
Qed.

Lemma first_free_bin_in_bin (bins : list Q) (bin_filled : list bool) (p : Z) (i : nat) :
  first_free_bin bins bin_filled p = Some i ->
  (i < length bins - 1)%nat /\ in_bin bins p i = true /\ nth i bin_filled false = false.
Proof.
  unfold first_free_bin. intros Hfind. apply find_some in Hfind as [Hin Htest].
  apply in_seq in Hin. apply andb_true_iff in Htest as [Hbin Hfree].
  apply negb_true_iff in Hfree. split; [lia|]. now split.
Qed.

(** X4.  A parameter count below [min_parameters], or equal to or above
    [max_parameters], is accepted by no bin, whatever bins are filled:
    the inner loop finds none.  In particular the architecture of
    [max_hidden_layers] layers of [max_neurons_per_layer] neurons, whose
    count is [max_parameters], is always discarded. *)
Theorem outside_counts_discarded (options : Options) (bin_filled : list bool) (p : Z) :
  ((p < min_parameters options)%Z \/ (max_parameters options <= p)%Z) ->
  first_free_bin (bin_edges options) bin_filled p = None.
Proof.
  intros Hout.
  destruct (first_free_bin (bin_edges options) bin_filled p) as [i|] eqn:Hfind;
    [|reflexivity].
  apply first_free_bin_in_bin in Hfind as (Hi & Hbin & _).
  rewrite length_bin_edges in Hi.
  pose proof (in_bin_range options p i ltac:(lia) Hbin). lia.
Qed.

Lemma outside_counts_discarded_witness :
  first_free_bin
    (bin_edges {| min_neurons_per_layer := 1; max_neurons_per_layer := 3; n_steps := 2;
                  max_hidden_layers := 1; min_hidden_layers := 1 |})
    [false; false] (compute_parameters [3%Z]) = None.
Proof.
  apply outside_counts_discarded. right. vm_compute. discriminate.
Defined.

Section Returned.

Context {G : Type} `{RandomSource G}.

(** Whatever holds of every architecture a bin accepts holds of every
    architecture the loop returns. *)
Lemma fill_bins_accepted (P : list Z -> Prop) (options : Options) (bins : list Q) :
  (forall arch bin_filled i,
      first_free_bin bins bin_filled (compute_parameters arch) = Some i -> P arch) ->
  forall (fuel : nat) (architectures : list (list Z)) (bin_filled : list bool)
         (g g' : G) (result : list (list Z)),
    Forall P architectures ->
    fill_bins fuel options bins architectures bin_filled g = Returns (result, g') ->
    Forall P result.
Proof.
  intros HP. induction fuel as [|fuel IH];
    intros architectures bin_filled g g' result Hall; cbn [fill_bins];
    destruct (length architectures <? n_steps options)%nat.
  - discriminate.
  - now intros [= <- _].
  - destruct (generate_random_architecture _ _ _ _ g) as [[arch g1]|]; [|discriminate].
    destruct (first_free_bin bins bin_filled (compute_parameters arch)) as [i|] eqn:Hfind.
    + apply IH. apply Forall_app. split; [exact Hall|].
      constructor; [|constructor]. exact (HP _ _ _ Hfind).
    + now apply IH.
  - now intros [= <- _].
Qed.

Lemma returned_counts (fuel : nat) (options : Options) (g g' : G)
    (architectures : list (list Z)) :
  get_random_architectures fuel options g = Returns (architectures, g') ->
  Forall (fun arch =>
            (min_parameters options <= compute_parameters arch < max_parameters options)%Z)
         architectures.
Proof.
  intros Hrun. unfold get_random_architectures in Hrun.
  refine (fill_bins_accepted _ options (bin_edges options) _ fuel [] _ g g'
            architectures (Forall_nil _) Hrun).
  intros arch bin_filled i Hfind.
  apply first_free_bin_in_bin in Hfind as (Hi & Hbin & _).
  rewrite length_bin_edges in Hi.
  exact (in_bin_range options _ i ltac:(lia) Hbin).
Qed.

(** X5.  Whenever [get_random_architectures] returns, every returned
    architecture has at least [min_parameters] and fewer than
    [max_parameters] parameters. *)
Theorem returned_counts_in_range (fuel : nat) (options : Options) (g g' : G)
    (architectures : list (list Z)) :
  get_random_architectures fuel options g = Returns (architectures, g') ->
  forall arch, In arch architectures ->
    (min_parameters options <= compute_parameters arch < max_parameters options)%Z.
Proof.
  intros Hrun arch Hin.
  pose proof (returned_counts fuel options g g' architectures Hrun) as Hall.
  rewrite Forall_forall in Hall. now apply Hall.
Qed.

(** X6.  When [max_parameters] is not above [min_parameters] (only one
    architecture is possible, say) and at least one architecture is asked
    for, [get_random_architectures] never returns: the loop runs until
    its random source raises, or for ever. *)
Theorem degenerate_range_never_returns (fuel : nat) (options : Options) (g : G) :
  (1 <= n_steps options)%nat ->
  (max_parameters options <= min_parameters options)%Z ->
  forall result, get_random_architectures fuel options g <> Returns result.
Proof.
  intros Hn Hdegenerate [architectures g'] Hrun.
  pose proof (returned_counts fuel options g g' architectures Hrun) as Hall.
  unfold get_random_architectures in Hrun.
  destruct (fill_bins_returns options (bin_edges options) fuel (length_bin_edges options)
              [] _ [] g g' architectures
              (sweep_invariant_start options (bin_edges options))
              (Nat.le_0_l _) Hrun) as [Hlen _].
  destruct Hall as [|arch rest Harch _]; [cbn [length] in Hlen; lia | lia].
Qed.

(** X7.  When no architecture is asked for ([n_steps = 0]),
    [get_random_architectures] returns the empty list at once, without
    drawing from the random source; when at least one architecture is
    asked for, it never returns the empty list. *)
Theorem empty_sweep (options : Options) :
  (n_steps options = 0%nat ->
   forall fuel (g : G), get_random_architectures fuel options g = Returns ([], g)) /\
  ((1 <= n_steps options)%nat ->
   forall fuel (g g' : G),
     get_random_architectures fuel options g <> Returns ([], g')).
Proof.
  split.
  - intros Hn fuel g. unfold get_random_architectures.
    destruct fuel; cbn [fill_bins length]; rewrite Hn; reflexivity.
  - intros Hn fuel g g' Hrun. unfold get_random_architectures in Hrun.
    destruct (fill_bins_returns options (bin_edges options) fuel (length_bin_edges options)
                [] _ [] g g' [] (sweep_invariant_start options (bin_edges options))
                (Nat.le_0_l _) Hrun) as [Hlen _].
    cbn [length] in Hlen. lia.
Qed.

End Returned.

Lemma returned_counts_in_range_witness :
  (21 <= compute_parameters [2%Z] < 63)%Z.
Proof.
  apply (returned_counts_in_range 2
           {| min_neurons_per_layer := 1; max_neurons_per_layer := 3; n_steps := 2;
              max_hidden_layers := 1; min_hidden_layers := 1 |} 0%Z 4%Z [[2%Z]; [1%Z]]).
  - vm_compute. reflexivity.
  - left. reflexivity.
Defined.

Lemma degenerate_range_never_returns_witness :
  get_random_architectures 7
    {| min_neurons_per_layer := 2; max_neurons_per_layer := 2; n_steps := 1;
       max_hidden_layers := 1; min_hidden_layers := 1 |} 0%Z
  <> Returns ([[2%Z]], 2%Z).
Proof.
  apply degenerate_range_never_returns.
  - cbn. lia.
  - vm_compute. discriminate.
Defined.

Example degenerate_range_out_of_fuel :
  get_random_architectures 7
    {| min_neurons_per_layer := 2; max_neurons_per_layer := 2; n_steps := 1;
       max_hidden_layers := 1; min_hidden_layers := 1 |} 0%Z = OutOfFuel.
Proof. vm_compute. reflexivity. Qed.

(** Between an edge at or below [P] and a later edge above [P], two
    consecutive edges enclose [P]. *)
Lemma crossing (b : nat -> Q) (P : Q) (n : nat) :
  b 0%nat <= P -> P < b n ->
  exists i, (i < n)%nat /\ b i <= P /\ P < b (i + 1)%nat.
Proof.
  induction n as [|n IH]; intros Hlo Hhi.
  - exfalso. exact (Qlt_not_le _ _ Hhi Hlo).
  - destruct (Qlt_le_dec P (b n)) as [Hlt|Hge].
    + destruct (IH Hlo Hlt) as (i & Hi & H1 & H2).
      exists i. split; [lia|]. now split.
    + exists n. split; [lia|]. split; [exact Hge|]. now rewrite Nat.add_1_r.
Qed.

(** X8.  The bins leave no gap and do not overlap: when at least one
    architecture is asked for, every parameter count from
    [min_parameters] on and below [max_parameters] lies in exactly one
    bin. *)
Theorem each_count_in_one_bin (options : Options) (p : Z) :
  (1 <= n_steps options)%nat ->
  (min_parameters options <= p < max_parameters options)%Z ->
  exists i, (i < n_steps options)%nat /\
            in_bin (bin_edges options) p i = true /\
            forall j, (j < n_steps options)%nat ->
                      in_bin (bin_edges options) p j = true -> j = i.
Proof.
  intros Hn [Hmin Hmax]. rewrite Zle_Qle in Hmin. rewrite Zlt_Qlt in Hmax.
  destruct (crossing (fun j => nth j (bin_edges options) 0) (inject_Z p) (n_steps options))
    as (i & Hi & Hlo & Hhi).
  - rewrite (bin_edge options 0) by lia.
    change (inject_Z (Z.of_nat 0)) with 0. Lqa.lra.
  - rewrite (bin_edge options (n_steps options)), (steps_span options) by lia. Lqa.lra.
  - assert (Hbin : in_bin (bin_edges options) p i = true)
      by (apply in_bin_edges; now split).
    exists i. split; [exact Hi|]. split; [exact Hbin|].
    intros j Hj Hbin'.
    pose proof (occupied_bin_step options p i Hi Hbin) as Hstep.
    assert (Hstep' : 0 <= bin_step options) by Lqa.lra.
    apply in_bin_edges in Hbin' as [Hlo' Hhi'].
    destruct (Nat.lt_trichotomy j i) as [Hlt|[Heq|Hgt]]; [|exact Heq|].
    + pose proof (edges_ascend options (j + 1) i Hstep' ltac:(lia)). Lqa.lra.
    + pose proof (edges_ascend options (i + 1) j Hstep' ltac:(lia)). Lqa.lra.
Qed.

Lemma each_count_in_one_bin_witness :
  exists i, (i < 2)%nat /\
            in_bin (bin_edges {| min_neurons_per_layer := 1; max_neurons_per_layer := 3;
                                 n_steps := 2; max_hidden_layers := 1;
                                 min_hidden_layers := 1 |}) 42 i = true /\
            forall j, (j < 2)%nat ->
                      in_bin (bin_edges {| min_neurons_per_layer := 1;
                                           max_neurons_per_layer := 3; n_steps := 2;
                                           max_hidden_layers := 1;
                                           min_hidden_layers := 1 |}) 42 j = true ->
                      j = i.
Proof.
  apply (each_count_in_one_bin
           {| min_neurons_per_layer := 1; max_neurons_per_layer := 3; n_steps := 2;
              max_hidden_layers := 1; min_hidden_layers := 1 |} 42).
  - cbn. lia.
  - vm_compute. split; [discriminate | reflexivity].
Defined.

End SweepBins.

(* ================================================================== *)
(** ** [get_mape_uncertainty]: what the result depends on *)
(* ================================================================== *)

Module UncertaintyFacts.
Import Tensor TensorFacts MetricFacts MapeUncertainty.
Local Open Scope R_scope.

(** The accumulator of the loop, sample by sample. *)
Lemma get_mape_uncertainty_rows (T U : matrix) :
  Figure_6a.get_mape_uncertainty T U =
  sqrt (Rsum (map (fun i => Figure_6a.sample_term (nth i T []) (nth i U []))
                  (seq 0 (length T))))
  / INR (length T).
Proof.
  unfold Figure_6a.get_mape_uncertainty.
  rewrite (fold_left_accumulate
             (fun i => Figure_6a.sample_term (nth i T []) (nth i U []))).
  now rewrite Rplus_0_l.
Qed.

Lemma masked_select_map (f : R -> R) (row : vec) (mask : list bool) :
  Figure_6a.masked_select (map f row) mask = map f (Figure_6a.masked_select row mask).
Proof.
  unfold Figure_6a.masked_select. revert mask.
  induction row as [|v row IH]; intros [|b mask]; cbn [map combine filter]; try reflexivity.
  cbn [snd]. destruct b; cbn [map fst]; now rewrite IH.
Qed.

(** Scaling the uncertainties of a sample scales its term by the square. *)
Lemma sample_term_scaled (c : R) (target_row uncertainty_row : vec) :
  Figure_6a.sample_term target_row (map (Rmult c) uncertainty_row) =
  c ^ 2 * Figure_6a.sample_term target_row uncertainty_row.
Proof.
  unfold Figure_6a.sample_term. rewrite masked_select_map.
  generalize (Figure_6a.masked_select uncertainty_row (Figure_6a.non_zero_mask target_row)).
  generalize (Figure_6a.masked_select target_row (Figure_6a.non_zero_mask target_row)).
  intros ts us. unfold map2. revert ts.
  induction us as [|u us IH]; intros [|t ts]; cbn [map combine Rsum fst snd]; try ring.
  rewrite IH. unfold Rdiv. ring.
Qed.

Lemma sample_term_nonneg (target_row uncertainty_row : vec) :
  0 <= Figure_6a.sample_term target_row uncertainty_row.
Proof.
  unfold Figure_6a.sample_term.
  generalize (map2 Rdiv
                (Figure_6a.masked_select uncertainty_row (Figure_6a.non_zero_mask target_row))
                (Figure_6a.masked_select target_row (Figure_6a.non_zero_mask target_row))).
  intros qs. induction qs as [|q qs IH]; cbn [map Rsum]; [lra|].
  pose proof (pow2_ge_0 q). lra.
Qed.

Lemma Rsum_nonneg {A : Type} (f : A -> R) (l : list A) :
  (forall a, 0 <= f a) -> 0 <= Rsum (map f l).
Proof.
  intros Hf. induction l as [|a l IH]; cbn [map Rsum]; [lra|].
  pose proof (Hf a). lra.
Qed.

Lemma nth_map_rows (f : R -> R) (U : matrix) (i : nat) :
  nth i (map (map f) U) [] = map f (nth i U []).
Proof. exact (map_nth (map f) U [] i). Qed.

(** X9.  Multiplying every prediction uncertainty by a factor [c >= 0]
    multiplies the MAPE uncertainty by [c]. *)
Theorem get_mape_uncertainty_scales (c : R) (T U : matrix) :
  0 <= c ->
  Figure_6a.get_mape_uncertainty T (map (map (Rmult c)) U) =
  c * Figure_6a.get_mape_uncertainty T U.
Proof.
  intros Hc. rewrite !get_mape_uncertainty_rows.
  rewrite (Rsum_map_ext _ (fun i => Figure_6a.sample_term (nth i T []) (nth i U []) * c ^ 2)).
  - rewrite Rsum_map_scale, Rmult_comm.
    rewrite sqrt_mult_alt by apply pow2_ge_0.
    replace (c ^ 2) with (c * c) by ring. rewrite (sqrt_square c Hc).
    unfold Rdiv. ring.
  - intros i _.
    etransitivity; [apply f_equal; exact (nth_map_rows (Rmult c) U i)|].
    rewrite sample_term_scaled. ring.
Qed.

Lemma get_mape_uncertainty_scales_witness :
  Figure_6a.get_mape_uncertainty [[0; 2; 4]] (map (map (Rmult 3)) [[1; 1; 1]]) =
  3 * Figure_6a.get_mape_uncertainty [[0; 2; 4]] [[1; 1; 1]].
Proof.
  apply get_mape_uncertainty_scales. lra.
Defined.

Lemma row_length (n d : nat) (M : matrix) (i : nat) :
  rectangular n d M -> (i < n)%nat -> length (nth i M []) = d.
Proof.
  intros [Hlen Hrows] Hi. rewrite Forall_forall in Hrows.
  apply Hrows, nth_In. now rewrite Hlen.
Qed.

(** Two rows of uncertainties that agree where the target is non-zero
    give the same term. *)
Lemma sample_term_agree (t u u' : vec) :
  length t = length u -> length t = length u' ->
  (forall j, nth j t 0 <> 0 -> nth j u 0 = nth j u' 0) ->
  Figure_6a.sample_term t u = Figure_6a.sample_term t u'.
Proof.
  intros Hu Hu' Hagree.
  rewrite (sample_term_pairs t u Hu), (sample_term_pairs t u' Hu'). f_equal.
  revert u u' Hu Hu' Hagree.
  induction t as [|a t IH]; intros [|b u] [|b' u'] Hu Hu' Hagree;
    cbn [length] in *; try discriminate; [reflexivity|].
  cbn [combine filter].
  change (Spec.target_non_zero (a, b)) with (Spec.target_non_zero (a, b')).
  assert (Hrest : map (fun '(t0, s) => (s / t0) ^ 2)
                      (filter Spec.target_non_zero (combine t u)) =
                  map (fun '(t0, s) => (s / t0) ^ 2)
                      (filter Spec.target_non_zero (combine t u'))).
  { apply IH; [lia | lia |]. intros j Hj. exact (Hagree (S j) Hj). }
  destruct (Spec.target_non_zero (a, b')) eqn:Hnz; [|exact Hrest].
  assert (Ha : a <> 0).
  { unfold Spec.target_non_zero in Hnz. cbn [fst] in Hnz.
    destruct (Req_dec_T a 0); [discriminate | assumption]. }
  cbn [map]. rewrite Hrest, (Hagree 0%nat Ha : b = b'). reflexivity.
Qed.

(** X10.  The MAPE uncertainty does not depend on the prediction
    uncertainties at entries whose target is zero: two arrays of
    uncertainties of the targets' shape that agree at every entry with a
    non-zero target give the same result. *)
Theorem get_mape_uncertainty_masked (n d : nat) (T U U' : matrix) :
  rectangular n d T -> rectangular n d U -> rectangular n d U' ->
  (forall i j, nth j (nth i T []) 0 <> 0 ->
               nth j (nth i U []) 0 = nth j (nth i U' []) 0) ->
  Figure_6a.get_mape_uncertainty T U = Figure_6a.get_mape_uncertainty T U'.
Proof.
  intros HT HU HU' Hagree. rewrite !get_mape_uncertainty_rows.
  f_equal. f_equal. apply Rsum_map_ext. intros i Hi. apply in_seq in Hi.
  assert (Hn : length T = n) by (now destruct HT).
  apply sample_term_agree.
  - now rewrite (row_length n d T i HT), (row_length n d U i HU) by lia.
  - now rewrite (row_length n d T i HT), (row_length n d U' i HU') by lia.
  - intros j. apply Hagree.
Qed.

Lemma get_mape_uncertainty_masked_witness :
  Figure_6a.get_mape_uncertainty [[0; 2]; [4; 0]] [[1; 2]; [3; 4]] =
  Figure_6a.get_mape_uncertainty [[0; 2]; [4; 0]] [[7; 2]; [3; 9]].
Proof.
  apply (get_mape_uncertainty_masked 2 2);
    try (split; [reflexivity | repeat constructor]).
  intros [|[|i]] [|[|j]] Hnz; cbn in *; try reflexivity; try (now contradiction Hnz);
    destruct i, j; cbn in *; try reflexivity; now contradiction Hnz.
Defined.

Lemma all_zero_scaled (u : vec) : Forall (fun v => v = 0) u -> u = map (Rmult 0) u.
Proof.
  induction 1 as [|v u -> _ IH]; cbn [map]; [reflexivity|].
  rewrite <- IH. f_equal. ring.
Qed.

Lemma masked_select_all_zero (row t : vec) :
  Forall (fun v => v = 0) t ->
  Figure_6a.masked_select row (Figure_6a.non_zero_mask t) = [].
Proof.
  unfold Figure_6a.masked_select, Figure_6a.non_zero_mask. intros Ht. revert row.
  induction Ht as [|v t -> _ IH]; intros [|r row]; cbn [map combine filter];
    try reflexivity.
  destruct (Req_dec_T 0 0) as [_|Hne]; [|now contradiction Hne].
  cbn [snd]. apply IH.
Qed.

(** A sample without information contributes nothing. *)
Lemma sample_term_zero (t u : vec) :
  Forall (fun v => v = 0) u \/ Forall (fun v => v = 0) t ->
  Figure_6a.sample_term t u = 0.
Proof.
  intros [Hu|Ht].
  - rewrite (all_zero_scaled u Hu), sample_term_scaled. ring.
  - unfold Figure_6a.sample_term. now rewrite !masked_select_all_zero.
Qed.

(** X11.  For a batch of at least one sample, the MAPE uncertainty is
    zero when every prediction uncertainty is zero, and also when every
    target is zero: all entries are then masked, and nothing is divided
    by a zero target. *)
Theorem get_mape_uncertainty_zero (n d : nat) (T U : matrix) :
  (1 <= n)%nat -> rectangular n d T -> rectangular n d U ->
  Forall (Forall (fun v => v = 0)) U \/ Forall (Forall (fun v => v = 0)) T ->
  Figure_6a.get_mape_uncertainty T U = 0.
Proof.
  intros Hn HT HU Hzero. rewrite get_mape_uncertainty_rows.
  rewrite (Rsum_map_ext _ (fun _ => 0 * 0)).
  - rewrite Rsum_map_scale, Rmult_0_r, sqrt_0. unfold Rdiv. apply Rmult_0_l.
  - intros i Hi. apply in_seq in Hi. rewrite Rmult_0_l.
    assert (Hlen : length T = n) by (now destruct HT).
    apply sample_term_zero. destruct Hzero as [HUz|HTz]; [left | right].
    + rewrite Forall_forall in HUz. apply HUz, nth_In.
      destruct HU as [HlU _]. rewrite HlU. lia.
    + rewrite Forall_forall in HTz. apply HTz, nth_In. lia.
Qed.

Lemma get_mape_uncertainty_zero_witness :
  Figure_6a.get_mape_uncertainty [[0; 0]] [[1; 2]] = 0.
Proof.
  apply (get_mape_uncertainty_zero 1 2).
  - lia.
  - split; [reflexivity | repeat constructor].
  - split; [reflexivity | repeat constructor].
  - right. repeat constructor.
Defined.

End UncertaintyFacts.

(* ================================================================== *)
(** ** The metrics of [evaluate_model]: zero errors, plain MAPE, shapes *)
(* ================================================================== *)

Module MetricExtras.
Import Tensor TensorFacts MetricFacts Evaluation EvaluationCases.
Local Open Scope R_scope.

Lemma length_entries (n d : nat) (T P : matrix) :
  rectangular n d T -> rectangular n d P -> length (Spec.entries T P) = (n * d)%nat.
Proof.
  intros HT HP. unfold Spec.entries.
  rewrite length_combine, (length_flatten n d T HT), (length_flatten n d P HP). lia.
Qed.

(** A sum of non-negative terms is zero only if every term is. *)
Lemma Rsum_zero_terms {A : Type} (f : A -> R) (l : list A) :
  (forall a, 0 <= f a) -> Rsum (map f l) = 0 -> forall a, In a l -> f a = 0.
Proof.
  intros Hf. induction l as [|b l IH]; cbn [map Rsum]; intros Hsum a Hin; [destruct Hin|].
  assert (Hrest : 0 <= Rsum (map f l)).
  { clear -Hf. induction l as [|c l IH]; cbn [map Rsum]; [lra|]. pose proof (Hf c). lra. }
  pose proof (Hf b). destruct Hin as [<-|Hin]; [lra|]. apply IH; [lra | exact Hin].
Qed.

Lemma Rsum_all_zero {A : Type} (f : A -> R) (l : list A) :
  (forall a, In a l -> f a = 0) -> Rsum (map f l) = 0.
Proof.
  intros Hf. induction l as [|b l IH]; cbn [map Rsum]; [reflexivity|].
  rewrite (Hf b (or_introl eq_refl)), IH; [ring|].
  intros a Ha. apply Hf. now right.
Qed.

(** The average of non-negative errors over a non-empty batch is zero
    exactly when every error is. *)
Lemma average_zero_iff {A : Type} (f : A -> R) (l : list A) :
  l <> [] -> (forall a, 0 <= f a) ->
  (average (map f l) = 0 <-> forall a, In a l -> f a = 0).
Proof.
  intros Hne Hf. unfold average. rewrite length_map.
  assert (Hlen : 0 < INR (length l)).
  { apply lt_0_INR. destruct l; [contradiction | cbn [length]; lia]. }
  split.
  - intros Havg. apply Rsum_zero_terms; [exact Hf|].
    apply (Rmult_eq_reg_r (/ INR (length l))).
    + unfold Rdiv in Havg. rewrite Havg. ring.
    + apply Rinv_neq_0_compat. lra.
  - intros Hall. rewrite (Rsum_all_zero f l Hall). unfold Rdiv. ring.
Qed.

(** Equal lengths and equal entries, pair by pair, make equal lists. *)
Lemma combine_diagonal {A : Type} (l l' : list A) :
  length l = length l' ->
  (forall a b, In (a, b) (combine l l') -> b = a) -> l' = l.
Proof.
  revert l'. induction l as [|a l IH]; intros [|b l'] Hlen Hall; cbn [length] in Hlen;
    try discriminate; [reflexivity|].
  f_equal.
  - apply Hall. now left.
  - apply IH; [lia|]. intros x y Hin. apply Hall. now right.
Qed.

(** Arrays of one shape with the same entries in a row are equal. *)
Lemma flatten_injective (A B : matrix) :
  Forall2 (fun ra rb : vec => length ra = length rb) A B ->
  flatten A = flatten B -> A = B.
Proof.
  unfold flatten. induction 1 as [|ra rb A B Hlen _ IH]; cbn [concat]; [reflexivity|].
  intros Heq.
  assert (Hsplit : ra = rb /\ concat A = concat B).
  { clear IH. revert rb Hlen Heq.
    induction ra as [|a ra IHr]; intros [|b rb] Hlen Heq; cbn [length] in Hlen;
      try discriminate; cbn [app] in Heq.
    - now split.
    - injection Heq as -> Heq. destruct (IHr rb ltac:(lia) Heq) as [-> Hc]. now split. }
  destruct Hsplit as [-> Hc]. f_equal. now apply IH.
Qed.

(** Every pair of entries agrees exactly when the arrays are equal. *)
Lemma entries_agree_iff (n d : nat) (T P : matrix) :
  rectangular n d T -> rectangular n d P ->
  ((forall tp, In tp (Spec.entries T P) -> snd tp = fst tp) <-> P = T).
Proof.
  intros HT HP. split.
  - intros Hall. symmetry. apply flatten_injective.
    + exact (rectangular_rows n d T P HT HP).
    + symmetry. apply combine_diagonal.
      * now rewrite (length_flatten n d T HT), (length_flatten n d P HP).
      * intros t p Hin. exact (Hall (t, p) Hin).
  - intros -> [t p] Hin. unfold Spec.entries in Hin. cbn [fst snd].
    clear -Hin. induction (flatten T) as [|a l IH]; [destruct Hin|].
    destruct Hin as [[= <- <-]|Hin]; [reflexivity | now apply IH].
Qed.

Lemma entries_nonempty (n d : nat) (T P : matrix) :
  (1 <= n)%nat -> (1 <= d)%nat -> rectangular n d T -> rectangular n d P ->
  Spec.entries T P <> [].
Proof.
  intros Hn Hd HT HP Hnil. pose proof (length_entries n d T P HT HP) as Hlen.
  rewrite Hnil in Hlen. cbn [length] in Hlen. nia.
Qed.

Lemma rmse_zero_iff (n d : nat) (T P : matrix) :
  (1 <= n)%nat -> (1 <= d)%nat -> rectangular n d T -> rectangular n d P ->
  (Spec.rmse_over_all_entries T P = 0 <-> P = T).
Proof.
  intros Hn Hd HT HP. unfold Spec.rmse_over_all_entries.
  rewrite <- (entries_agree_iff n d T P HT HP).
  pose proof (entries_nonempty n d T P Hn Hd HT HP) as Hne.
  assert (Hsq : forall tp : R * R, 0 <= (let '(t, p) := tp in (p - t) ^ 2))
    by (intros [t p]; apply pow2_ge_0).
  pose proof (average_zero_iff _ (Spec.entries T P) Hne Hsq) as Havg.
  assert (Hpos : 0 <= average (map (fun '(t, p) => (p - t) ^ 2) (Spec.entries T P))).
  { unfold average. rewrite length_map. apply Rmult_le_pos.
    - apply UncertaintyFacts.Rsum_nonneg. exact Hsq.
    - left. apply Rinv_0_lt_compat, lt_0_INR.
      destruct (Spec.entries T P); [contradiction | cbn [length]; lia]. }
  split.
  - intros Hroot [t p] Hin. apply (sqrt_eq_0 _ Hpos) in Hroot.
    pose proof (proj1 Havg Hroot (t, p) Hin) as Hzero. cbn [fst snd]. cbn beta iota in Hzero.
    nra.
  - intros Hall. rewrite (proj2 Havg); [exact sqrt_0|].
    intros [t p] Hin. specialize (Hall (t, p) Hin). cbn [fst snd] in Hall. subst p. ring.
Qed.

Lemma mape_zero_iff (n d : nat) (T P : matrix) :
  (1 <= n)%nat -> (1 <= d)%nat -> rectangular n d T -> rectangular n d P ->
  (Spec.mape_over_all_entries T P = 0 <-> P = T).
Proof.
  intros Hn Hd HT HP. unfold Spec.mape_over_all_entries.
  rewrite <- (entries_agree_iff n d T P HT HP).
  pose proof (entries_nonempty n d T P Hn Hd HT HP) as Hne.
  pose proof epsilon_bounds as [Heps _].
  assert (Hden : forall t, 0 < Rmax (Rabs t) Sklearn.epsilon).
  { intros t. pose proof (Rmax_r (Rabs t) Sklearn.epsilon). lra. }
  assert (Hape : forall tp : R * R,
             0 <= (let '(t, p) := tp in Rabs (p - t) / Rmax (Rabs t) Sklearn.epsilon)).
  { intros [t p]. apply Rmult_le_pos; [apply Rabs_pos|].
    left. apply Rinv_0_lt_compat, Hden. }
  rewrite (average_zero_iff _ (Spec.entries T P) Hne Hape). split.
  - intros Hall [t p] Hin. specialize (Hall (t, p) Hin). cbn beta iota in Hall.
    cbn [fst snd].
    assert (Habs : Rabs (p - t) = 0).
    { apply (Rmult_eq_reg_r (/ Rmax (Rabs t) Sklearn.epsilon)).
      - unfold Rdiv in Hall. rewrite Hall. ring.
      - apply Rinv_neq_0_compat. pose proof (Hden t). lra. }
    destruct (Req_dec (p - t) 0) as [Hz|Hnz]; [lra|].
    pose proof (Rabs_pos_lt _ Hnz). lra.
  - intros Hall [t p] Hin. specialize (Hall (t, p) Hin). cbn [fst snd] in Hall. subst p.
    replace (t - t) with 0 by ring. rewrite Rabs_R0. unfold Rdiv. ring.
Qed.

(** X12.  For targets and predictions of one shape, the RMSE that
    [evaluate_model] returns is zero exactly when every prediction equals
    its target, and so is the MAPE. *)
Theorem errors_zero_iff_exact (n d : nat) (nn_models : list PinnNN.NeuralNetwork)
    (X T P U : matrix) :
  (1 <= n)%nat -> (1 <= d)%nat -> rectangular n d T -> rectangular n d P ->
  PinnNN.get_average_predictions nn_models X = Some P ->
  PinnNN.get_predictive_uncertainty nn_models X = Some U ->
  exists mape mape_uncertainty rmse,
    Figure_6a.evaluate_model nn_models X T = Some (mape, mape_uncertainty, P, rmse) /\
    (rmse = 0 <-> P = T) /\
    (mape = 0 <-> P = T).
Proof.
  intros Hn Hd HT HP Havg Hunc.
  exists (Spec.mape_over_all_entries T P), (Figure_6a.get_mape_uncertainty T U),
         (Spec.rmse_over_all_entries T P).
  split; [now apply (evaluate_model_returns n d)|]. split.
  - now apply (rmse_zero_iff n d).
  - now apply (mape_zero_iff n d).
Qed.

Lemma errors_zero_iff_exact_witness :
  exists mape mape_uncertainty rmse,
    Figure_6a.evaluate_model [fun _ => [[5; 22 / 10; 44 / 10]]] [[0]] [[0; 2; 4]] =
    Some (mape, mape_uncertainty, [[5; 22 / 10; 44 / 10]], rmse) /\
    (rmse = 0 <-> [[5; 22 / 10; 44 / 10]] = [[0; 2; 4]]) /\
    (mape = 0 <-> [[5; 22 / 10; 44 / 10]] = [[0; 2; 4]]).
Proof.
  apply (errors_zero_iff_exact 1 3 _ _ _ _
           (PinnNN.across_models PinnNN.sem
              (PinnNN.stack [fun _ => [[5; 22 / 10; 44 / 10]]] [[0]]))).
  - lia.
  - lia.
  - split; [reflexivity | repeat constructor].
  - split; [reflexivity | repeat constructor].
  - apply single_model_row3.
  - reflexivity.
Defined.

(** The targets among the entries are entries of the target array. *)
Lemma entries_targets (T P : matrix) (t p : R) :
  In (t, p) (Spec.entries T P) -> exists row, In row T /\ In t row.
Proof.
  unfold Spec.entries. intros Hin. apply in_combine_l in Hin.
  unfold flatten in Hin. apply in_concat in Hin as (row & Hrow & Ht). now exists row.
Qed.

(** With no target below [epsilon] in magnitude, the library's MAPE is
    the mean of [|pred - target| / |target|], over all entries and over
    the entries with a non-zero target alike. *)
Lemma plain_mape (T P : matrix) :
  Forall (Forall (fun t => Sklearn.epsilon <= Rabs t)) T ->
  Spec.mape_over_all_entries T P = Spec.mape_over_non_zero_targets T P.
Proof.
  intros Hbig. pose proof epsilon_bounds as [Heps _].
  assert (Hentries : forall t p, In (t, p) (Spec.entries T P) ->
                                 Sklearn.epsilon <= Rabs t).
  { intros t p Hin. destruct (entries_targets T P t p Hin) as (row & Hrow & Ht).
    rewrite Forall_forall in Hbig. specialize (Hbig row Hrow).
    rewrite Forall_forall in Hbig. now apply Hbig. }
  unfold Spec.mape_over_all_entries, Spec.mape_over_non_zero_targets.
  replace (filter Spec.target_non_zero (Spec.entries T P)) with (Spec.entries T P).
  - f_equal. apply map_ext_in. intros [t p] Hin.
    now rewrite (Rmax_left _ _ (Hentries t p Hin)).
  - symmetry. apply forallb_filter_id. apply forallb_forall. intros [t p] Hin.
    unfold Spec.target_non_zero. cbn [fst].
    destruct (Req_dec_T t 0) as [->|_]; [|reflexivity].
    specialize (Hentries 0 p Hin). rewrite Rabs_R0 in Hentries. lra.
Qed.

(** X13.  When no target is smaller than [eps = 2^-52] in magnitude (so
    none is zero), the MAPE that [evaluate_model] returns is the plain
    mean of [|pred - target| / |target|], which is also the mean taken
    over the entries with a non-zero target. *)
Theorem mape_without_small_targets (n d : nat) (nn_models : list PinnNN.NeuralNetwork)
    (X T P U : matrix) :
  (1 <= n)%nat -> (1 <= d)%nat -> rectangular n d T -> rectangular n d P ->
  PinnNN.get_average_predictions nn_models X = Some P ->
  PinnNN.get_predictive_uncertainty nn_models X = Some U ->
  Forall (Forall (fun t => Sklearn.epsilon <= Rabs t)) T ->
  exists mape_uncertainty rmse,
    Figure_6a.evaluate_model nn_models X T =
    Some (Spec.mape_over_non_zero_targets T P, mape_uncertainty, P, rmse) /\
    Spec.mape_over_non_zero_targets T P =
    average (map (fun '(t, p) => Rabs (p - t) / Rabs t) (Spec.entries T P)).
Proof.
  intros Hn Hd HT HP Havg Hunc Hbig.
  exists (Figure_6a.get_mape_uncertainty T U), (Spec.rmse_over_all_entries T P).
  rewrite <- (plain_mape T P Hbig). split.
  - now apply (evaluate_model_returns n d).
  - pose proof epsilon_bounds as [Heps _].
    unfold Spec.mape_over_all_entries. f_equal. apply map_ext_in. intros [t p] Hin.
    destruct (entries_targets T P t p Hin) as (row & Hrow & Ht).
    rewrite Forall_forall in Hbig. specialize (Hbig row Hrow).
    rewrite Forall_forall in Hbig. now rewrite (Rmax_left _ _ (Hbig t Ht)).
Qed.

Lemma mape_without_small_targets_witness :
  exists mape_uncertainty rmse,
    Figure_6a.evaluate_model [fun _ => [[3; 22 / 10; 44 / 10]]] [[0]] [[1; 2; 4]] =
    Some (Spec.mape_over_non_zero_targets [[1; 2; 4]] [[3; 22 / 10; 44 / 10]],
          mape_uncertainty, [[3; 22 / 10; 44 / 10]], rmse) /\
    Spec.mape_over_non_zero_targets [[1; 2; 4]] [[3; 22 / 10; 44 / 10]] =
    average (map (fun '(t, p) => Rabs (p - t) / Rabs t)
                 (Spec.entries [[1; 2; 4]] [[3; 22 / 10; 44 / 10]])).
Proof.
  pose proof epsilon_bounds as [_ Heps].
  apply (mape_without_small_targets 1 3 _ _ _ _
           (PinnNN.across_models PinnNN.sem
              (PinnNN.stack [fun _ => [[3; 22 / 10; 44 / 10]]] [[0]]))).
  - lia.
  - lia.
  - split; [reflexivity | repeat constructor].
  - split; [reflexivity | repeat constructor].
  - apply single_model_row3.
  - reflexivity.
  - constructor; [|constructor].
    constructor; [|constructor; [|constructor; [|constructor]]];
      rewrite Rabs_pos_eq; lra.
Defined.

(** X14.  Once the ensemble has produced its mean prediction and its
    uncertainty, [evaluate_model] returns exactly when the targets have
    the predictions' shape, with at least one sample and one output;
    otherwise the metric functions raise. *)
Theorem evaluate_model_shapes (n d n' d' : nat) (nn_models : list PinnNN.NeuralNetwork)
    (X T P U : matrix) :
  rectangular n d T -> rectangular n' d' P ->
  PinnNN.get_average_predictions nn_models X = Some P ->
  PinnNN.get_predictive_uncertainty nn_models X = Some U ->
  (Figure_6a.evaluate_model nn_models X T <> None <->
   (n = n' /\ d = d' /\ 1 <= n /\ 1 <= d)%nat).
Proof.
  intros HT HP Havg Hunc. split.
  - intros Hrun. unfold Figure_6a.evaluate_model in Hrun.
    rewrite Havg, Hunc in Hrun. cbn [Figure_6a.bind] in Hrun.
    unfold Sklearn.mean_absolute_percentage_error in Hrun.
    destruct (Sklearn.check_reg_targets T P) eqn:Hcheck;
      [|now contradiction Hrun].
    unfold Sklearn.check_reg_targets in Hcheck.
    rewrite !andb_true_iff, !Nat.leb_le, !Nat.eqb_eq in Hcheck.
    destruct Hcheck as [[[Hn Hd] Hnn] Hdd].
    destruct HT as [HlT HrT], HP as [HlP HrP].
    assert (Hn1 : (1 <= n)%nat) by lia.
    assert (Hn1' : (1 <= n')%nat) by lia.
    rewrite (ncols_rectangular n d T Hn1 (conj HlT HrT)) in Hd, Hdd.
    rewrite (ncols_rectangular n' d' P Hn1' (conj HlP HrP)) in Hdd. lia.
  - intros (<- & <- & Hn & Hd).
    rewrite (evaluate_model_returns n d nn_models X T P U Hn Hd HT HP Havg Hunc).
    discriminate.
Qed.

Lemma evaluate_model_shapes_witness :
  Figure_6a.evaluate_model [fun _ => [[3; 22 / 10; 44 / 10]]] [[0]] [[1; 2]] <> None <->
  (1 = 1 /\ 2 = 3 /\ 1 <= 1 /\ 1 <= 2)%nat.
Proof.
  apply (evaluate_model_shapes 1 2 1 3 _ _ _ [[3; 22 / 10; 44 / 10]]
           (PinnNN.across_models PinnNN.sem
              (PinnNN.stack [fun _ => [[3; 22 / 10; 44 / 10]]] [[0]]))).
  - split; [reflexivity | repeat constructor].
  - split; [reflexivity | repeat constructor].
  - apply single_model_row3.
  - reflexivity.
Defined.

End MetricExtras.

(* ================================================================== *)
(** ** [load_data]: shapes, skew lists and failures *)
(* ================================================================== *)

Module LoadDataExtras.
Import Tensor TensorFacts DataPrep Figure_6a ListUpdate LoadData.
Local Open Scope R_scope.

Lemma scaled_columns_rectangular (n d : nat) (idx : list nat) (scalers : list Scaler)
    (M : matrix) :
  rectangular n d M -> rectangular n (length scalers) (scaled_columns idx scalers M).
Proof.
  intros [Hlen _]. unfold scaled_columns. split.
  - now rewrite length_map.
  - apply Forall_map, Forall_forall. intros row _.
    now rewrite length_map, length_enumerate.
Qed.

Lemma skewed_rectangular (n d : nat) (idx : list nat) (M : matrix) :
  rectangular n d M -> rectangular n d (skewed idx M).
Proof.
  intros [Hlen Hrows]. unfold skewed. split.
  - now rewrite length_map.
  - apply Forall_map. apply (Forall_impl _ (P := fun row => length row = d)); [|exact Hrows].
    intros row Hrow. now rewrite length_map, length_enumerate.
Qed.

Section Facts.

Variable read_dataset : string -> LoadDataset.

(** What [load_data] returns when nothing raises. *)
Lemma load_data_value (test_filename : string) (prep : DataPreprocessor)
    (n d_in d_out : nat) :
  (1 <= n)%nat ->
  rectangular n d_in (x (read_dataset test_filename)) ->
  rectangular n d_out (y (read_dataset test_filename)) ->
  Forall (fun j => (j < d_in)%nat) (skewed_features_in prep) ->
  Forall (fun j => (j < d_out)%nat) (skewed_features_out prep) ->
  (1 <= length (scalers_input prep) <= d_in)%nat ->
  (1 <= length (scalers_output prep) <= d_out)%nat ->
  load_data read_dataset test_filename prep =
  Some (scaled_columns (skewed_features_in prep) (scalers_input prep)
                       (x (read_dataset test_filename)),
        scaled_columns (skewed_features_out prep) (scalers_output prep)
                       (y (read_dataset test_filename))) /\
  rectangular n (length (scalers_input prep))
    (scaled_columns (skewed_features_in prep) (scalers_input prep)
                    (x (read_dataset test_filename))) /\
  rectangular n (length (scalers_output prep))
    (scaled_columns (skewed_features_out prep) (scalers_output prep)
                    (y (read_dataset test_filename))).
Proof.
  intros Hn Hx Hy Hin Hout Hsin Hsout. split; [|split].
  - unfold load_data.
    rewrite (skew_step n d_in _ _ Hn Hx Hin). cbn [bind].
    rewrite (skew_step n d_out _ _ Hn Hy Hout). cbn [bind].
    rewrite (normalize_columns n d_in _ _ _ Hn Hx Hsin). cbn [bind].
    rewrite (normalize_columns n d_out _ _ _ Hn Hy Hsout). cbn [bind].
    reflexivity.
  - exact (scaled_columns_rectangular n d_in _ _ _ Hx).
  - exact (scaled_columns_rectangular n d_out _ _ _ Hy).
Qed.

End Facts.

Lemma mem_In (j : nat) (idx : list nat) : mem j idx = true <-> In j idx.
Proof.
  unfold mem. rewrite existsb_exists. split.
  - intros (k & Hk & Heq). apply Nat.eqb_eq in Heq. now subst.
  - intros Hin. exists j. split; [exact Hin | apply Nat.eqb_refl].
Qed.

Lemma mem_same_members (idx idx' : list nat) :
  (forall j, In j idx <-> In j idx') -> forall j, mem j idx = mem j idx'.
Proof.
  intros Hsame j. destruct (mem j idx') eqn:Hm'.
  - apply mem_In. apply Hsame. now apply mem_In.
  - destruct (mem j idx) eqn:Hm; [|reflexivity].
    apply mem_In, Hsame, mem_In in Hm. congruence.
Qed.

Lemma scaled_columns_same_members (idx idx' : list nat) (scalers : list Scaler)
    (M : matrix) :
  (forall j, In j idx <-> In j idx') ->
  scaled_columns idx scalers M = scaled_columns idx' scalers M.
Proof.
  intros Hsame. unfold scaled_columns, skewed_value.
  apply map_ext. intros row. apply map_ext. intros [i sc].
  now rewrite (mem_same_members idx idx' Hsame i).
Qed.

Section Facts2.

Variable read_dataset : string -> LoadDataset.

(** X15.  When [load_data] returns (a dataset of [n >= 1] samples,
    skewed indices within the columns, one scaler for each of the first
    columns), the normalized inputs have [n] rows and as many columns as
    there are input scalers, and the normalized targets [n] rows and as
    many columns as there are output scalers. *)
Theorem load_data_shapes (test_filename : string) (prep : DataPreprocessor)
    (n d_in d_out : nat) :
  (1 <= n)%nat ->
  rectangular n d_in (x (read_dataset test_filename)) ->
  rectangular n d_out (y (read_dataset test_filename)) ->
  Forall (fun j => (j < d_in)%nat) (skewed_features_in prep) ->
  Forall (fun j => (j < d_out)%nat) (skewed_features_out prep) ->
  (1 <= length (scalers_input prep) <= d_in)%nat ->
  (1 <= length (scalers_output prep) <= d_out)%nat ->
  exists normalized_inputs normalized_targets,
    load_data read_dataset test_filename prep =
    Some (normalized_inputs, normalized_targets) /\
    rectangular n (length (scalers_input prep)) normalized_inputs /\
    rectangular n (length (scalers_output prep)) normalized_targets.
Proof.
  intros Hn Hx Hy Hin Hout Hsin Hsout.
  destruct (load_data_value read_dataset test_filename prep n d_in d_out
              Hn Hx Hy Hin Hout Hsin Hsout) as (Hrun & Hshape_in & Hshape_out).
  eexists. eexists. split; [exact Hrun|]. now split.
Qed.

(** X16.  Only membership in the skewed-feature lists matters to
    [load_data]: two preprocessing infos with the same scalers whose
    skew lists have the same members (in any order, with or without
    repetitions) give the same normalized arrays; a column listed twice
    goes through [log1p] once. *)
Theorem load_data_skew_sets (test_filename : string) (prep prep' : DataPreprocessor)
    (n d_in d_out : nat) :
  (1 <= n)%nat ->
  rectangular n d_in (x (read_dataset test_filename)) ->
  rectangular n d_out (y (read_dataset test_filename)) ->
  Forall (fun j => (j < d_in)%nat) (skewed_features_in prep) ->
  Forall (fun j => (j < d_out)%nat) (skewed_features_out prep) ->
  (1 <= length (scalers_input prep) <= d_in)%nat ->
  (1 <= length (scalers_output prep) <= d_out)%nat ->
  scalers_input prep' = scalers_input prep ->
  scalers_output prep' = scalers_output prep ->
  (forall j, In j (skewed_features_in prep) <-> In j (skewed_features_in prep')) ->
  (forall j, In j (skewed_features_out prep) <-> In j (skewed_features_out prep')) ->
  load_data read_dataset test_filename prep' = load_data read_dataset test_filename prep
  /\ load_data read_dataset test_filename prep <> None.
Proof.
  intros Hn Hx Hy Hin Hout Hsin Hsout Hs_in Hs_out Hmem_in Hmem_out.
  assert (Hin' : Forall (fun j => (j < d_in)%nat) (skewed_features_in prep')).
  { rewrite Forall_forall in *. intros j Hj. apply Hin, Hmem_in, Hj. }
  assert (Hout' : Forall (fun j => (j < d_out)%nat) (skewed_features_out prep')).
  { rewrite Forall_forall in *. intros j Hj. apply Hout, Hmem_out, Hj. }
  destruct (load_data_value read_dataset test_filename prep n d_in d_out
              Hn Hx Hy Hin Hout Hsin Hsout) as (Hrun & _).
  rewrite <- Hs_in in Hsin. rewrite <- Hs_out in Hsout.
  destruct (load_data_value read_dataset test_filename prep' n d_in d_out
              Hn Hx Hy Hin' Hout' Hsin Hsout) as (Hrun' & _).
  rewrite Hrun, Hrun', Hs_in, Hs_out. split; [|discriminate].
  now rewrite (scaled_columns_same_members _ _ _ _ Hmem_in),
              (scaled_columns_same_members _ _ _ _ Hmem_out).
Qed.

End Facts2.

Lemma load_data_shapes_witness :
  exists normalized_inputs normalized_targets,
    load_data (fun _ => {| x := [[1; 2; 3]]; y := [[4; 5]] |}) "test.txt"
      {| skewed_features_in := [2%nat]; skewed_features_out := [];
         scalers_input := [halving; halving; halving];
         scalers_output := [halving; halving] |}
    = Some (normalized_inputs, normalized_targets) /\
    rectangular 1 3 normalized_inputs /\ rectangular 1 2 normalized_targets.
Proof.
  apply (load_data_shapes (fun _ => {| x := [[1; 2; 3]]; y := [[4; 5]] |}) "test.txt"
           {| skewed_features_in := [2%nat]; skewed_features_out := [];
              scalers_input := [halving; halving; halving];
              scalers_output := [halving; halving] |} 1 3 2); cbn.
  - lia.
  - split; [reflexivity | repeat constructor].
  - split; [reflexivity | repeat constructor].
  - repeat constructor.
  - constructor.
  - lia.
  - lia.
Defined.

Lemma load_data_skew_sets_witness :
  load_data (fun _ => {| x := [[1; 2; 3]]; y := [[4; 5]] |}) "test.txt"
    {| skewed_features_in := [2; 0; 2]%nat; skewed_features_out := [];
       scalers_input := [halving; halving; halving];
       scalers_output := [halving; halving] |}
  = load_data (fun _ => {| x := [[1; 2; 3]]; y := [[4; 5]] |}) "test.txt"
      {| skewed_features_in := [0; 2]%nat; skewed_features_out := [];
         scalers_input := [halving; halving; halving];
         scalers_output := [halving; halving] |}
  /\ load_data (fun _ => {| x := [[1; 2; 3]]; y := [[4; 5]] |}) "test.txt"
      {| skewed_features_in := [0; 2]%nat; skewed_features_out := [];
         scalers_input := [halving; halving; halving];
         scalers_output := [halving; halving] |} <> None.
Proof.
  apply (load_data_skew_sets (fun _ => {| x := [[1; 2; 3]]; y := [[4; 5]] |}) "test.txt"
           {| skewed_features_in := [0; 2]%nat; skewed_features_out := [];
              scalers_input := [halving; halving; halving];
              scalers_output := [halving; halving] |}
           {| skewed_features_in := [2; 0; 2]%nat; skewed_features_out := [];
              scalers_input := [halving; halving; halving];
              scalers_output := [halving; halving] |} 1 3 2); cbn.
  - lia.
  - split; [reflexivity | repeat constructor].
  - split; [reflexivity | repeat constructor].
  - repeat constructor.
  - constructor.
  - lia.
  - lia.
  - reflexivity.
  - reflexivity.
  - intros j. split; intros Hj; repeat (destruct Hj as [Hj|Hj]; [subst; cbn; tauto|]);
      destruct Hj.
  - intros j. tauto.
Defined.

(** *** When [load_data] raises *)

Lemma mapM_each {A B : Type} (f : A -> option B) (l : list A) (l' : list B) :
  mapM f l = Some l' -> forall a, In a l -> f a <> None.
Proof.
  revert l'. induction l as [|b l IH]; intros l' Hrun a Hin; [destruct Hin|].
  cbn [mapM] in Hrun. destruct (f b) as [v|] eqn:Hb; [|discriminate].
  cbn [bind] in Hrun. destruct (mapM f l) as [vs|] eqn:Hrest; [|discriminate].
  destruct Hin as [<-|Hin]; [congruence | exact (IH vs eq_refl a Hin)].
Qed.

Lemma In_enumerate {A : Type} (l : list A) (i : nat) (d : A) :
  (i < length l)%nat -> In (i, nth i l d) (enumerate l).
Proof.
  intros Hi. unfold enumerate.
  replace (i, nth i l d) with (nth i (combine (seq 0 (length l)) l) (0%nat, d)).
  - apply nth_In. rewrite length_combine, length_seq. lia.
  - rewrite combine_nth by (now rewrite length_seq). now rewrite seq_nth.
Qed.

(** The skew step keeps the number of rows. *)
Lemma skew_step_length (idx : list nat) (M M' : matrix) :
  (if (0 <? length idx)%nat then log1p_columns idx M else Some M) = Some M' ->
  length M' = length M.
Proof.
  destruct (0 <? length idx)%nat; [|now intros [= <-]].
  unfold log1p_columns. destruct (forallb _ idx); [|discriminate].
  intros [= <-]. unfold assign_columns, take_columns.
  rewrite map_map, (map2_map_left (assign_entries idx)). apply length_map.
Qed.

(** The skew step raises on an index that is not a column. *)
Lemma skew_step_indices (n d : nat) (idx : list nat) (M M' : matrix) :
  (1 <= n)%nat -> rectangular n d M ->
  (if (0 <? length idx)%nat then log1p_columns idx M else Some M) = Some M' ->
  Forall (fun j => (j < d)%nat) idx.
Proof.
  intros Hn HM. destruct idx as [|j idx]; [constructor|].
  cbn [length Nat.ltb Nat.leb]. unfold log1p_columns.
  rewrite (ncols_rectangular n d M Hn HM).
  destruct (forallb (fun k => (k <? d)%nat) (j :: idx)) eqn:Hall; [|discriminate].
  intros _. apply Forall_forall. intros k Hk.
  rewrite forallb_forall in Hall. now apply Nat.ltb_lt, Hall.
Qed.

Lemma scaler_transform_Some (sc : Scaler) (X : matrix) :
  scaler_transform sc X <> None -> (1 <= length X)%nat /\ ncols X = 1%nat.
Proof.
  unfold scaler_transform.
  destruct ((1 <=? length X)%nat && (ncols X =? 1)%nat) eqn:Hcheck;
    [|intros Hne; now contradiction Hne].
  intros _. apply andb_true_iff in Hcheck as [H1 H2].
  now rewrite Nat.leb_le in H1; rewrite Nat.eqb_eq in H2.
Qed.

(** Scaling needs a scaler, a sample, and a column for every scaler. *)
Lemma normalize_Some (n d : nat) (scalers : list Scaler) (M N : matrix) :
  rectangular n d M -> normalize scalers M = Some N ->
  (1 <= n)%nat /\ (1 <= length scalers <= d)%nat.
Proof.
  intros [Hlen Hrows]. unfold normalize.
  destruct (mapM _ (enumerate scalers)) as [blocks|] eqn:Hblocks; [|discriminate].
  cbn [bind]. intros Hcat.
  assert (Hk : (1 <= length scalers)%nat).
  { pose proof (Tables.mapM_length _ _ _ Hblocks) as Hl. rewrite length_enumerate in Hl.
    destruct blocks; [discriminate Hcat | cbn [length] in Hl; lia]. }
  pose proof (mapM_each _ _ _ Hblocks) as Heach.
  destruct scalers as [|s0 scalers]; [cbn [length] in Hk; lia|].
  set (all := s0 :: scalers) in *.
  assert (Hlast := Heach _ (In_enumerate all (length all - 1) s0 ltac:(lia))).
  cbn beta iota in Hlast. apply scaler_transform_Some in Hlast as [Hrows1 Hwidth].
  unfold column_slice in Hrows1, Hwidth. rewrite length_map in Hrows1.
  unfold matrix, vec in *.
  split; [lia|]. split; [exact Hk|].
  destruct M as [|row M]; [cbn [length] in Hrows1; lia|].
  unfold ncols in Hwidth. cbn [map hd] in Hwidth.
  rewrite length_firstn, length_skipn in Hwidth.
  inversion Hrows as [|? ? Hrow _]; subst. lia.
Qed.

Section Facts3.

Variable read_dataset : string -> LoadDataset.

(** [log1p] is finite on the listed columns: their entries exceed -1. *)
Definition log1p_finite (idx : list nat) (M : matrix) : Prop :=
  forall row j, In row M -> In j idx -> -1 < nth j row 0.

(** X17.  For a dataset whose inputs and targets have [n] rows, and on
    whose skewed columns [log1p] is finite, [load_data] returns exactly
    when there is at least one sample, every skewed-feature index is a
    column of its array, and the input and the output scalers are each
    at least one and at most as many as the columns; in every other
    case it raises. *)
Theorem load_data_returns_iff (test_filename : string) (prep : DataPreprocessor)
    (n d_in d_out : nat) :
  rectangular n d_in (x (read_dataset test_filename)) ->
  rectangular n d_out (y (read_dataset test_filename)) ->
  log1p_finite (skewed_features_in prep) (x (read_dataset test_filename)) ->
  log1p_finite (skewed_features_out prep) (y (read_dataset test_filename)) ->
  (load_data read_dataset test_filename prep <> None <->
   (1 <= n)%nat /\
   Forall (fun j => (j < d_in)%nat) (skewed_features_in prep) /\
   Forall (fun j => (j < d_out)%nat) (skewed_features_out prep) /\
   (1 <= length (scalers_input prep) <= d_in)%nat /\
   (1 <= length (scalers_output prep) <= d_out)%nat).
Proof.
  intros Hx Hy _ _. split.
  - intros Hrun. unfold load_data in Hrun.
    destruct (if (0 <? length (skewed_features_in prep))%nat
              then log1p_columns (skewed_features_in prep) (x (read_dataset test_filename))
              else Some (x (read_dataset test_filename))) as [M1|] eqn:Hskew_in;
      [|now contradiction Hrun].
    cbn [bind] in Hrun.
    destruct (if (0 <? length (skewed_features_out prep))%nat
              then log1p_columns (skewed_features_out prep) (y (read_dataset test_filename))
              else Some (y (read_dataset test_filename))) as [M2|] eqn:Hskew_out;
      [|now contradiction Hrun].
    cbn [bind] in Hrun.
    destruct (normalize (scalers_input prep) M1) as [N1|] eqn:Hnorm_in;
      [|now contradiction Hrun].
    cbn [bind] in Hrun.
    destruct (normalize (scalers_output prep) M2) as [N2|] eqn:Hnorm_out;
      [|now contradiction Hrun].
    assert (Hn : (1 <= n)%nat).
    { pose proof (skew_step_length _ _ _ Hskew_in) as Hl.
      unfold normalize in Hnorm_in.
      destruct (mapM _ (enumerate (scalers_input prep))) as [blocks|] eqn:Hblocks;
        [|discriminate].
      cbn [bind] in Hnorm_in.
      pose proof (Tables.mapM_length _ _ _ Hblocks) as Hlb. rewrite length_enumerate in Hlb.
      destruct (scalers_input prep) as [|s0 rest] eqn:Hs;
        [destruct blocks; [discriminate Hnorm_in | discriminate Hlb]|].
      assert (Hfirst := mapM_each _ _ _ Hblocks _
                          (In_enumerate (s0 :: rest) 0 s0 ltac:(cbn [length]; lia))).
      cbn beta iota in Hfirst. apply scaler_transform_Some in Hfirst as [Hrows1 _].
      unfold column_slice in Hrows1. rewrite length_map in Hrows1.
      destruct Hx as [Hlx _]. unfold matrix, vec in *. lia. }
    pose proof (skew_step_indices n d_in _ _ _ Hn Hx Hskew_in) as Hin.
    pose proof (skew_step_indices n d_out _ _ _ Hn Hy Hskew_out) as Hout.
    rewrite (skew_step n d_in _ _ Hn Hx Hin) in Hskew_in. injection Hskew_in as <-.
    rewrite (skew_step n d_out _ _ Hn Hy Hout) in Hskew_out. injection Hskew_out as <-.
    destruct (normalize_Some n d_in _ _ _ (skewed_rectangular n d_in _ _ Hx) Hnorm_in)
      as [_ Hsin].
    destruct (normalize_Some n d_out _ _ _ (skewed_rectangular n d_out _ _ Hy) Hnorm_out)
      as [_ Hsout].
    repeat split; try assumption; lia.
  - intros (Hn & Hin & Hout & Hsin & Hsout).
    destruct (load_data_value read_dataset test_filename prep n d_in d_out
                Hn Hx Hy Hin Hout Hsin Hsout) as (Hrun & _).
    rewrite Hrun. discriminate.
Qed.

End Facts3.

(** Four scalers for three input columns: [load_data] raises. *)
Lemma load_data_returns_iff_witness :
  load_data (fun _ => {| x := [[1; 2; 3]]; y := [[4; 5]] |}) "test.txt"
    {| skewed_features_in := [2%nat]; skewed_features_out := [];
       scalers_input := [halving; halving; halving; halving];
       scalers_output := [halving; halving] |} <> None <->
  (1 <= 1)%nat /\
  Forall (fun j => (j < 3)%nat) [2%nat] /\
  Forall (fun j => (j < 2)%nat) [] /\
  (1 <= 4 <= 3)%nat /\
  (1 <= 2 <= 2)%nat.
Proof.
  apply (load_data_returns_iff (fun _ => {| x := [[1; 2; 3]]; y := [[4; 5]] |}) "test.txt"
           {| skewed_features_in := [2%nat]; skewed_features_out := [];
              scalers_input := [halving; halving; halving; halving];
              scalers_output := [halving; halving] |} 1 3 2); cbn.
  - split; [reflexivity | repeat constructor].
  - split; [reflexivity | repeat constructor].
  - intros row j [<-|[]] [<-|[]]. cbn. lra.
  - intros row j _ [].
Defined.

Example load_data_too_many_scalers :
  load_data (fun _ => {| x := [[1; 2; 3]]; y := [[4; 5]] |}) "test.txt"
    {| skewed_features_in := [2%nat]; skewed_features_out := [];
       scalers_input := [halving; halving; halving; halving];
       scalers_output := [halving; halving] |} = None.
Proof. reflexivity. Qed.

End LoadDataExtras.

(* ================================================================== *)
(** ** Training or loading: which collaborator decides the result *)
(* ================================================================== *)

Module CheckpointExtras.
Import Tensor Python Training.

Section Facts.

Context {Settings Losses Dataset Loader Preprocessed : Type}.

(** The same collaborators, but for the reading of checkpoints and the
    test of their loss history. *)
Definition with_checkpoints (env : Collaborators Settings Losses Dataset Loader Preprocessed)
    (load : ModelConfig Settings -> string -> result (Checkpoint Losses))
    (incomplete : Losses -> bool)
  : Collaborators Settings Losses Dataset Loader Preprocessed :=
  {| cuda_is_available := cuda_is_available env;
     makedirs := makedirs env;
     DataLoader := DataLoader env;
     get_trained_bootstraped_models := get_trained_bootstraped_models env;
     load_checkpoints := load;
     select_random_rows := select_random_rows env;
     load_dataset := load_dataset env;
     setup_dataset_with_preproprocessing_info :=
       setup_dataset_with_preproprocessing_info env;
     train_data := train_data env;
     val_data := val_data env;
     losses_incomplete := incomplete |}.

(** The same collaborators, but for the training of the ensemble. *)
Definition with_training (env : Collaborators Settings Losses Dataset Loader Preprocessed)
    (train : ModelConfig Settings -> Settings -> Preprocessed -> string -> string ->
             Loader -> Dataset -> option string ->
             result (list PinnNN.NeuralNetwork * Losses * R))
  : Collaborators Settings Losses Dataset Loader Preprocessed :=
  {| cuda_is_available := cuda_is_available env;
     makedirs := makedirs env;
     DataLoader := DataLoader env;
     get_trained_bootstraped_models := train;
     load_checkpoints := load_checkpoints env;
     select_random_rows := select_random_rows env;
     load_dataset := load_dataset env;
     setup_dataset_with_preproprocessing_info :=
       setup_dataset_with_preproprocessing_info env;
     train_data := train_data env;
     val_data := val_data env;
     losses_incomplete := losses_incomplete env |}.

(** The steps of the main script's functions before [RETRAIN_MODEL] is
    looked at have succeeded, with this training set and this loader. *)
Definition prepared (env : Collaborators Settings Losses Dataset Loader Preprocessed) (config : Config Settings) (model : ModelConfig Settings)
    (dir : string) (info : Preprocessed) (training_file : string) (dataset_size : nat)
    (train : Dataset) (val_loader : Loader) : Prop :=
  exists temp_file temp_dataset test val,
    makedirs env dir = Ok tt /\
    select_random_rows env training_file dataset_size = Ok temp_file /\
    load_dataset env config temp_file = Ok temp_dataset /\
    setup_dataset_with_preproprocessing_info env
      (DataPrep.x temp_dataset) (DataPrep.y temp_dataset) info = Ok (train, test, val) /\
    DataLoader env val (batch_size model) = Ok val_loader.

Definition nn_dir : string := path_join ["output"; "ltp_system"; "checkpoints"; "nn"]%string.
Definition pinn_dir : string :=
  path_join ["output"; "ltp_system"; "checkpoints"; "pinn"]%string.

(** What is left of [get_trained_nn] (main script) after its first steps. *)
Lemma main_nn_prepared (env : Collaborators Settings Losses Dataset Loader Preprocessed) (config : Config Settings) (info : Preprocessed)
    (training_file : string) (dataset_size : nat) (train : Dataset) (val_loader : Loader) :
  prepared env config (nn_model config) nn_dir info training_file dataset_size
           train val_loader ->
  Main.get_trained_nn env config info training_file dataset_size =
  if RETRAIN_MODEL (nn_model config) then
    do (nn_models, nn_losses_dict, _) <-
       get_trained_bootstraped_models env (nn_model config) (plotting config)
         info nn_dir (torch_device env) val_loader train (Some "default"%string);
    Ok (nn_models, nn_losses_dict, torch_device env)
  else
    do (nn_models, nn_losses_dict) <-
       except_FileNotFoundError
         (do checkpoint <- load_checkpoints env (nn_model config) nn_dir;
          if losses_incomplete env (loaded_losses checkpoint) then
            do (nn_models, nn_losses_dict, _) <-
               get_trained_bootstraped_models env (nn_model config) (plotting config)
                 info nn_dir (torch_device env) val_loader train (Some "default"%string);
            Ok (nn_models, nn_losses_dict)
          else Ok (loaded_models checkpoint, loaded_losses checkpoint))
         (Raise (ValueError checkpoint_not_found));
    Ok (nn_models, nn_losses_dict, torch_device env).
Proof.
  intros (temp_file & temp_dataset & test & val & Hdir & Hrows & Hdata & Hsetup & Hloader).
  unfold Main.get_trained_nn. fold nn_dir.
  rewrite Hdir. cbn [and_then]. rewrite Hrows. cbn [and_then].
  rewrite Hdata. cbn [and_then]. rewrite Hsetup. cbn [and_then].
  rewrite Hloader. cbn [and_then]. reflexivity.
Qed.

(** What is left of [get_trained_pinn] after its first steps. *)
Lemma main_pinn_prepared (env : Collaborators Settings Losses Dataset Loader Preprocessed) (config : Config Settings) (info : Preprocessed)
    (training_file : string) (dataset_size : nat) (train : Dataset) (val_loader : Loader) :
  prepared env config (pinn_model config) pinn_dir info training_file dataset_size
           train val_loader ->
  Main.get_trained_pinn env config info training_file dataset_size =
  if RETRAIN_MODEL (pinn_model config) then
    do (pinn_models, pinn_losses_dict, _) <-
       get_trained_bootstraped_models env (pinn_model config) (plotting config)
         info pinn_dir (torch_device env) val_loader train (Some "default"%string);
    Ok (pinn_models, pinn_losses_dict, torch_device env)
  else
    do (pinn_models, pinn_losses_dict) <-
       except_FileNotFoundError
         (do checkpoint <- load_checkpoints env (pinn_model config) pinn_dir;
          if losses_incomplete env (loaded_losses checkpoint) then
            do (pinn_models, pinn_losses_dict, _) <-
               get_trained_bootstraped_models env (pinn_model config) (plotting config)
                 info pinn_dir (torch_device env) val_loader train (Some "default"%string);
            Ok (pinn_models, pinn_losses_dict)
          else Ok (loaded_models checkpoint, loaded_losses checkpoint))
         (Raise (ValueError checkpoint_not_found));
    Ok (pinn_models, pinn_losses_dict, torch_device env).
Proof.
  intros (temp_file & temp_dataset & test & val & Hdir & Hrows & Hdata & Hsetup & Hloader).
  unfold Main.get_trained_pinn. fold pinn_dir.
  rewrite Hdir. cbn [and_then]. rewrite Hrows. cbn [and_then].
  rewrite Hdata. cbn [and_then]. rewrite Hsetup. cbn [and_then].
  rewrite Hloader. cbn [and_then]. reflexivity.
Qed.

(** What is left of [get_trained_nn] (architecture sweep) after its
    first steps. *)
Lemma sweep_nn_prepared (env : Collaborators Settings Losses Dataset Loader Preprocessed) (config : Config Settings) (info : Preprocessed)
    (idx_arc : nat) (val_loader : Loader) :
  makedirs env (Figure_6a.checkpoint_dir idx_arc) = Ok tt ->
  DataLoader env (val_data env info) (batch_size (nn_model config)) = Ok val_loader ->
  Figure_6a.get_trained_nn env config info idx_arc =
  if RETRAIN_MODEL (nn_model config) then
    do (nn_models, nn_losses_dict, training_time) <-
       get_trained_bootstraped_models env (nn_model config) (plotting config)
         info (Figure_6a.checkpoint_dir idx_arc) (torch_device env) val_loader
         (train_data env info) None;
    Ok (Figure_6a.Retrained nn_models nn_losses_dict (torch_device env) training_time)
  else
    except_FileNotFoundError
      (do checkpoint <- load_checkpoints env (nn_model config)
                                         (Figure_6a.checkpoint_dir idx_arc);
       Ok (Figure_6a.Loaded (loaded_models checkpoint) (loaded_hidden_sizes checkpoint)
             (loaded_activation_fns checkpoint) (loaded_training_time checkpoint)))
      (Raise (ValueError checkpoint_not_found)).
Proof.
  intros Hdir Hloader. unfold Figure_6a.get_trained_nn.
  rewrite Hdir. cbn [and_then]. rewrite Hloader. cbn [and_then]. reflexivity.
Qed.

Section Properties.

Variable env : Collaborators Settings Losses Dataset Loader Preprocessed.
Variable config : Config Settings.

(** X18.  With [RETRAIN_MODEL] enabled, [get_trained_nn] (of the main
    script and of the architecture sweep) and [get_trained_pinn] never
    read a checkpoint: whatever [load_checkpoints] would return or
    raise, and whatever the loss history looks like, the result is the
    same. *)
Theorem retraining_ignores_checkpoints
    (load : ModelConfig Settings -> string -> result (Checkpoint Losses))
    (incomplete : Losses -> bool) :
  (RETRAIN_MODEL (nn_model config) = true ->
   (forall preprocessed_data idx_arc,
       Figure_6a.get_trained_nn (with_checkpoints env load incomplete)
                                config preprocessed_data idx_arc
       = Figure_6a.get_trained_nn env config preprocessed_data idx_arc) /\
   (forall info training_file dataset_size,
       Main.get_trained_nn (with_checkpoints env load incomplete)
                           config info training_file dataset_size
       = Main.get_trained_nn env config info training_file dataset_size)) /\
  (RETRAIN_MODEL (pinn_model config) = true ->
   forall info training_file dataset_size,
     Main.get_trained_pinn (with_checkpoints env load incomplete)
                           config info training_file dataset_size
     = Main.get_trained_pinn env config info training_file dataset_size).
Proof.
  split; [intros Hflag; split|intros Hflag]; intros.
  - unfold Figure_6a.get_trained_nn. rewrite Hflag. reflexivity.
  - unfold Main.get_trained_nn. rewrite Hflag. reflexivity.
  - unfold Main.get_trained_pinn. rewrite Hflag. reflexivity.
Qed.

(** An exception that the [except FileNotFoundError] clause lets through. *)
Definition not_FileNotFoundError (e : exn) : Prop :=
  match e with
  | FileNotFoundError _ => False
  | _ => True
  end.

Lemma except_other {A : Type} (e : exn) (handler : result A) :
  not_FileNotFoundError e -> except_FileNotFoundError (Raise e) handler = Raise e.
Proof. destruct e; cbn; [contradiction|reflexivity|reflexivity]. Qed.



(** What the main script's functions make of the training that replaces
    a checkpoint without loss history: it runs inside the [try]. *)
Definition retrained_in_try
    (trained : result (list PinnNN.NeuralNetwork * Losses * R))
  : result (list PinnNN.NeuralNetwork * Losses * string) :=
  match trained with
  | Ok (models, losses, _) => Ok (models, losses, torch_device env)
  | Raise (FileNotFoundError _) => Raise (ValueError checkpoint_not_found)
  | Raise e => Raise e
  end.


Lemma except_never_missing {A : Type} (body : result A) (message detail : string) :
  except_FileNotFoundError body (Raise (ValueError message))
  <> Raise (FileNotFoundError detail).
Proof. destruct body as [a|[d|m|k m]]; cbn; discriminate. Qed.

Lemma and_then_never_missing {A B : Type} (c : result A) (k : A -> result B)
    (detail : string) :
  c <> Raise (FileNotFoundError detail) ->
  (forall a, k a <> Raise (FileNotFoundError detail)) ->
  and_then c k <> Raise (FileNotFoundError detail).
Proof.
  destruct c as [a|e]; cbn; [intros _ Hk; apply Hk|].
  intros Hc _ Heq. apply Hc. injection Heq as ->. reflexivity.
Qed.


End Properties.

End Facts.

(** Collaborators that all succeed; the loss history is the number of
    recorded epochs, and the checkpoint read is [stored]. *)
Definition collaborators (stored : result (Checkpoint nat))
  : Collaborators unit nat unit unit unit :=
  {| cuda_is_available := false;
     makedirs := fun _ => Ok tt;
     DataLoader := fun _ _ => Ok tt;
     get_trained_bootstraped_models :=
       fun _ _ _ _ _ _ _ _ => Ok ([fun inputs => inputs], 50%nat, 12%R);
     load_checkpoints := fun _ _ => stored;
     select_random_rows := fun file _ => Ok file;
     load_dataset := fun _ _ => Ok {| DataPrep.x := [[1%R]]; DataPrep.y := [[2%R]] |};
     setup_dataset_with_preproprocessing_info := fun _ _ _ => Ok (tt, tt, tt);
     train_data := fun _ => tt;
     val_data := fun _ => tt;
     losses_incomplete := fun epochs => Nat.eqb epochs 0 |}.

Definition flags (retrain : bool) : Config unit :=
  {| nn_model := {| RETRAIN_MODEL := retrain; batch_size := 32; settings := tt |};
     pinn_model := {| RETRAIN_MODEL := retrain; batch_size := 32; settings := tt |};
     plotting := tt |}.

Definition stored_checkpoint (epochs : nat) : Checkpoint nat :=
  {| loaded_models := [];
     loaded_losses := epochs;
     loaded_hidden_sizes := [50%Z; 50%Z];
     loaded_activation_fns := ["relu"; "relu"]%string;
     loaded_training_time := 7%R |}.

Lemma collaborators_prepared (stored : result (Checkpoint nat)) (retrain : bool)
    (model : ModelConfig unit) (dir : string) :
  prepared (collaborators stored) (flags retrain) model dir tt "train.txt"%string 1000 tt tt.
Proof.
  exists "train.txt"%string, {| DataPrep.x := [[1%R]]; DataPrep.y := [[2%R]] |}, tt, tt.
  repeat split.
Qed.

Lemma retraining_ignores_checkpoints_witness :
  Figure_6a.get_trained_nn
    (with_checkpoints (collaborators (Raise (FileNotFoundError "nn"%string)))
                      (fun _ _ => Ok (stored_checkpoint 3)) (fun _ => true))
    (flags true) tt 3
  = Figure_6a.get_trained_nn (collaborators (Raise (FileNotFoundError "nn"%string)))
                             (flags true) tt 3 /\
  Main.get_trained_nn
    (with_checkpoints (collaborators (Raise (FileNotFoundError "nn"%string)))
                      (fun _ _ => Ok (stored_checkpoint 3)) (fun _ => true))
    (flags true) tt "train.txt"%string 1000
  = Main.get_trained_nn (collaborators (Raise (FileNotFoundError "nn"%string)))
                        (flags true) tt "train.txt"%string 1000 /\
  Main.get_trained_pinn
    (with_checkpoints (collaborators (Raise (FileNotFoundError "nn"%string)))
                      (fun _ _ => Ok (stored_checkpoint 3)) (fun _ => true))
    (flags true) tt "train.txt"%string 1000
  = Main.get_trained_pinn (collaborators (Raise (FileNotFoundError "nn"%string)))
                          (flags true) tt "train.txt"%string 1000.
Proof.
  destruct (retraining_ignores_checkpoints
              (collaborators (Raise (FileNotFoundError "nn"%string))) (flags true)
              (fun _ _ => Ok (stored_checkpoint 3)) (fun _ => true)) as (Hnn & Hpinn).
  destruct (Hnn eq_refl) as (Hsweep & Hmain).
  split; [|split].
  - exact (Hsweep tt 3%nat).
  - exact (Hmain tt "train.txt"%string 1000%nat).
  - exact (Hpinn eq_refl tt "train.txt"%string 1000%nat).
Defined.





End CheckpointExtras.

(* ================================================================== *)
(** ** The contents of the two tables and of the figures *)
(* ================================================================== *)

From Stdlib Require Import Sorted Permutation.

Module TableExtras.
Import Tensor PyDict Pandas.
Local Open Scope string_scope.

(** An architecture with the entry of [results] computed for it. *)
Definition num_params_of (e : list Z * Figure_6a.result_row) : Z :=
  let '(_, (params, _, _, _, _, _, _)) := e in params.

(** The line of the table for an architecture and its entry of
    [results], in the order of the keys of [data]. *)
Definition cells_of (e : list Z * Figure_6a.result_row) : list cell :=
  let '(hidden_sizes, (params, mape_nn, mape_uncertainty_nn, mape_proj,
                       rmse_nn, rmse_proj, training_time)) := e in
  [IntList hidden_sizes; Int params; Float mape_nn; Float mape_uncertainty_nn;
   Float mape_proj; Float rmse_nn; Float rmse_proj; Float training_time].

(** Insertion by an integer key, as [insert_row] does it on rows whose
    sorting column holds integers. *)
Fixpoint insert_by {A : Type} (key : A -> Z) (a : A) (l : list A) : list A :=
  match l with
  | [] => [a]
  | b :: rest => if (key a <=? key b)%Z then a :: l else b :: insert_by key a rest
  end.

Lemma insert_row_map {A : Type} (key : A -> Z) (f : A -> cell * list cell) (j : nat) :
  (forall a, nth j (snd (f a)) NaN = Int (key a)) ->
  forall a l, insert_row j (f a) (map f l) = map f (insert_by key a l).
Proof.
  intros Hkey a l. induction l as [|b l IH]; [reflexivity|].
  cbn [map insert_row insert_by]. rewrite !Hkey. cbn [cell_le].
  destruct (key a <=? key b)%Z; [reflexivity|].
  cbn [map]. now rewrite IH.
Qed.

Lemma sort_map {A : Type} (key : A -> Z) (f : A -> cell * list cell) (j : nat) :
  (forall a, nth j (snd (f a)) NaN = Int (key a)) ->
  forall l, fold_right (insert_row j) [] (map f l)
            = map f (fold_right (insert_by key) [] l).
Proof.
  intros Hkey l. induction l as [|a l IH]; [reflexivity|].
  cbn [map fold_right]. rewrite IH. now apply insert_row_map.
Qed.

Lemma insert_by_permutation {A : Type} (key : A -> Z) (a : A) (l : list A) :
  Permutation (insert_by key a l) (a :: l).
Proof.
  induction l as [|b l IH]; [reflexivity|].
  cbn [insert_by]. destruct (key a <=? key b)%Z; [reflexivity|].
  rewrite IH. apply perm_swap.
Qed.

Lemma sort_by_permutation {A : Type} (key : A -> Z) (l : list A) :
  Permutation (fold_right (insert_by key) [] l) l.
Proof.
  induction l as [|a l IH]; [reflexivity|].
  cbn [fold_right]. rewrite insert_by_permutation. now apply perm_skip.
Qed.

Lemma insert_by_sorted {A : Type} (key : A -> Z) (a : A) (l : list A) :
  Sorted (fun x y => (key x <= key y)%Z) l ->
  Sorted (fun x y => (key x <= key y)%Z) (insert_by key a l).
Proof.
  induction l as [|b l IH]; intros Hs.
  - repeat constructor.
  - cbn [insert_by]. destruct (key a <=? key b)%Z eqn:Hab.
    + constructor; [exact Hs|]. constructor. lia.
    + inversion Hs as [|? ? Hl Hhd]; subst. constructor; [now apply IH|].
      destruct l as [|c l]; cbn [insert_by].
      * constructor. lia.
      * destruct (key a <=? key c)%Z; constructor; [lia|].
        inversion Hhd; subst. assumption.
Qed.

Lemma sort_by_sorted {A : Type} (key : A -> Z) (l : list A) :
  StronglySorted (fun x y => (key x <= key y)%Z) (fold_right (insert_by key) [] l).
Proof.
  apply Sorted_StronglySorted; [intros x y z; lia|].
  induction l as [|a l IH]; [constructor|].
  cbn [fold_right]. now apply insert_by_sorted.
Qed.

Lemma StronglySorted_map {A B : Type} (f : A -> B) (R : B -> B -> Prop) (l : list A) :
  StronglySorted (fun x y => R (f x) (f y)) l -> StronglySorted R (map f l).
Proof.
  induction 1 as [|a l Hl IH Hall]; cbn [map]; constructor; [exact IH|].
  now apply Forall_map.
Qed.

Lemma combine_maps {A B C D : Type} (f : A -> C) (g : B -> D) (l : list A) (l' : list B) :
  combine (map f l) (map g l') = map (fun p => (f (fst p), g (snd p))) (combine l l').
Proof.
  revert l'. induction l as [|a l IH]; intros [|b l']; cbn [map combine fst snd];
    try reflexivity.
  now rewrite IH.
Qed.

Lemma map_snd_combine_seq {A : Type} (l : list A) (s : nat) :
  map snd (combine (seq s (length l)) l) = l.
Proof.
  revert s. induction l as [|a l IH]; intros s; [reflexivity|].
  cbn [length seq combine map snd]. now rewrite IH.
Qed.

(** The rows of the frame that [pd.DataFrame(data)] builds. *)
Lemma frame_rows (archs : list (list Z)) (results : list Figure_6a.result_row) :
  length results = length archs ->
  map (fun i =>
         [nth i (map IntList archs) NaN;
          nth i (map Int (map (fun '(a, _, _, _, _, _, _) => a) results)) NaN;
          nth i (map Float (map (fun '(_, b, _, _, _, _, _) => b) results)) NaN;
          nth i (map Float (map (fun '(_, _, c, _, _, _, _) => c) results)) NaN;
          nth i (map Float (map (fun '(_, _, _, d, _, _, _) => d) results)) NaN;
          nth i (map Float (map (fun '(_, _, _, _, e, _, _) => e) results)) NaN;
          nth i (map Float (map (fun '(_, _, _, _, _, f, _) => f) results)) NaN;
          nth i (map Float (map (fun '(_, _, _, _, _, _, t) => t) results)) NaN])
      (seq 0 (length archs))
  = map cells_of (combine archs results).
Proof.
  unfold Figure_6a.result_row in *.
  revert results. induction archs as [|arch archs IH]; intros [|row results] Hlen;
    cbn [length] in Hlen; try discriminate; [reflexivity|].
  cbn [length seq]. rewrite <- seq_shift. cbn [map combine].
  rewrite (map_map S). f_equal.
  - destruct row as [[[[[[p m] u] mp] r] rp] t]. reflexivity.
  - rewrite <- (IH results) by lia. apply map_ext. intros i. reflexivity.
Qed.

Definition sweep_columns : list string :=
  ["architectures"; "num_params"; "mapes_nn"; "uncertanties_mape_nn"; "mapes_proj";
   "rmses_nn"; "rmses_proj"; "model_training_time"].

Lemma mapM_Some {A B : Type} (f : A -> option B) (l : list A) :
  (forall a, In a l -> f a <> None) -> exists l', Figure_6a.mapM f l = Some l'.
Proof.
  induction l as [|a l IH]; intros Hall; [now exists []|].
  cbn [Figure_6a.mapM]. destruct (f a) as [b|] eqn:Ha.
  - destruct IH as [bs Hbs]; [intros c Hc; apply Hall; now right|].
    rewrite Hbs. now exists (b :: bs).
  - exfalso. apply (Hall a); [now left | exact Ha].
Qed.

Lemma In_combine_seq {A : Type} (l : list A) (s i : nat) (a : A) :
  In (i, a) (combine (seq s (length l)) l) ->
  (s <= i)%nat /\ nth_error l (i - s) = Some a.
Proof.
  revert s. induction l as [|b l IH]; intros s; [intros []|].
  cbn [length seq combine]. intros [[= <- <-]|Hin].
  - split; [lia|]. now rewrite Nat.sub_diag.
  - apply IH in Hin as [Hle Hnth]. split; [lia|].
    replace (i - s)%nat with (S (i - S s)) by lia. exact Hnth.
Qed.

Section Sweep.

Variable evaluate_architecture : nat -> list Z -> option Figure_6a.result_row.
Variable read_csv : string -> option DataFrame.

(** The frame and the file of a sweep in which every architecture was
    evaluated. *)
Lemma sweep_frame (archs : list (list Z)) (results : list Figure_6a.result_row) :
  archs <> [] ->
  Figure_6a.mapM (fun '(idx, hidden_sizes) => evaluate_architecture idx hidden_sizes)
                 (Figure_6a.enumerate archs) = Some results ->
  exists (entries : list (list Z * Figure_6a.result_row)) (labels : list cell),
    Permutation entries (combine archs results) /\
    StronglySorted (fun a b => (num_params_of a <= num_params_of b)%Z) entries /\
    Figure_6a.run_experiment_6a evaluate_architecture read_csv true archs
    = Some ({| columns := sweep_columns; index := labels; rows := map cells_of entries |},
            Some {| header := sweep_columns; lines := map cells_of entries |}).
Proof.
  intros Hne Hresults.
  pose proof (Tables.mapM_length _ _ _ Hresults) as Hlen.
  rewrite LoadData.length_enumerate in Hlen.
  set (numbered := combine (seq 0 (length archs)) (combine archs results)).
  set (key := fun p : nat * (list Z * Figure_6a.result_row) => num_params_of (snd p)).
  set (sorted := fold_right (insert_by key) [] numbered).
  exists (map snd sorted), (map (fun p => Int (Z.of_nat (fst p))) sorted).
  assert (Hcomb : length (combine archs results) = length archs).
  { rewrite length_combine. unfold Figure_6a.result_row in *. lia. }
  split; [|split].
  - transitivity (map snd numbered).
    + apply Permutation_map, sort_by_permutation.
    + unfold numbered. rewrite <- Hcomb. now rewrite map_snd_combine_seq.
  - apply StronglySorted_map. exact (sort_by_sorted key numbered).
  - unfold Figure_6a.run_experiment_6a. rewrite Hresults. cbn [Figure_6a.bind].
    destruct results as [|row results];
      [destruct archs; [contradiction | discriminate]|].
    remember (row :: results) as rs eqn:Hrs.
    assert (Hunzip : exists t, Figure_6a.unzip_results rs = Some t /\
              t = (map (fun '(a, _, _, _, _, _, _) => a) rs,
                   map (fun '(_, b, _, _, _, _, _) => b) rs,
                   map (fun '(_, _, c, _, _, _, _) => c) rs,
                   map (fun '(_, _, _, d, _, _, _) => d) rs,
                   map (fun '(_, _, _, _, e, _, _) => e) rs,
                   map (fun '(_, _, _, _, _, f, _) => f) rs,
                   map (fun '(_, _, _, _, _, _, t) => t) rs)).
    { subst rs. eexists. split; reflexivity. }
    destruct Hunzip as (t & -> & ->). clear Hrs. cbn [Figure_6a.bind].
    unfold from_columns. cbn [of_items fold_left set fst snd String.eqb Ascii.eqb
                              Bool.eqb values keys map hd forallb].
    unfold Figure_6a.result_row in *.
    rewrite !length_map, Hlen, Nat.eqb_refl. cbn [andb Figure_6a.bind].
    unfold sort_values. cbn [columns position String.eqb Ascii.eqb Bool.eqb].
    cbn [Figure_6a.bind index rows].
    rewrite (frame_rows archs rs Hlen).
    rewrite (combine_maps (fun i => Int (Z.of_nat i)) cells_of).
    fold numbered.
    rewrite (sort_map key (fun p => (Int (Z.of_nat (fst p)), cells_of (snd p))) 1).
    + fold sorted. cbn [to_csv columns rows index]. rewrite !map_map. reflexivity.
    + intros [i [arch [[[[[[p m] u] mp] r] rp] time]]]. reflexivity.
Qed.

(** X23.  With [RETRAIN_MODEL] set, a sweep in which every architecture
    is evaluated writes one line per architecture to [results.csv]: an
    architecture's hidden sizes, then the seven values computed for
    that architecture, so sorting never separates an architecture from
    its own results; the lines, and the rows of the returned frame, are
    in ascending order of [num_params]. *)
Theorem results_sorted_by_num_params (archs : list (list Z))
    (results : list Figure_6a.result_row) :
  archs <> [] ->
  Figure_6a.mapM (fun '(idx, hidden_sizes) => evaluate_architecture idx hidden_sizes)
                 (Figure_6a.enumerate archs) = Some results ->
  exists df csv (entries : list (list Z * Figure_6a.result_row)),
    Figure_6a.run_experiment_6a evaluate_architecture read_csv true archs
    = Some (df, Some csv) /\
    Permutation entries (combine archs results) /\
    StronglySorted (fun a b => (num_params_of a <= num_params_of b)%Z) entries /\
    rows df = map cells_of entries /\
    lines csv = map cells_of entries.
Proof.
  intros Hne Hresults.
  destruct (sweep_frame archs results Hne Hresults)
    as (entries & labels & Hperm & Hsorted & Hrun).
  eexists. eexists. exists entries.
  split; [exact Hrun|]. repeat split; assumption.
Qed.

(** X24.  With [RETRAIN_MODEL] set, [run_experiment_6a] returns a frame
    (and writes [results.csv]) exactly when there is at least one
    architecture and the evaluation of every architecture, under its
    position in the list, succeeds: one failing architecture, or an empty
    list, and neither a frame nor a file is produced. *)
Theorem sweep_returns_iff (archs : list (list Z)) :
  Figure_6a.run_experiment_6a evaluate_architecture read_csv true archs <> None
  <->
  archs <> [] /\
  forall idx hidden_sizes,
    nth_error archs idx = Some hidden_sizes ->
    evaluate_architecture idx hidden_sizes <> None.
Proof.
  split.
  - intros Hrun.
    destruct (Figure_6a.mapM
                (fun '(idx, hidden_sizes) => evaluate_architecture idx hidden_sizes)
                (Figure_6a.enumerate archs)) as [results|] eqn:Hresults.
    + split.
      * intros ->. apply Hrun. unfold Figure_6a.run_experiment_6a.
        cbn in Hresults. injection Hresults as <-. reflexivity.
      * intros idx hidden_sizes Hnth.
        assert (Hidx : (idx < length archs)%nat)
          by (apply nth_error_Some; congruence).
        pose proof (LoadDataExtras.mapM_each _ _ _ Hresults _
                      (LoadDataExtras.In_enumerate archs idx hidden_sizes Hidx)) as Hone.
        cbn beta iota in Hone.
        rewrite (nth_error_nth archs idx hidden_sizes Hnth) in Hone. exact Hone.
    + exfalso. apply Hrun. unfold Figure_6a.run_experiment_6a.
      rewrite Hresults. reflexivity.
  - intros [Hne Hall].
    destruct (mapM_Some (fun '(idx, hidden_sizes) => evaluate_architecture idx hidden_sizes)
                        (Figure_6a.enumerate archs)) as [results Hresults].
    { intros [idx hidden_sizes] Hin. unfold Figure_6a.enumerate in Hin.
      apply In_combine_seq in Hin as [_ Hnth]. rewrite Nat.sub_0_r in Hnth.
      now apply Hall. }
    destruct (sweep_frame archs results Hne Hresults) as (entries & labels & _ & _ & Hrun).
    rewrite Hrun. discriminate.
Qed.

End Sweep.

Import Figure_6a_Plots.

Definition mape_nn_of (e : list Z * Figure_6a.result_row) : R :=
  let '(_, (_, mape_nn, _, _, _, _, _)) := e in mape_nn.
Definition mape_proj_of (e : list Z * Figure_6a.result_row) : R :=
  let '(_, (_, _, _, mape_proj, _, _, _)) := e in mape_proj.
Definition rmse_nn_of (e : list Z * Figure_6a.result_row) : R :=
  let '(_, (_, _, _, _, rmse_nn, _, _)) := e in rmse_nn.
Definition rmse_proj_of (e : list Z * Figure_6a.result_row) : R :=
  let '(_, (_, _, _, _, _, rmse_proj, _)) := e in rmse_proj.

Lemma position_In (name : string) (names : list string) :
  position name names <> None <-> In name names.
Proof.
  induction names as [|n names IH]; cbn [position In]; [tauto|].
  destruct (String.eqb name n) eqn:Heq.
  - apply String.eqb_eq in Heq as ->. split; [now left | discriminate].
  - apply String.eqb_neq in Heq.
    destruct (position name names) as [k|].
    + split; [intros _; right; apply IH; discriminate | discriminate].
    + split; [intros H; now contradiction H|].
      intros [Hn|Hin]; [congruence|]. apply IH in Hin. now contradiction Hin.
Qed.

(** X25.  The subscripts of the frame in [Figure_6a] all succeed, and
    the four lines are handed to matplotlib, exactly when the frame has
    the columns [num_params], [mapes_nn], [mapes_proj], [rmses_nn] and
    [rmses_proj]; a frame that lacks one of them raises [KeyError].  The
    other columns of the results table are not read.  (The saving of
    the figures, which reads [config_plotting], is not part of this.) *)
Theorem Figure_6a_needs_columns (df : DataFrame) :
  Figure_6a df <> None <->
  Forall (fun name => In name (columns df))
         ["num_params"; "mapes_nn"; "mapes_proj"; "rmses_nn"; "rmses_proj"].
Proof.
  unfold Figure_6a, getitem.
  pose proof (position_In "num_params" (columns df)) as Hp.
  pose proof (position_In "mapes_nn" (columns df)) as Hm.
  pose proof (position_In "mapes_proj" (columns df)) as Hmp.
  pose proof (position_In "rmses_nn" (columns df)) as Hr.
  pose proof (position_In "rmses_proj" (columns df)) as Hrp.
  split.
  - intros Hrun.
    destruct (position "num_params" (columns df)); [|now contradiction Hrun].
    destruct (position "mapes_nn" (columns df)); [|now contradiction Hrun].
    destruct (position "mapes_proj" (columns df)); [|now contradiction Hrun].
    destruct (position "rmses_nn" (columns df)); [|now contradiction Hrun].
    destruct (position "rmses_proj" (columns df)); [|now contradiction Hrun].
    repeat constructor; [apply Hp|apply Hm|apply Hmp|apply Hr|apply Hrp]; discriminate.
  - intros Hall.
    inversion Hall as [|? ? H1 Hall1]; subst. inversion Hall1 as [|? ? H2 Hall2]; subst.
    inversion Hall2 as [|? ? H3 Hall3]; subst. inversion Hall3 as [|? ? H4 Hall4]; subst.
    inversion Hall4 as [|? ? H5 _]; subst.
    apply Hp in H1. apply Hm in H2. apply Hmp in H3. apply Hr in H4. apply Hrp in H5.
    destruct (position "num_params" (columns df)); [|now contradiction H1].
    destruct (position "mapes_nn" (columns df)); [|now contradiction H2].
    destruct (position "mapes_proj" (columns df)); [|now contradiction H3].
    destruct (position "rmses_nn" (columns df)); [|now contradiction H4].
    destruct (position "rmses_proj" (columns df)); [|now contradiction H5].
    discriminate.
Qed.

(** The lines of the two figures for the given architectures and their
    entries of [results], over the architectures' parameter counts. *)
Definition architecture_curves (entries : list (list Z * Figure_6a.result_row))
  : list Line * list Line :=
  let x := map (fun e => Int (Figure_6a.compute_parameters (fst e))) entries in
  ([ {| line_x := x; line_y := map (fun e => Float (mape_nn_of e)) entries;
        line_label := "MAPE NN" |};
     {| line_x := x; line_y := map (fun e => Float (mape_proj_of e)) entries;
        line_label := "MAPE Projection" |} ],
   [ {| line_x := x; line_y := map (fun e => Float (rmse_nn_of e)) entries;
        line_label := "RMSE NN" |};
     {| line_x := x; line_y := map (fun e => Float (rmse_proj_of e)) entries;
        line_label := "RMSE Projection" |} ]).

Lemma mapM_Forall2 {A B : Type} (f : A -> option B) (l : list A) (l' : list B) :
  Figure_6a.mapM f l = Some l' -> Forall2 (fun a b => f a = Some b) l l'.
Proof.
  revert l'. induction l as [|a l IH]; intros l'; cbn [Figure_6a.mapM].
  - intros [= <-]. constructor.
  - destruct (f a) as [b|] eqn:Ha; [|discriminate]. cbn [Figure_6a.bind].
    destruct (Figure_6a.mapM f l) as [bs|]; [|discriminate]. cbn [Figure_6a.bind].
    intros [= <-]. constructor; [exact Ha | now apply IH].
Qed.

Lemma Forall2_enumerated {A B : Type} (P : nat -> A -> B -> Prop) (l : list A)
    (l' : list B) (s : nat) :
  Forall2 (fun ia b => P (fst ia) (snd ia) b) (combine (seq s (length l)) l) l' ->
  Forall (fun e : A * B =>
            exists idx,
              (s <= idx)%nat /\ nth_error l (idx - s) = Some (fst e) /\
              P idx (fst e) (snd e))
         (combine l l').
Proof.
  revert s l'. induction l as [|a l IH]; intros s l' Hall; [constructor|].
  cbn [length seq combine] in Hall. inversion Hall as [|? b ? bs Hone Hrest]; subst.
  cbn [combine]. constructor.
  - exists s. rewrite Nat.sub_diag. now repeat split.
  - eapply Forall_impl; [|exact (IH (S s) bs Hrest)].
    intros e (idx & Hle & Hnth & He). exists idx. split; [lia|]. split; [|exact He].
    replace (idx - s)%nat with (S (idx - S s)) by lia. exact Hnth.
Qed.

Lemma StronglySorted_in {A : Type} (P : A -> Prop) (R R' : A -> A -> Prop) (l : list A) :
  (forall a b, P a -> P b -> R a b -> R' a b) ->
  Forall P l -> StronglySorted R l -> StronglySorted R' l.
Proof.
  intros Himp Hall Hs. induction Hs as [|a l Hl IH Hhd]; [constructor|].
  inversion Hall as [|? ? Ha Hrest]; subst. constructor; [now apply IH|].
  rewrite Forall_forall in *. intros b Hb. apply Himp; auto.
Qed.

Section Plotted.

Variable trained_ensemble : nat -> list Z -> option (list PinnNN.NeuralNetwork * R).
Variable inverse : matrix -> option matrix.
Variable constraint_p_i_ne : Projection.Constraint.
Variables normalized_inputs normalized_targets : matrix.
Variable preprocessed_data : DataPrep.DataPreprocessor.
Variable w_matrix : matrix.
Variable read_csv : string -> option DataFrame.

(** The entry of [results] starts with the parameter count of the
    architecture it was computed for. *)
Lemma entry_counts_parameters (idx : nat) (hidden_sizes : list Z)
    (row : Figure_6a.result_row) :
  Figure_6a_Loop.evaluate_architecture trained_ensemble inverse constraint_p_i_ne
    normalized_inputs normalized_targets preprocessed_data w_matrix idx hidden_sizes
  = Some row ->
  num_params_of (hidden_sizes, row) = Figure_6a.compute_parameters hidden_sizes.
Proof.
  unfold Figure_6a_Loop.evaluate_architecture.
  destruct (trained_ensemble idx hidden_sizes) as [[nn_models training_time]|];
    [|discriminate].
  cbn [Figure_6a.bind].
  destruct (Figure_6a.evaluate_model nn_models normalized_inputs normalized_targets)
    as [[[[mape_nn mape_uncertainty_nn] predictions] rmse_nn]|]; [|discriminate].
  cbn [Figure_6a.bind].
  destruct (Figure_6a.evaluate_projection inverse predictions normalized_targets
              normalized_inputs preprocessed_data constraint_p_i_ne w_matrix)
    as [[mape_proj rmse_proj]|]; [|discriminate].
  cbn [Figure_6a.bind]. intros [= <-]. reflexivity.
Qed.

(** X26.  After a sweep whose loop trains or loads each ensemble,
    evaluates it and its projection and counts the parameters of the
    architecture, the frame that [run_experiment_6a] returns has the
    columns that [Figure_6a] reads: its four lines have the same
    abscissae, the parameter counts [compute_parameters] gives for the
    architectures, in ascending order, and every point pairs the
    parameter count of an architecture of the list with the MAPE or RMSE
    that the loop computed for that architecture, under its position in
    the list. *)
Theorem sweep_is_plotted (archs : list (list Z)) (results : list Figure_6a.result_row) :
  archs <> [] ->
  Figure_6a.mapM
    (fun '(idx, hidden_sizes) =>
       Figure_6a_Loop.evaluate_architecture trained_ensemble inverse constraint_p_i_ne
         normalized_inputs normalized_targets preprocessed_data w_matrix idx hidden_sizes)
    (Figure_6a.enumerate archs) = Some results ->
  exists df csv (entries : list (list Z * Figure_6a.result_row)),
    Figure_6a.run_experiment_6a
      (Figure_6a_Loop.evaluate_architecture trained_ensemble inverse constraint_p_i_ne
         normalized_inputs normalized_targets preprocessed_data w_matrix)
      read_csv true archs
    = Some (df, csv) /\
    Permutation entries (combine archs results) /\
    Forall (fun e =>
              exists idx,
                nth_error archs idx = Some (fst e) /\
                Figure_6a_Loop.evaluate_architecture trained_ensemble inverse
                  constraint_p_i_ne normalized_inputs normalized_targets
                  preprocessed_data w_matrix idx (fst e)
                = Some (snd e))
           entries /\
    StronglySorted
      (fun a b => (Figure_6a.compute_parameters (fst a)
                   <= Figure_6a.compute_parameters (fst b))%Z)
      entries /\
    Figure_6a df = Some (architecture_curves entries).
Proof.
  intros Hne Hresults.
  destruct (sweep_frame _ read_csv archs results Hne Hresults)
    as (entries & labels & Hperm & Hsorted & Hrun).
  assert (Hbody : Forall (fun e =>
              exists idx,
                nth_error archs idx = Some (fst e) /\
                Figure_6a_Loop.evaluate_architecture trained_ensemble inverse
                  constraint_p_i_ne normalized_inputs normalized_targets
                  preprocessed_data w_matrix idx (fst e)
                = Some (snd e))
            entries).
  { apply (Permutation_Forall (Permutation_sym Hperm)).
    eapply Forall_impl;
      [|apply (Forall2_enumerated
                 (fun idx hidden_sizes row =>
                    Figure_6a_Loop.evaluate_architecture trained_ensemble inverse
                      constraint_p_i_ne normalized_inputs normalized_targets
                      preprocessed_data w_matrix idx hidden_sizes = Some row)
                 archs results 0)].
    - intros e (idx & _ & Hnth & He). exists idx. rewrite Nat.sub_0_r in Hnth.
      now split.
    - apply mapM_Forall2 in Hresults. unfold Figure_6a.enumerate in Hresults.
      eapply Forall2_impl; [|exact Hresults].
      intros [idx hidden_sizes] row Hrow. exact Hrow. }
  assert (Hcount : Forall (fun e => num_params_of e = Figure_6a.compute_parameters (fst e))
                          entries).
  { eapply Forall_impl; [|exact Hbody]. intros [hidden_sizes row] (idx & _ & Hrow).
    exact (entry_counts_parameters idx hidden_sizes row Hrow). }
  eexists. eexists. exists entries.
  split; [exact Hrun|]. split; [exact Hperm|]. split; [exact Hbody|]. split.
  - apply (StronglySorted_in
             (fun e => num_params_of e = Figure_6a.compute_parameters (fst e))
             (fun a b => (num_params_of a <= num_params_of b)%Z) _ entries);
      [|exact Hcount|exact Hsorted].
    intros a b Ha Hb Hab. cbv beta in *. rewrite <- Ha, <- Hb. exact Hab.
  - unfold Figure_6a, getitem, sweep_columns.
    cbn [columns rows position String.eqb Ascii.eqb Bool.eqb Figure_6a.bind].
    rewrite !map_map. unfold architecture_curves.
    rewrite (map_ext_in (fun e => nth 1 (cells_of e) NaN)
                        (fun e => Int (Figure_6a.compute_parameters (fst e)))).
    2:{ intros e He. rewrite Forall_forall in Hcount. rewrite <- (Hcount e He).
        destruct e as [arch [[[[[[p m] u] mp] r] rp] time]]. reflexivity. }
    rewrite (map_ext (fun e => nth 2 (cells_of e) NaN) (fun e => Float (mape_nn_of e)))
      by (intros [arch [[[[[[p m] u] mp] r] rp] time]]; reflexivity).
    rewrite (map_ext (fun e => nth 4 (cells_of e) NaN) (fun e => Float (mape_proj_of e)))
      by (intros [arch [[[[[[p m] u] mp] r] rp] time]]; reflexivity).
    rewrite (map_ext (fun e => nth 5 (cells_of e) NaN) (fun e => Float (rmse_nn_of e)))
      by (intros [arch [[[[[[p m] u] mp] r] rp] time]]; reflexivity).
    rewrite (map_ext (fun e => nth 6 (cells_of e) NaN) (fun e => Float (rmse_proj_of e)))
      by (intros [arch [[[[[[p m] u] mp] r] rp] time]]; reflexivity).
    reflexivity.
Qed.

End Plotted.

(** A sweep whose every architecture gets the same six metrics. *)
Definition constant_metrics (idx : nat) (hidden_sizes : list Z)
  : option Figure_6a.result_row :=
  Some (Figure_6a.compute_parameters hidden_sizes, 1, 2, 3, 4, 5, 6)%R.

Definition no_results_file (path : string) : option DataFrame := None.

Lemma results_sorted_by_num_params_witness :
  exists df csv (entries : list (list Z * Figure_6a.result_row)),
    Figure_6a.run_experiment_6a constant_metrics no_results_file true [[5; 5]; [2]]%Z
    = Some (df, Some csv) /\
    Permutation entries
      (combine [[5; 5]; [2]]%Z
         [(Figure_6a.compute_parameters [5; 5]%Z, 1, 2, 3, 4, 5, 6)%R;
          (Figure_6a.compute_parameters [2]%Z, 1, 2, 3, 4, 5, 6)%R]) /\
    StronglySorted (fun a b => (num_params_of a <= num_params_of b)%Z) entries /\
    rows df = map cells_of entries /\
    lines csv = map cells_of entries.
Proof.
  apply (results_sorted_by_num_params constant_metrics no_results_file).
  - discriminate.
  - reflexivity.
Defined.

(** An ensemble of one model that predicts the targets [[1, 3]] for
    every architecture, trained in 7 seconds; the constraint
    [y1 - y2 = 0] under identity weights and identity scalers. *)
Definition one_model (idx : nat) (hidden_sizes : list Z)
  : option (list PinnNN.NeuralNetwork * R) :=
  Some ([fun _ => [[1; 3]]], 7)%R.

Definition difference_constraint : Projection.Constraint :=
  {| Projection.residual := fun _ out => [nth 0 out 0 - nth 1 out 0]%R;
     Projection.jacobian := fun _ _ => [[1; -1]]%R |}.

Definition two_outputs : DataPrep.DataPreprocessor :=
  {| DataPrep.skewed_features_in := []; DataPrep.skewed_features_out := [];
     DataPrep.scalers_input := [];
     DataPrep.scalers_output :=
       [ {| DataPrep.transform := fun v => v; DataPrep.inverse_transform := fun v => v |};
         {| DataPrep.transform := fun v => v; DataPrep.inverse_transform := fun v => v |} ] |}.

(** A backend that takes every matrix for a regular diagonal one. *)
Definition unchecked_inverse (A : matrix) : option matrix :=
  Some (Projection.diagonal_inverse A).

Lemma sweep_is_plotted_witness :
  exists df csv (entries : list (list Z * Figure_6a.result_row)),
    Figure_6a.run_experiment_6a
      (Figure_6a_Loop.evaluate_architecture one_model unchecked_inverse
         difference_constraint [[0%R]] [[1; 3]]%R two_outputs [[1; 0]; [0; 1]]%R)
      no_results_file true [[5; 5]; [2]]%Z
    = Some (df, csv) /\
    map fst entries = [[2]; [5; 5]]%Z /\
    Figure_6a df = Some (architecture_curves entries).
Proof.
  destruct (sweep_is_plotted one_model unchecked_inverse difference_constraint
              [[0%R]] [[1; 3]]%R two_outputs [[1; 0]; [0; 1]]%R no_results_file
              [[5; 5]; [2]]%Z _ ltac:(discriminate) eq_refl)
    as (df & csv & entries & Hrun & Hperm & _ & Hsorted & Hfigure).
  exists df, csv, entries. split; [exact Hrun|]. split; [|exact Hfigure].
  apply (Permutation_map fst) in Hperm. cbn [combine map fst] in Hperm.
  apply Permutation_sym, Permutation_length_2_inv in Hperm as [Heq|Heq]; [|exact Heq].
  exfalso. destruct entries as [|a [|b [|]]]; try discriminate.
  cbn [map] in Heq. injection Heq as Ha Hb. inversion Hsorted as [|? ? _ Hhd]; subst.
  inversion Hhd as [|? ? Hab _]; subst. rewrite Ha, Hb in Hab.
  vm_compute in Hab. now apply Hab.
Defined.

(** The sweep over [[5, 5]] and [[2]] writes the smaller network first. *)
Example smaller_network_first :
  exists df csv,
    Figure_6a.run_experiment_6a constant_metrics no_results_file true [[5; 5]; [2]]%Z
    = Some (df, Some csv) /\
    map (fun line => nth 0 line NaN) (lines csv) = [IntList [2]%Z; IntList [5; 5]%Z] /\
    map (fun line => nth 1 line NaN) (lines csv) = [Int 42; Int 135].
Proof. eexists. eexists. split; [reflexivity|]. split; reflexivity. Qed.

(** The frame with the column names of the specification cannot be
    plotted: it has no column [num_params]. *)
Example params_column_is_not_plotted :
  Figure_6a {| columns := ["params"; "mapes_nn"; "uncertanties_mape_nn"; "mapes_proj";
                           "rmses_nn"; "rmses_proj"; "model_training_time"];
               index := []; rows := [] |} = None.
Proof. reflexivity. Qed.

End TableExtras.

(* ================================================================== *)
(** ** The dictionary and the table of compliance errors *)
(* ================================================================== *)

Module LawsDictExtras.
Import Tensor PyDict Pandas.
Local Open Scope string_scope.

Lemma get_set {V : Type} (k k' : string) (v : V) (d : dict V) :
  get k (set k' v d) = if String.eqb k k' then Some v else get k d.
Proof.
  induction d as [|[k0 v0] d IH]; [reflexivity|].
  cbn [set]. destruct (String.eqb k' k0) eqn:H0.
  - apply String.eqb_eq in H0 as <-. cbn [get].
    destruct (String.eqb k k'); reflexivity.
  - cbn [get]. rewrite IH. destruct (String.eqb k k0) eqn:Hk; [|reflexivity].
    apply String.eqb_eq in Hk as ->. rewrite String.eqb_sym, H0. reflexivity.
Qed.

Lemma get_app {V : Type} (k : string) (d d' : list (string * V)) :
  get k (d ++ d')%list = match get k d with Some v => Some v | None => get k d' end.
Proof.
  induction d as [|[k0 v0] d IH]; [reflexivity|].
  cbn [app get]. destruct (String.eqb k k0); [reflexivity | exact IH].
Qed.

Lemma get_None {V : Type} (k : string) (d : dict V) :
  ~ In k (keys d) -> get k d = None.
Proof.
  induction d as [|[k0 v0] d IH]; [reflexivity|].
  cbn [keys map fst In get]. intros Hnot.
  destruct (String.eqb k k0) eqn:Hk.
  - apply String.eqb_eq in Hk. exfalso. apply Hnot. left. congruence.
  - apply IH. intros Hin. apply Hnot. now right.
Qed.

Lemma get_In {V : Type} (k : string) (d : dict V) :
  In k (keys d) -> exists v, get k d = Some v.
Proof.
  induction d as [|[k0 v0] d IH]; [intros []|].
  cbn [keys map fst In get]. intros Hin.
  destruct (String.eqb k k0) eqn:Hk; [now exists v0|].
  apply String.eqb_neq in Hk. destruct Hin as [Heq|Hin]; [congruence|]. now apply IH.
Qed.

(** The items set one after the other: the last item of a key counts. *)
Lemma get_fold_set {V : Type} (k : string) (items : list (string * V)) (d : dict V) :
  get k (fold_left (fun d kv => set (fst kv) (snd kv) d) items d)
  = match get k (rev items) with Some v => Some v | None => get k d end.
Proof.
  revert d. induction items as [|[k1 v1] items IH]; intros d; [reflexivity|].
  cbn [fold_left fst snd rev]. rewrite IH, get_app, get_set. cbn [get].
  destruct (get k (rev items)); [reflexivity|].
  destruct (String.eqb k k1); reflexivity.
Qed.

(** In a dictionary every key has one item: reading its items backwards
    finds the same values. *)
Lemma get_rev {V : Type} (k : string) (d : dict V) :
  NoDup (keys d) -> get k (rev d) = get k d.
Proof.
  induction d as [|[k1 v1] d IH]; [reflexivity|].
  cbn [keys map fst]. intros Hnd. inversion Hnd as [|? ? Hnot Hnd']; subst.
  cbn [rev]. rewrite get_app, (IH Hnd'). cbn [get].
  destruct (String.eqb k k1) eqn:Hk.
  - apply String.eqb_eq in Hk as ->. now rewrite (get_None k1 d Hnot).
  - destruct (get k d); reflexivity.
Qed.

(** [{**a, **b, **c}]: the value of a key is that of the last of the
    three dictionaries that has it. *)
Lemma get_merged {V : Type} (k : string) (a b c : dict V) :
  NoDup (keys a) -> NoDup (keys b) -> NoDup (keys c) ->
  get k (of_items (a ++ b ++ c)%list)
  = match get k c with
    | Some v => Some v
    | None => match get k b with
              | Some v => Some v
              | None => get k a
              end
    end.
Proof.
  intros Ha Hb Hc. unfold of_items. rewrite get_fold_set, !rev_app_distr, <- app_assoc.
  rewrite !get_app, (get_rev k a Ha), (get_rev k b Hb), (get_rev k c Hc). cbn [get].
  destruct (get k c); [reflexivity|]. destruct (get k b); [reflexivity|].
  destruct (get k a); reflexivity.
Qed.

(** The cell of the table for an error that may be missing. *)
Definition error_cell (error : option R) : cell :=
  match error with
  | Some v => Float v
  | None => NaN
  end.

Section LawsDict.

Context {Preprocessed : Type}.
Variable compute_mape_physical_laws :
  string -> Preprocessed -> list PinnNN.NeuralNetwork -> matrix -> string -> dict (dict R).
Variable compute_mape_physical_laws_loki :
  string -> Preprocessed -> matrix -> dict (dict R).
Variable file_name : string.
Variable preprocessed_data : Preprocessed.
Variables nn_models pinn_models : list PinnNN.NeuralNetwork.

(** X27.  When the three computations return dictionaries,
    [get_laws_dict] raises [KeyError] exactly when the network's
    dictionary has no key [nn_model]; when it returns, a model name is
    looked up in the merged dictionary as in the LoKI dictionary first,
    then in the PINN's, then in the network's: a later dictionary
    overrides an earlier one on a shared name. *)
Theorem laws_dict_lookup (nn_laws_dict pinn_laws_dict loki_laws_dict : dict (dict R)) :
  compute_mape_physical_laws file_name preprocessed_data nn_models (Main.eye 17) "nn_model"
  = nn_laws_dict ->
  compute_mape_physical_laws file_name preprocessed_data pinn_models (Main.eye 17)
                             "pinn_model"
  = pinn_laws_dict ->
  compute_mape_physical_laws_loki file_name preprocessed_data (Main.eye 17)
  = loki_laws_dict ->
  NoDup (keys nn_laws_dict) -> NoDup (keys pinn_laws_dict) -> NoDup (keys loki_laws_dict) ->
  (Main.get_laws_dict compute_mape_physical_laws compute_mape_physical_laws_loki
     file_name preprocessed_data nn_models pinn_models <> None
   <-> get "nn_model" nn_laws_dict <> None) /\
  (forall laws_dict csv,
      Main.get_laws_dict compute_mape_physical_laws compute_mape_physical_laws_loki
        file_name preprocessed_data nn_models pinn_models = Some (laws_dict, csv) ->
      forall model,
        get model laws_dict
        = match get model loki_laws_dict with
          | Some errors => Some errors
          | None => match get model pinn_laws_dict with
                    | Some errors => Some errors
                    | None => get model nn_laws_dict
                    end
          end).
Proof.
  intros Hnn Hpinn Hloki Hnn_keys Hpinn_keys Hloki_keys. unfold Main.get_laws_dict.
  rewrite Hnn, Hpinn, Hloki. split.
  - destruct (get "nn_model" nn_laws_dict); split; intros H; try discriminate;
      now contradiction H.
  - intros laws_dict csv Hrun model.
    destruct (get "nn_model" nn_laws_dict); [|discriminate].
    injection Hrun as <- _. now apply get_merged.
Qed.

(** X28.  When each computation returns its errors under the name of its
    model, the compliance table has one line per law of the network's
    dictionary: the law's name, then the law's error for the network,
    the PINN and LoKI, with NaN where the PINN's or LoKI's dictionary
    lacks the law; the network's column has no NaN, and a law that only
    the PINN or LoKI has gets no line. *)
Theorem compliance_cells (nn_errors pinn_errors loki_errors : dict R) :
  compute_mape_physical_laws file_name preprocessed_data nn_models (Main.eye 17) "nn_model"
  = [("nn_model", nn_errors)] ->
  compute_mape_physical_laws file_name preprocessed_data pinn_models (Main.eye 17)
                             "pinn_model"
  = [("pinn_model", pinn_errors)] ->
  compute_mape_physical_laws_loki file_name preprocessed_data (Main.eye 17)
  = [("loki_model", loki_errors)] ->
  exists laws_dict csv,
    Main.get_laws_dict compute_mape_physical_laws compute_mape_physical_laws_loki
      file_name preprocessed_data nn_models pinn_models = Some (laws_dict, csv) /\
    lines csv
    = map (fun law => [Label law; error_cell (get law nn_errors);
                       error_cell (get law pinn_errors); error_cell (get law loki_errors)])
          (keys nn_errors) /\
    Forall (fun line => exists v, nth 1 line NaN = Float v) (lines csv).
Proof.
  intros Hnn Hpinn Hloki. unfold Main.get_laws_dict.
  rewrite Hnn, Hpinn, Hloki.
  cbn [app of_items fold_left set fst snd get String.eqb Ascii.eqb Bool.eqb].
  eexists. eexists. split; [reflexivity|].
  unfold to_csv, from_nested. cbn [lines index rows values map snd].
  rewrite LoadData.map2_map_both. split; [reflexivity|].
  apply Forall_map, Forall_forall. intros law Hin. cbn [nth].
  destruct (get_In law nn_errors Hin) as [v ->]. now exists v.
Qed.

End LawsDict.

(** The network and the PINN report under their own names; LoKI's
    dictionary reports under the name of the network. *)
Definition by_name (file_name : string) (data : unit)
    (models : list PinnNN.NeuralNetwork) (w : matrix) (name : string) : dict (dict R) :=
  [(name, [("quasi_neutrality", 1%R)])].

Definition loki_as_network (file_name : string) (data : unit) (w : matrix)
  : dict (dict R) :=
  [("nn_model", [("quasi_neutrality", 2%R)])].

Lemma laws_dict_lookup_witness :
  exists laws_dict csv,
    Main.get_laws_dict by_name loki_as_network "test.txt" tt [] [] = Some (laws_dict, csv) /\
    get "nn_model" laws_dict = Some [("quasi_neutrality", 2%R)] /\
    get "pinn_model" laws_dict = Some [("quasi_neutrality", 1%R)].
Proof.
  destruct (laws_dict_lookup by_name loki_as_network "test.txt" tt [] [] _ _ _
              eq_refl eq_refl eq_refl
              (NoDup_cons _ (fun H : In "nn_model" [] => H) (NoDup_nil _))
              (NoDup_cons _ (fun H : In "pinn_model" [] => H) (NoDup_nil _))
              (NoDup_cons _ (fun H : In "nn_model" [] => H) (NoDup_nil _)))
    as [_ Hlookup].
  eexists. eexists. split; [reflexivity|]. split.
  - exact (Hlookup _ _ eq_refl "nn_model").
  - exact (Hlookup _ _ eq_refl "pinn_model").
Defined.

(** The network knows two laws, the PINN one of them and a third, LoKI
    none. *)
Definition two_laws (file_name : string) (data : unit)
    (models : list PinnNN.NeuralNetwork) (w : matrix) (name : string) : dict (dict R) :=
  if String.eqb name "nn_model"
  then [(name, [("pressure", 1%R); ("quasi_neutrality", 2%R)])]
  else [(name, [("quasi_neutrality", 3%R); ("discharge_current", 4%R)])].

Definition no_law (file_name : string) (data : unit) (w : matrix) : dict (dict R) :=
  [("loki_model", [])].

Lemma compliance_cells_witness :
  exists laws_dict csv,
    Main.get_laws_dict two_laws no_law "test.txt" tt [] [] = Some (laws_dict, csv) /\
    lines csv = [[Label "pressure"; Float 1; NaN; NaN];
                 [Label "quasi_neutrality"; Float 2; Float 3; NaN]] /\
    Forall (fun line => exists v, nth 1 line NaN = Float v) (lines csv).
Proof.
  exact (compliance_cells two_laws no_law "test.txt" tt [] [] _ _ _
           eq_refl eq_refl eq_refl).
Defined.

End LawsDictExtras.

(* ================================================================== *)
(** ** The configuration generated for an architecture *)
(* ================================================================== *)

Module ConfigExtras.
Import Figure_6a Figure_6a_Config.
Local Open Scope string_scope.

(** The keys [generate_config_] reads. *)
Definition nn_model_keys : list string :=
  ["learning_rate"; "batch_size"; "training_threshold"; "lambda_physics"].
Definition plotting_keys : list string := ["output_dir"; "palette"].
Definition options_keys : list string :=
  ["RETRAIN_MODEL"; "num_epochs"; "n_bootstrap_models"; "PRINT_LOSS_VALUES"].

Ltac read_key H :=
  match type of H with
  | context [bind ?c _] =>
      let E := fresh "Hkey" in
      destruct c eqn:E; cbn [bind] in H; [|try discriminate; try now contradiction H]
  end.

(** X29.  [generate_config_] returns a configuration exactly when
    [config] has [dataset_generation], the four entries of [nn_model]
    and the two entries of [plotting] that it copies, and [options] has
    [RETRAIN_MODEL], [num_epochs], [n_bootstrap_models] and
    [PRINT_LOSS_VALUES]; otherwise a subscript raises.  The sizes and
    the activation functions are not inspected. *)
Theorem generate_config_returns_iff (config hidden_sizes activation_fns options : value) :
  generate_config_ config hidden_sizes activation_fns options <> None
  <->
  getitem "dataset_generation" config <> None /\
  Forall (fun k => getitem2 "nn_model" k config <> None) nn_model_keys /\
  Forall (fun k => getitem2 "plotting" k config <> None) plotting_keys /\
  Forall (fun k => getitem k options <> None) options_keys.
Proof.
  unfold generate_config_. split.
  - intros Hrun. do 11 read_key Hrun.
    split; [discriminate|].
    repeat split; repeat constructor; congruence.
  - intros (Hdata & Hnn & Hplot & Hopt).
    inversion Hnn as [|? ? Hn1 Hnn1]; subst. inversion Hnn1 as [|? ? Hn2 Hnn2]; subst.
    inversion Hnn2 as [|? ? Hn3 Hnn3]; subst. inversion Hnn3 as [|? ? Hn4 _]; subst.
    inversion Hplot as [|? ? Hp1 Hplot1]; subst. inversion Hplot1 as [|? ? Hp2 _]; subst.
    inversion Hopt as [|? ? Ho1 Hopt1]; subst. inversion Hopt1 as [|? ? Ho2 Hopt2]; subst.
    inversion Hopt2 as [|? ? Ho3 Hopt3]; subst. inversion Hopt3 as [|? ? Ho4 _]; subst.
    destruct (getitem "dataset_generation" config); [|now contradiction Hdata].
    destruct (getitem "RETRAIN_MODEL" options); [|now contradiction Ho1].
    destruct (getitem "num_epochs" options); [|now contradiction Ho2].
    destruct (getitem2 "nn_model" "learning_rate" config); [|now contradiction Hn1].
    destruct (getitem2 "nn_model" "batch_size" config); [|now contradiction Hn2].
    destruct (getitem2 "nn_model" "training_threshold" config); [|now contradiction Hn3].
    destruct (getitem "n_bootstrap_models" options); [|now contradiction Ho3].
    destruct (getitem2 "nn_model" "lambda_physics" config); [|now contradiction Hn4].
    destruct (getitem2 "plotting" "output_dir" config); [|now contradiction Hp1].
    destruct (getitem "PRINT_LOSS_VALUES" options); [|now contradiction Ho4].
    destruct (getitem2 "plotting" "palette" config); [|now contradiction Hp2].
    discriminate.
Qed.

(** X30.  A generated configuration holds everything [generate_config_]
    reads from a configuration: generating again from it, for any sizes,
    activation functions and options, gives what generating from the
    original configuration gives.  In particular, generating twice with
    the same arguments changes nothing. *)
Theorem generate_config_again (config hidden_sizes activation_fns options generated : value) :
  generate_config_ config hidden_sizes activation_fns options = Some generated ->
  (forall hidden_sizes' activation_fns' options',
      generate_config_ generated hidden_sizes' activation_fns' options'
      = generate_config_ config hidden_sizes' activation_fns' options') /\
  generate_config_ generated hidden_sizes activation_fns options = Some generated.
Proof.
  intros Hrun.
  assert (Hagain : forall hidden_sizes' activation_fns' options',
             generate_config_ generated hidden_sizes' activation_fns' options'
             = generate_config_ config hidden_sizes' activation_fns' options').
  { intros hidden_sizes' activation_fns' options'.
    unfold generate_config_ in Hrun. do 11 read_key Hrun. injection Hrun as <-.
    unfold generate_config_.
    repeat match goal with
           | H : getitem _ config = Some _ |- _ => rewrite H; clear H
           | H : getitem2 _ _ config = Some _ |- _ => rewrite H; clear H
           end.
    reflexivity. }
  split; [exact Hagain|]. now rewrite Hagain.
Qed.

Definition sample_config : value :=
  Dict [("dataset_generation", Dict [("n_simulations", PyInt 3000)]);
        ("nn_model", Dict [("RETRAIN_MODEL", PyBool false);
                           ("hidden_sizes", PyList [PyInt 50; PyInt 50]);
                           ("learning_rate", PyFloat (1 / 1000));
                           ("batch_size", PyInt 32);
                           ("training_threshold", PyFloat (1 / 100));
                           ("lambda_physics", PyList [PyInt 0; PyInt 0; PyInt 0])]);
        ("pinn_model", Dict [("RETRAIN_MODEL", PyBool false)]);
        ("plotting", Dict [("output_dir", PyStr "output/ltp_system/");
                           ("palette", PyStr "viridis")])].

Definition sample_options : value :=
  Dict [("RETRAIN_MODEL", PyBool true);
        ("num_epochs", PyInt 100);
        ("n_bootstrap_models", PyInt 5);
        ("PRINT_LOSS_VALUES", PyBool false)].

Lemma generate_config_again_witness :
  exists generated,
    generate_config_ sample_config (PyList [PyInt 8]) (PyList [PyStr "relu"]) sample_options
    = Some generated /\
    generate_config_ generated (PyList [PyInt 8]) (PyList [PyStr "relu"]) sample_options
    = Some generated.
Proof.
  eexists. split; [reflexivity|].
  exact (proj2 (generate_config_again sample_config (PyList [PyInt 8])
                  (PyList [PyStr "relu"]) sample_options _ eq_refl)).
Defined.

(** In the generated configuration [RETRAIN_MODEL] is that of the
    options, [barplot_palette] is the output directory, and the PINN's
    settings are gone. *)
Example generated_entries :
  exists generated,
    generate_config_ sample_config (PyList [PyInt 8]) (PyList [PyStr "relu"]) sample_options
    = Some generated /\
    getitem2 "nn_model" "RETRAIN_MODEL" generated = Some (PyBool true) /\
    getitem2 "plotting" "barplot_palette" generated = Some (PyStr "output/ltp_system/") /\
    getitem "pinn_model" generated = None.
Proof. eexists. split; [reflexivity|]. repeat split. Qed.

(** Without [n_bootstrap_models] in the options nothing is generated. *)
Example missing_option :
  generate_config_ sample_config (PyList [PyInt 8]) (PyList [PyStr "relu"])
    (Dict [("RETRAIN_MODEL", PyBool true); ("num_epochs", PyInt 100);
           ("PRINT_LOSS_VALUES", PyBool false)]) = None.
Proof. reflexivity. Qed.

End ConfigExtras.
